(** * copilot-plugin-mcp-server: plugin-server.js and plugin-manager.js

    A shallow embedding of the plugin MCP server (src/plugin-server.js) and
    of its plugin manager (class PluginManager), followed by the properties
    of the specification that were checked against it.

    Conventions.
    - A JavaScript string is the list of its UTF-16 code units
      ([jsstring]); [str] turns an ASCII literal into one.
    - A value is a JSON value, [None] standing for [undefined]; an object
      lists its own enumerable properties in enumeration order. JSON numbers
      are restricted to integers ([JNum]).
    - Exceptions are explicit: a function that can throw returns
      [result A]; the functions of the plugin manager, which change the disk
      and the registry of loaded plugins, are computations [M A] that return
      the state reached even when they throw.
    - [JSON.parse] and [JSON.stringify] are parameters ([Runtime]), as are
      the clock, the child processes [git] and [npm] and [require]
      ([environment]). The disk is the finite list of its entries.
    - The module state of the backend channel is a record; what happens to
      it (requests sent, chunks received, timers run) is a list of events. *)

From Stdlib Require Import String Ascii Bool Arith NArith ZArith Lia.
From Stdlib Require Import DecimalString List.
Import ListNotations.
Open Scope string_scope.
Open Scope list_scope.
Set Warnings "-register-all".

(* ===================================================================== *)
(** * Part I. Definitions                                                 *)
(* ===================================================================== *)

(** ** JavaScript strings *)

Definition jsstring := list N.

Definition str (s : string) : jsstring :=
  map N_of_ascii (list_ascii_of_string s).

Definition jsstring_eqb (a b : jsstring) : bool :=
  if list_eq_dec N.eq_dec a b then true else false.

(** [String.prototype.startsWith]: [startsWith p s] is [s.startsWith(p)]. *)
Fixpoint startsWith (p s : jsstring) : bool :=
  match p, s with
  | [], _ => true
  | _ :: _, [] => false
  | a :: p', b :: s' => N.eqb a b && startsWith p' s'
  end.

(** The class [\s] of a regular expression, which is also what
    [String.prototype.trim] strips: WhiteSpace and LineTerminator. *)
Definition is_space (c : N) : bool :=
  ((9 <=? c) && (c <=? 13) || (c =? 32) || (c =? 160) || (c =? 5760)
   || (8192 <=? c) && (c <=? 8202) || (c =? 8232) || (c =? 8233)
   || (c =? 8239) || (c =? 8287) || (c =? 12288) || (c =? 65279))%N.

Fixpoint trimStart (s : jsstring) : jsstring :=
  match s with
  | [] => []
  | c :: t => if is_space c then trimStart t else s
  end.

Definition trimEnd (s : jsstring) : jsstring := rev (trimStart (rev s)).

Definition trim (s : jsstring) : jsstring := trimEnd (trimStart s).

(** [s.split(sep)] for a one-character separator: the pieces between the
    occurrences of [sep]; never the empty list. *)
Fixpoint split_on (sep : N) (s : jsstring) : list jsstring :=
  match s with
  | [] => [[]]
  | c :: t =>
      if N.eqb c sep then [] :: split_on sep t
      else match split_on sep t with
           | [] => [[c]]
           | piece :: rest => (c :: piece) :: rest
           end
  end.

(** ** JSON values, exceptions and the runtime *)

Inductive json : Type :=
| JNull
| JBool (b : bool)
| JNum (n : Z)
| JStr (s : jsstring)
| JArr (items : list json)
| JObj (fields : list (jsstring * json)).

(** A thrown value: a [TypeError] raised by the language itself, the
    [SyntaxError] of [JSON.parse], or [new Error(m)], kept with the argument
    [m] it was built from. *)
Inductive js_error : Type :=
| TypeError
| SyntaxError
| Err (message : json).

Inductive result (A : Type) : Type :=
| Ok (a : A)
| Throw (e : js_error).
Arguments Ok {A} a.
Arguments Throw {A} e.

Definition bind {A B : Type} (r : result A) (k : A -> result B) : result B :=
  match r with
  | Ok a => k a
  | Throw e => Throw e
  end.

Notation "x <- r ;; k" := (bind r (fun x => k))
  (at level 61, r at next level, right associativity).

(** The built-ins of the platform that the program calls and that are not
    part of it. [JSON_parse] is [None] where [JSON.parse] throws. *)
Class Runtime : Type := {
  JSON_parse : jsstring -> option json;
  JSON_stringify : json -> jsstring
}.

(** ToBoolean on a value that may be [undefined] ([None]). *)
Definition truthy (v : option json) : bool :=
  match v with
  | None | Some JNull => false
  | Some (JBool b) => b
  | Some (JNum n) => negb (Z.eqb n 0)
  | Some (JStr s) => match s with [] => false | _ => true end
  | Some (JArr _) | Some (JObj _) => true
  end.

Fixpoint assoc {A : Type} (k : jsstring) (l : list (jsstring * A)) : option A :=
  match l with
  | [] => None
  | (k', v) :: rest => if jsstring_eqb k k' then Some v else assoc k rest
  end.

(** [v.k] on a value that is not [null], for the fixed keys the program
    reads (none of them is a member of a primitive or of an array). *)
Definition field (k : string) (v : json) : option json :=
  match v with
  | JObj fs => assoc (str k) fs
  | _ => None
  end.

(** [v.k]: a [TypeError] on [null]. *)
Definition member (k : string) (v : json) : result (option json) :=
  match v with
  | JNull => Throw TypeError
  | _ => Ok (field k v)
  end.

(** [v?.k] on a value that may be [undefined]. *)
Definition opt_member (k : string) (v : option json) : option json :=
  match v with
  | None | Some JNull => None
  | Some j => field k j
  end.

(** [v === n] for a number [n]. *)
Definition strict_eq_num (v : option json) (n : Z) : bool :=
  match v with
  | Some (JNum m) => Z.eqb m n
  | _ => false
  end.

(** ** Conversions of the language *)

Definition decimal (n : Z) : jsstring :=
  str (NilZero.string_of_int (Z.to_int n)).

(** ToString on a JSON value; [js_to_string] extends it to [undefined]. *)
Fixpoint json_to_string (j : json) : jsstring :=
  match j with
  | JNull => str "null"
  | JBool true => str "true"
  | JBool false => str "false"
  | JNum n => decimal n
  | JStr s => s
  | JArr items =>
      (fix join (l : list json) : jsstring :=
         match l with
         | [] => []
         | x :: rest =>
             (match x with JNull => [] | _ => json_to_string x end)
             ++ match rest with [] => [] | _ => 44%N :: join rest end
         end) items
  | JObj _ => str "[object Object]"
  end.

Definition js_to_string (v : option json) : jsstring :=
  match v with
  | None => str "undefined"
  | Some j => json_to_string j
  end.

(** [a || b] on values. *)
Definition js_or (a b : option json) : option json :=
  if truthy a then a else b.

(** Setting an own property: in place when the key exists, else last. *)
Fixpoint set_field (k : jsstring) (v : json) (fs : list (jsstring * json))
  : list (jsstring * json) :=
  match fs with
  | [] => [(k, v)]
  | (k', v') :: rest =>
      if jsstring_eqb k k' then (k, v) :: rest
      else (k', v') :: set_field k v rest
  end.

Definition delete_field (k : jsstring) (fs : list (jsstring * json))
  : list (jsstring * json) :=
  filter (fun e => negb (jsstring_eqb k (fst e))) fs.

Definition indexed (items : list json) : list (jsstring * json) :=
  combine (map (fun i => decimal (Z.of_nat i)) (seq 0 (length items))) items.

(** [Object.entries(v)]; a [TypeError] on [null] and [undefined]. *)
Definition object_entries (v : option json) : result (list (jsstring * json)) :=
  match v with
  | None | Some JNull => Throw TypeError
  | Some (JObj fs) => Ok fs
  | Some (JArr items) => Ok (indexed items)
  | Some (JStr s) => Ok (indexed (map (fun c => JStr [c]) s))
  | Some (JBool _) | Some (JNum _) => Ok []
  end.

(** The own enumerable properties that [{...v}] copies. *)
Definition spread (v : option json) : list (jsstring * json) :=
  match object_entries v with
  | Ok fs => fs
  | Throw _ => []
  end.

(** The members every object inherits from [Object.prototype]; all of them
    are truthy. *)
Definition object_prototype_members : list jsstring :=
  map str ["constructor"; "hasOwnProperty"; "isPrototypeOf";
           "propertyIsEnumerable"; "toLocaleString"; "toString"; "valueOf";
           "__defineGetter__"; "__defineSetter__"; "__lookupGetter__";
           "__lookupSetter__"; "__proto__"].

(** The outcome of [obj[key]]. *)
Inductive looked_up : Type :=
| Own (v : json)
| Inherited
| Missing.

Definition lookup_truthy (l : looked_up) : bool :=
  match l with
  | Own v => truthy (Some v)
  | Inherited => true
  | Missing => false
  end.

(** [obj[key]] for an arbitrary key. The own members of a primitive or of
    an array (indices, [length]) are not modelled: such a value is looked up
    like an object without own members. *)
Definition get_property (obj : option json) (key : jsstring) : result looked_up :=
  match obj with
  | None | Some JNull => Throw TypeError
  | Some j =>
      match (match j with JObj fs => assoc key fs | _ => None end) with
      | Some v => Ok (Own v)
      | None =>
          if existsb (jsstring_eqb key) object_prototype_members
          then Ok Inherited else Ok Missing
      end
  end.

(** ** compressDescription (plugin-server.js, lines 219-234) *)

(** Canonicalisation of a code unit under the [i] flag without the [u]
    flag: upper-casing, which maps no code unit above 127 onto an ASCII
    letter, so only ASCII letters are folded. *)
Definition canonicalize (c : N) : N :=
  if ((97 <=? c) && (c <=? 122))%N then (c - 32)%N else c.

(** Does the literal [pat] match, ignoring case, at the start of [s]? *)
Fixpoint match_ci (pat s : jsstring) : bool :=
  match pat, s with
  | [], _ => true
  | _ :: _, [] => false
  | p :: pat', c :: s' =>
      N.eqb (canonicalize p) (canonicalize c) && match_ci pat' s'
  end.

(** An alternation of literals tried in order at one position: the length
    of the first alternative that matches. *)
Fixpoint first_alt (alts : list jsstring) (s : jsstring) : option nat :=
  match alts with
  | [] => None
  | a :: rest => if match_ci a s then Some (length a) else first_alt rest s
  end.

(** [s.replace(/(a1|a2|...)/gi, rep)] for literal alternatives: matches are
    found from the left and do not overlap. [skip] counts the code units of
    the current match that are still to be consumed. *)
Fixpoint replace_go (alts : list jsstring) (rep : jsstring) (skip : nat)
  (s : jsstring) : jsstring :=
  match s with
  | [] => []
  | c :: t =>
      match skip with
      | S k => replace_go alts rep k t
      | O =>
          match first_alt alts s with
          | Some (S k) => rep ++ replace_go alts rep k t
          | _ => c :: replace_go alts rep 0 t
          end
      end
  end.

Definition replace_all_ci (alts : list jsstring) (rep s : jsstring) : jsstring :=
  replace_go alts rep 0 s.

(** [s.replace(/\s+/g, ' ')]; [in_run] tells that the previous code unit
    was white space, already replaced. *)
Fixpoint collapse_go (in_run : bool) (s : jsstring) : jsstring :=
  match s with
  | [] => []
  | c :: t =>
      if is_space c
      then (if in_run then collapse_go true t else 32%N :: collapse_go true t)
      else c :: collapse_go false t
  end.

Definition collapse_spaces (s : jsstring) : jsstring := collapse_go false s.

(** The class [[.!?]]. *)
Definition is_sentence_end (c : N) : bool :=
  ((c =? 46) || (c =? 33) || (c =? 63))%N.

(** [s.split(/[.!?]/)[0]]. *)
Fixpoint first_sentence (s : jsstring) : jsstring :=
  match s with
  | [] => []
  | c :: t => if is_sentence_end c then [] else c :: first_sentence t
  end.

Definition compress_replacements (desc : jsstring) : jsstring :=
  let s1 := replace_all_ci
              (map (app (str "This tool "))
                 [str "allows you to"; str "enables you to";
                  str "lets you"; str "helps you"]) [] desc in
  let s2 := replace_all_ci
              (map (app (str "Use this tool ")) [str "when"; str "to"]) [] s1 in
  let s3 := replace_all_ci [str "GitHub repository"] (str "repo") s2 in
  let s4 := replace_all_ci [str "pull request"] (str "PR") s3 in
  let s5 := replace_all_ci [str "repositories"] (str "repos") s4 in
  replace_all_ci [str "commit SHA"] (str "commit") s5.

Definition compressDescription (desc : jsstring) : jsstring :=
  match desc with
  | [] => []
  | _ =>
      let compressed := trim (collapse_spaces (compress_replacements desc)) in
      let firstSentence := first_sentence compressed in
      if Nat.ltb 100 (length firstSentence)
      then firstn 100 firstSentence
      else firstSentence
  end.

(** ** Buffer.prototype.toString: UTF-8 decoding of one chunk *)

(** The decoder of the Encoding standard: the continuation bytes still
    expected, the code point under construction and the bounds of the next
    byte. An ill-formed or truncated sequence decodes to U+FFFD. *)
Record utf8_state : Type := {
  u_needed : nat;
  u_cp : N;
  u_lower : N;
  u_upper : N
}.

Definition utf8_idle : utf8_state :=
  {| u_needed := 0; u_cp := 0; u_lower := 128; u_upper := 191 |}.

(** The UTF-16 code units of a code point. *)
Definition code_units (cp : N) : jsstring :=
  if (cp <? 65536)%N then [cp]
  else [(55296 + N.shiftr (cp - 65536) 10)%N;
        (56320 + N.land (cp - 65536) 1023)%N].

Definition replacement : N := 65533%N.

(** A byte met while no sequence is open. *)
Definition utf8_lead (b : N) : jsstring * utf8_state :=
  if (b <=? 127)%N then ([b], utf8_idle)
  else if ((194 <=? b) && (b <=? 223))%N then
    ([], {| u_needed := 1; u_cp := N.land b 31; u_lower := 128; u_upper := 191 |})
  else if ((224 <=? b) && (b <=? 239))%N then
    ([], {| u_needed := 2; u_cp := N.land b 15;
            u_lower := if (b =? 224)%N then 160%N else 128%N;
            u_upper := if (b =? 237)%N then 159%N else 191%N |})
  else if ((240 <=? b) && (b <=? 244))%N then
    ([], {| u_needed := 3; u_cp := N.land b 7;
            u_lower := if (b =? 240)%N then 144%N else 128%N;
            u_upper := if (b =? 244)%N then 143%N else 191%N |})
  else ([replacement], utf8_idle).

Definition utf8_step (st : utf8_state) (b : N) : jsstring * utf8_state :=
  match u_needed st with
  | O => utf8_lead b
  | S k =>
      if ((u_lower st <=? b) && (b <=? u_upper st))%N then
        let cp := N.lor (N.shiftl (u_cp st) 6) (N.land b 63) in
        match k with
        | O => (code_units cp, utf8_idle)
        | S _ => ([], {| u_needed := k; u_cp := cp;
                         u_lower := 128; u_upper := 191 |})
        end
      else
        let (out, st') := utf8_lead b in (replacement :: out, st')
  end.

Fixpoint utf8_decode (st : utf8_state) (bytes : list N) : jsstring :=
  match bytes with
  | [] => match u_needed st with O => [] | S _ => [replacement] end
  | b :: rest => let (out, st') := utf8_step st b in out ++ utf8_decode st' rest
  end.

(** [data.toString()] on a Buffer: each chunk is decoded on its own. *)
Definition Buffer_toString (data : list N) : jsstring :=
  utf8_decode utf8_idle data.

(** ** The backend channel and its handler registry
    (plugin-server.js, lines 26-214) *)

(** The three closures that are registered as handlers: the one of
    [startGitHubMcp], the one of [queryGitHubTools] and the one of
    [callGitHubTool], which captures its [callId]. *)
Inductive handler_kind : Type :=
| HInit
| HTools
| HCall (callId : Z).

(** What a closure does to the promise it belongs to. *)
Inductive completion : Type :=
| Resolved (value : option json)
| Rejected (e : js_error).

(** Lines written to the standard input of the child process. *)
Inductive outgoing : Type :=
| OutInitialize
| OutInitialized
| OutToolsList
| OutToolsCall (callId : Z) (toolName : jsstring) (args : option json).

(** A pending [setTimeout] callback; it captures the handler id. *)
Record timer : Type := {
  tm_handler : N;
  tm_kind : handler_kind;
  tm_delay : N
}.

(** The module state. [responded] holds the handler ids whose captured flag
    ([initComplete], [responseReceived]) is set; [settled] records every call
    of [resolve] or [reject], the latest first, under the handler id of the
    promise. *)
Record backend : Type := {
  mcpBuffer : jsstring;
  mcpHandlers : list (N * handler_kind);
  nextHandlerId : N;
  responded : list N;
  timers : list timer;
  settled : list (N * completion);
  written : list outgoing
}.

Definition backend_init : backend :=
  {| mcpBuffer := []; mcpHandlers := []; nextHandlerId := 0; responded := [];
     timers := []; settled := []; written := [] |}.

Definition mem_N (x : N) (l : list N) : bool := existsb (N.eqb x) l.

(** [mcpHandlers.delete(id)]. *)
Definition map_delete {A : Type} (id : N) (m : list (N * A)) : list (N * A) :=
  filter (fun e => negb (N.eqb (fst e) id)) m.

Definition map_has {A : Type} (id : N) (m : list (N * A)) : bool :=
  existsb (fun e => N.eqb (fst e) id) m.

(** registerMcpHandler *)
Definition registerMcpHandler (h : handler_kind) (st : backend) : N * backend :=
  let id := nextHandlerId st in
  (id, {| mcpBuffer := mcpBuffer st;
          mcpHandlers := mcpHandlers st ++ [(id, h)];
          nextHandlerId := N.succ id;
          responded := responded st;
          timers := timers st;
          settled := settled st;
          written := written st |}).

(** unregisterMcpHandler *)
Definition unregisterMcpHandler (id : N) (st : backend) : backend :=
  {| mcpBuffer := mcpBuffer st;
     mcpHandlers := map_delete id (mcpHandlers st);
     nextHandlerId := nextHandlerId st;
     responded := responded st;
     timers := timers st;
     settled := settled st;
     written := written st |}.

(** What one call of a handler closure does, seen from the dispatch loop:
    [NotMine] is [return false]; [Mine c w] sets the captured flag, settles
    the promise with [c], writes [w] and does [return true]. *)
Inductive handled : Type :=
| NotMine
| Mine (c : completion) (w : list outgoing).

Definition tool_failed : json := JStr (str "Tool execution failed").

Definition run_handler (h : handler_kind) (message : json) : result handled :=
  match h with
  | HInit =>
      id <- member "id" message ;;
      if strict_eq_num id 1
         && truthy (opt_member "capabilities" (field "result" message))
      then Ok (Mine (Resolved None) [OutInitialized])
      else Ok NotMine
  | HTools =>
      id <- member "id" message ;;
      if strict_eq_num id 2
         && truthy (opt_member "tools" (field "result" message))
      then Ok (Mine (Resolved (opt_member "tools" (field "result" message))) [])
      else Ok NotMine
  | HCall callId =>
      id <- member "id" message ;;
      if strict_eq_num id callId then
        if truthy (field "error" message) then
          let m := opt_member "message" (field "error" message) in
          Ok (Mine (Rejected (Err (if truthy m
                                   then match m with Some j => j | None => tool_failed end
                                   else tool_failed))) [])
        else Ok (Mine (Resolved (field "result" message)) [])
      else Ok NotMine
  end.

(** One turn of [for (const [id, handler] of mcpHandlers)]: an entry that
    was deleted before its turn is not visited; an exception of the handler
    is caught and logged. *)
Definition visit_handler (message : json) (st : backend)
  (entry : N * handler_kind) : backend :=
  let (id, h) := entry in
  if map_has id (mcpHandlers st) then
    match run_handler h message with
    | Ok (Mine c w) =>
        {| mcpBuffer := mcpBuffer st;
           mcpHandlers := map_delete id (mcpHandlers st);
           nextHandlerId := nextHandlerId st;
           responded := id :: responded st;
           timers := timers st;
           settled := (id, c) :: settled st;
           written := written st ++ w |}
    | Ok NotMine => st
    | Throw _ => st
    end
  else st.

Definition dispatch (st : backend) (message : json) : backend :=
  fold_left (visit_handler message) (mcpHandlers st) st.

(** The body of [for (const line of lines)]. *)
Definition handle_line `{Runtime} (st : backend) (line : jsstring) : backend :=
  match trim line with
  | [] => st
  | _ => match JSON_parse line with
         | Some message => dispatch st message
         | None => st
         end
  end.

Definition set_buffer (b : jsstring) (st : backend) : backend :=
  {| mcpBuffer := b;
     mcpHandlers := mcpHandlers st;
     nextHandlerId := nextHandlerId st;
     responded := responded st;
     timers := timers st;
     settled := settled st;
     written := written st |}.

(** handleGitHubMcpOutput: [data] is the Buffer of one ['data'] event. *)
Definition handleGitHubMcpOutput `{Runtime} (data : list N) (st : backend)
  : backend :=
  let lines := split_on 10 (mcpBuffer st ++ Buffer_toString data) in
  fold_left handle_line (removelast lines) (set_buffer (last lines []) st).

Definition add_timer (t : timer) (w : list outgoing) (st : backend) : backend :=
  {| mcpBuffer := mcpBuffer st;
     mcpHandlers := mcpHandlers st;
     nextHandlerId := nextHandlerId st;
     responded := responded st;
     timers := timers st ++ [t];
     settled := settled st;
     written := written st ++ w |}.

(** The synchronous part of [startGitHubMcp], [queryGitHubTools] and
    [callGitHubTool]: register the handler, write the request, arm the
    timer. [now] is the value of [Date.now()]. The rejection of
    [startGitHubMcp] by the ['error'] event of the child process is left out:
    it touches neither the registry nor the timers. *)
Definition startGitHubMcp (st : backend) : backend :=
  let (id, st1) := registerMcpHandler HInit st in
  add_timer {| tm_handler := id; tm_kind := HInit; tm_delay := 10000 |}
            [OutInitialize] st1.

Definition queryGitHubTools (st : backend) : backend :=
  let (id, st1) := registerMcpHandler HTools st in
  add_timer {| tm_handler := id; tm_kind := HTools; tm_delay := 5000 |}
            [OutToolsList] st1.

Definition callGitHubTool (now : Z) (toolName : jsstring) (args : option json)
  (st : backend) : backend :=
  let (id, st1) := registerMcpHandler (HCall now) st in
  add_timer {| tm_handler := id; tm_kind := HCall now; tm_delay := 30000 |}
            [OutToolsCall now toolName args] st1.

Definition timeout_error (h : handler_kind) : js_error :=
  match h with
  | HInit => Err (JStr (str "GitHub MCP initialization timeout"))
  | HTools => Err (JStr (str "GitHub tools query timeout"))
  | HCall _ => Err (JStr (str "Tool execution timeout"))
  end.

Definition timer_pending (id : N) (st : backend) : bool :=
  existsb (fun t => N.eqb (tm_handler t) id) (timers st).

(** The callback given to [setTimeout]. *)
Definition timeout_callback (t : timer) (st : backend) : backend :=
  if mem_N (tm_handler t) (responded st) then st
  else
    let st1 := unregisterMcpHandler (tm_handler t) st in
    {| mcpBuffer := mcpBuffer st1;
       mcpHandlers := mcpHandlers st1;
       nextHandlerId := nextHandlerId st1;
       responded := responded st1;
       timers := timers st1;
       settled := (tm_handler t, Rejected (timeout_error (tm_kind t))) :: settled st1;
       written := written st1 |}.

(** The event loop runs a pending timer once and drops it. *)
Definition fire_timer (id : N) (st : backend) : backend :=
  match find (fun t => N.eqb (tm_handler t) id) (timers st) with
  | None => st
  | Some t =>
      timeout_callback t
        {| mcpBuffer := mcpBuffer st;
           mcpHandlers := mcpHandlers st;
           nextHandlerId := nextHandlerId st;
           responded := responded st;
           timers := filter (fun t' => negb (N.eqb (tm_handler t') id)) (timers st);
           settled := settled st;
           written := written st |}
  end.

(** What can happen to the module, one event at a time. *)
Inductive event : Type :=
| EvStart
| EvQuery
| EvCall (now : Z) (toolName : jsstring) (args : option json)
| EvData (chunk : list N)
| EvTimer (id : N).

Definition step `{Runtime} (st : backend) (e : event) : backend :=
  match e with
  | EvStart => startGitHubMcp st
  | EvQuery => queryGitHubTools st
  | EvCall now toolName args => callGitHubTool now toolName args st
  | EvData chunk => handleGitHubMcpOutput chunk st
  | EvTimer id => fire_timer id st
  end.

Definition run `{Runtime} (evs : list event) : backend :=
  fold_left step evs backend_init.

(** How many times the promise of handler [id] was settled. *)
Definition settle_count (id : N) (st : backend) : nat :=
  length (filter (fun e => N.eqb (fst e) id) (settled st)).

(** ** The framed channel, seen as a function on text *)

(** The records that the loop over [lines] hands to the handlers. *)
Definition decoded_records `{Runtime} (lines : list jsstring) : list json :=
  flat_map (fun line =>
              match trim line with
              | [] => []
              | _ => match JSON_parse line with
                     | Some message => [message]
                     | None => []
                     end
              end) lines.

(** One push of already decoded text: the records emitted and the buffer
    kept. *)
Definition push_text `{Runtime} (buffer text : jsstring) : list json * jsstring :=
  let lines := split_on 10 (buffer ++ text) in
  (decoded_records (removelast lines), last lines []).

Fixpoint push_texts `{Runtime} (buffer : jsstring) (texts : list jsstring)
  : list json * jsstring :=
  match texts with
  | [] => ([], buffer)
  | t :: rest =>
      let (out, buffer') := push_text buffer t in
      let (outs, final) := push_texts buffer' rest in
      (out ++ outs, final)
  end.

(** A sequence of byte chunks: [handleGitHubMcpOutput] decodes each one
    with [data.toString()] before it is appended. *)
Definition push_chunks `{Runtime} (buffer : jsstring) (chunks : list (list N))
  : list json * jsstring :=
  push_texts buffer (map Buffer_toString chunks).

(** The reference of the specification: all the bytes pushed, concatenated
    and decoded, split on the separator; the complete records decoded in
    order, the trailing fragment kept. *)
Definition framed_reference `{Runtime} (chunks : list (list N))
  : list json * jsstring :=
  let lines := split_on 10 (Buffer_toString (concat chunks)) in
  (decoded_records (removelast lines), last lines []).

(** ** Paths and the file system *)

Definition path := list jsstring.

Definition path_eqb (p q : path) : bool :=
  if list_eq_dec (list_eq_dec N.eq_dec) p q then true else false.

Fixpoint is_prefix (p q : path) : bool :=
  match p, q with
  | [], _ => true
  | _ :: _, [] => false
  | a :: p', b :: q' => jsstring_eqb a b && is_prefix p' q'
  end.

(** One segment of a relative path applied to an absolute one. *)
Definition path_segment (acc : path) (seg : jsstring) : path :=
  if jsstring_eqb seg [] || jsstring_eqb seg (str ".") then acc
  else if jsstring_eqb seg (str "..") then removelast acc
  else acc ++ [seg].

(** [path.join(base, rel)] for an absolute, normalised [base]. *)
Definition path_join (base : path) (rel : jsstring) : path :=
  fold_left path_segment (split_on 47 rel) base.

Inductive node : Type :=
| File (content : jsstring)
| Dir.

(** The disk: the entries that exist, by absolute path. *)
Definition fsys := list (path * node).

Fixpoint fs_lookup (fs : fsys) (p : path) : option node :=
  match fs with
  | [] => None
  | (q, n) :: rest => if path_eqb q p then Some n else fs_lookup rest p
  end.

Definition existsSync (fs : fsys) (p : path) : bool :=
  match fs_lookup fs p with
  | Some _ => true
  | None => false
  end.

(** [fs.rmSync(p, { recursive: true, force: true })]. *)
Definition rmSync (p : path) (fs : fsys) : fsys :=
  filter (fun e => negb (is_prefix p (fst e))) fs.

Definition dir_empty (d : path) (fs : fsys) : bool :=
  forallb (fun e => negb (is_prefix d (fst e)) || path_eqb (fst e) d) fs.

Definition sys_error (code : string) : js_error := Err (JStr (str code)).

Definition move_tree (src dst : path) (fs : fsys) : fsys :=
  map (fun e => if is_prefix src (fst e)
                then (dst ++ skipn (length src) (fst e), snd e)
                else e)
      (rmSync dst fs).

(** [fs.renameSync(src, dst)], with the failures of rename(2). *)
Definition renameSync (src dst : path) (fs : fsys) : result fsys :=
  match fs_lookup fs src with
  | None => Throw (sys_error "ENOENT")
  | Some sn =>
      if path_eqb src dst then Ok fs
      else match fs_lookup fs (removelast dst) with
           | Some Dir =>
               if is_prefix src dst then Throw (sys_error "EINVAL")
               else match fs_lookup fs dst, sn with
                    | None, _ => Ok (move_tree src dst fs)
                    | Some Dir, Dir =>
                        if dir_empty dst fs then Ok (move_tree src dst fs)
                        else Throw (sys_error "ENOTEMPTY")
                    | Some Dir, File _ => Throw (sys_error "EISDIR")
                    | Some (File _), Dir => Throw (sys_error "ENOTDIR")
                    | Some (File _), File _ => Ok (move_tree src dst fs)
                    end
           | Some (File _) => Throw (sys_error "ENOTDIR")
           | None => Throw (sys_error "ENOENT")
           end
  end.

(** [fs.readFileSync(p, 'utf8')]. *)
Definition readFileSync (fs : fsys) (p : path) : result jsstring :=
  match fs_lookup fs p with
  | Some (File c) => Ok c
  | Some Dir => Throw (sys_error "EISDIR")
  | None => Throw (sys_error "ENOENT")
  end.

(** [fs.writeFileSync(p, data)]. *)
Definition writeFileSync (p : path) (data : jsstring) (fs : fsys) : result fsys :=
  match fs_lookup fs p with
  | Some Dir => Throw (sys_error "EISDIR")
  | _ =>
      match fs_lookup fs (removelast p) with
      | Some Dir => Ok ((p, File data) :: filter (fun e => negb (path_eqb (fst e) p)) fs)
      | Some (File _) => Throw (sys_error "ENOTDIR")
      | None => Throw (sys_error "ENOENT")
      end
  end.

(** ** The install specification (plugin-manager.js, lines 66-73) *)

Definition is_line_terminator (c : N) : bool :=
  ((c =? 10) || (c =? 13) || (c =? 8232) || (c =? 8233))%N.

(** The longest prefix without ['/'] and what follows it. *)
Fixpoint until_slash (s : jsstring) : jsstring * jsstring :=
  match s with
  | [] => ([], [])
  | c :: t =>
      if (c =? 47)%N then ([], s)
      else let (a, b) := until_slash t in (c :: a, b)
  end.

(** [spec.match(/^@([^/]+)\/([^/]+)(?:\/(.+))?$/)]: owner, repo and the
    optional subpath; [None] where the result is [null]. What [until_slash]
    leaves, when it is not empty, starts with ['/']. *)
Definition match_spec (spec : jsstring)
  : option (jsstring * jsstring * option jsstring) :=
  match spec with
  | [] => None
  | c :: r =>
      if negb (c =? 64)%N then None
      else
        let (owner, r1) := until_slash r in
        match owner, r1 with
        | [], _ | _, [] => None
        | _, _ :: r2 =>
            let (repo, r3) := until_slash r2 in
            match repo, r3 with
            | [], _ => None
            | _, [] => Some (owner, repo, None)
            | _, _ :: [] => None
            | _, _ :: subpath =>
                if forallb (fun x => negb (is_line_terminator x)) subpath
                then Some (owner, repo, Some subpath) else None
            end
        end
  end.

(** [subpath.replace(/\//g, '-')]. *)
Definition slashes_to_hyphens (s : jsstring) : jsstring :=
  map (fun c => if (c =? 47)%N then 45%N else c) s.

Definition plugin_name_of (owner repo : jsstring) (subpath : option jsstring)
  : jsstring :=
  match subpath with
  | Some sp => owner ++ str "-" ++ repo ++ str "-" ++ slashes_to_hyphens sp
  | None => owner ++ str "-" ++ repo
  end.


(** ** The plugin manager (class PluginManager) *)

(** What [require(indexPath)] evaluates to. [mod_getTools] and
    [mod_executeTool] are [None] when the member is not a function;
    [mod_getTools] holds what a call of [getTools()] does, [mod_manifest] is
    the member [manifest] of the module. *)
Record plugin_module : Type := {
  mod_getTools : option (result (list json));
  mod_executeTool : option (jsstring -> option json -> result json);
  mod_manifest : option json
}.

Inductive module_value : Type :=
| ModNullish
| ModObject (m : plugin_module).

(** An entry of [this.loadedPlugins]: [{ module, manifest }]. *)
Record loaded_plugin : Type := {
  lp_module : module_value;
  lp_manifest : option json
}.

Record manager : Type := {
  pluginDir : path;
  disk : fsys;
  loadedPlugins : list (jsstring * loaded_plugin)
}.

(** What the manager takes from outside: the clock, [git clone] (the tree
    fetched, by paths relative to its root, or a failure), [npm install] (the
    files it adds below the working directory, or a failure) and [require]. *)
Record environment : Type := {
  env_now : Z;
  env_iso_time : jsstring;
  env_git_clone : jsstring -> jsstring -> option fsys;
  env_npm_install : fsys -> path -> option fsys;
  env_require : fsys -> path -> result module_value
}.

(** Computations of the manager: they may throw, and keep the effects done
    before the exception. *)
Definition M (A : Type) : Type := manager -> result A * manager.

Definition ret {A : Type} (a : A) : M A := fun m => (Ok a, m).

Definition throw {A : Type} (e : js_error) : M A := fun m => (Throw e, m).

Definition bindM {A B : Type} (c : M A) (k : A -> M B) : M B :=
  fun m => match c m with
           | (Ok a, m') => k a m'
           | (Throw e, m') => (Throw e, m')
           end.

Definition try_catch {A : Type} (body : M A) (handler : js_error -> M A) : M A :=
  fun m => match body m with
           | (Ok a, m') => (Ok a, m')
           | (Throw e, m') => handler e m'
           end.

Definition lift {A : Type} (r : result A) : M A := fun m => (r, m).

Notation "x <~ c ;; k" := (bindM c (fun x => k))
  (at level 61, c at next level, right associativity).
Notation "c ;;; k" := (bindM c (fun _ => k))
  (at level 61, right associativity).

Definition get_disk : M fsys := fun m => (Ok (disk m), m).

Definition set_disk (fs : fsys) : M unit :=
  fun m => (Ok tt, {| pluginDir := pluginDir m; disk := fs;
                      loadedPlugins := loadedPlugins m |}).

Definition set_loaded (l : list (jsstring * loaded_plugin)) : M unit :=
  fun m => (Ok tt, {| pluginDir := pluginDir m; disk := disk m;
                      loadedPlugins := l |}).

Definition metadataFile (m : manager) : path :=
  path_join (pluginDir m) (str "plugins.json").

Definition empty_metadata : json := JObj [(str "plugins", JObj [])].

(** loadMetadata *)
Definition loadMetadata `{Runtime} (m : manager) : json :=
  match readFileSync (disk m) (metadataFile m) with
  | Ok data =>
      match JSON_parse data with
      | Some metadata => metadata
      | None => empty_metadata
      end
  | Throw _ => empty_metadata
  end.

(** saveMetadata *)
Definition saveMetadata `{Runtime} (metadata : json) : M unit :=
  fun m =>
    match writeFileSync (metadataFile m) (JSON_stringify metadata) (disk m) with
    | Ok fs => set_disk fs m
    | Throw e => (Throw e, m)
    end.

(** The constructor: both the directory and the document are created when
    absent ([mkdirSync] with [recursive]). *)
Fixpoint mkdir_p (prefix : path) (rest : path) (fs : fsys) : fsys :=
  let fs' := if existsSync fs prefix then fs else (prefix, Dir) :: fs in
  match rest with
  | [] => fs'
  | seg :: rest' => mkdir_p (prefix ++ [seg]) rest' fs'
  end.

Definition new_PluginManager `{Runtime} (dir : path) (fs : fsys) : result manager :=
  let fs1 := if existsSync fs dir then fs else mkdir_p [] dir fs in
  let m := {| pluginDir := dir; disk := fs1; loadedPlugins := [] |} in
  if existsSync fs1 (metadataFile m) then Ok m
  else match saveMetadata empty_metadata m with
       | (Ok _, m') => Ok m'
       | (Throw e, _) => Throw e
       end.

(** [{ name, ...info }]: the properties of [base], then those of [extra],
    a repeated key keeping its place. *)
Definition merge_fields (base extra : list (jsstring * json))
  : list (jsstring * json) :=
  fold_left (fun acc e => set_field (fst e) (snd e) acc) extra base.

(** listPlugins *)
Definition listPlugins `{Runtime} : M (list json) :=
  fun m =>
    (plugins <- member "plugins" (loadMetadata m) ;;
     entries <- object_entries plugins ;;
     Ok (map (fun e => JObj (merge_fields [(str "name", JStr (fst e))]
                                          (spread (Some (snd e)))))
             entries),
     m).

(** [metadata.plugins = f(metadata.plugins)] for a change of own members;
    it is visible only when [plugins] is an object. *)
Definition update_plugins (f : list (jsstring * json) -> list (jsstring * json))
  (metadata : json) : json :=
  match metadata with
  | JObj mfs =>
      match assoc (str "plugins") mfs with
      | Some (JObj pfs) => JObj (set_field (str "plugins") (JObj (f pfs)) mfs)
      | _ => metadata
      end
  | _ => metadata
  end.

(** [metadata.plugins[name]] *)
Definition lookup_record (metadata : json) (key : jsstring) : result looked_up :=
  plugins <- member "plugins" metadata ;;
  get_property plugins key.

Definition not_found (name : option json) : js_error :=
  Err (JStr (str "Plugin " ++ js_to_string name ++ str " not found")).

(** [path.join(this.pluginDir, name)]: the argument must be a string. *)
Definition join_name (dir : path) (name : option json) : result path :=
  match name with
  | Some (JStr s) => Ok (path_join dir s)
  | _ => Throw TypeError
  end.

Definition when (b : bool) (c : M unit) : M unit :=
  if b then c else ret tt.

Definition rm_if_exists (p : path) : M unit :=
  fs <~ get_disk ;; when (existsSync fs p) (set_disk (rmSync p fs)).

Definition name_field (name : option json) : list (jsstring * json) :=
  match name with
  | Some j => [(str "name", j)]
  | None => []
  end.

(** uninstallPlugin *)
Definition uninstallPlugin `{Runtime} (name : option json) : M json :=
  fun m =>
    let metadata := loadMetadata m in
    (found <~ lift (lookup_record metadata (js_to_string name)) ;;
     if negb (lookup_truthy found) then throw (not_found name)
     else
       pluginPath <~ lift (join_name (pluginDir m) name) ;;
       rm_if_exists pluginPath ;;;
       saveMetadata (update_plugins (delete_field (js_to_string name)) metadata) ;;;
       ret (JObj ((str "success", JBool true) :: name_field name))) m.

(** [metadata.plugins[name].enabled = flag] in strict mode. *)
Definition set_enabled (flag : bool) (key : jsstring) (found : looked_up)
  (metadata : json) : result json :=
  match found with
  | Own (JObj record) =>
      Ok (update_plugins
            (set_field key (JObj (set_field (str "enabled") (JBool flag) record)))
            metadata)
  | Own (JArr _) | Inherited => Ok metadata
  | Own _ | Missing => Throw TypeError
  end.

Definition toggle `{Runtime} (flag : bool) (name : option json) : M json :=
  fun m =>
    let metadata := loadMetadata m in
    (found <~ lift (lookup_record metadata (js_to_string name)) ;;
     if negb (lookup_truthy found) then throw (not_found name)
     else
       metadata' <~ lift (set_enabled flag (js_to_string name) found metadata) ;;
       saveMetadata metadata' ;;;
       ret (JObj ((str "success", JBool true) :: name_field name
                  ++ [(str "enabled", JBool flag)]))) m.

(** enablePlugin *)
Definition enablePlugin `{Runtime} (name : option json) : M json :=
  toggle true name.

(** disablePlugin *)
Definition disablePlugin `{Runtime} (name : option json) : M json :=
  toggle false name.

(** getPluginInfo *)
Definition getPluginInfo `{Runtime} (name : option json) : M json :=
  fun m =>
    (found <~ lift (lookup_record (loadMetadata m) (js_to_string name)) ;;
     match found with
     | Own info =>
         if truthy (Some info)
         then ret (JObj (merge_fields (name_field name) (spread (Some info))))
         else throw (not_found name)
     | Inherited => ret (JObj (name_field name))
     | Missing => throw (not_found name)
     end) m.

(** [execSync('git clone --depth 1 <url> "<tempDir>"', { cwd: pluginDir })]:
    it fails when the target exists and is not an empty directory, when the
    working directory is missing, or when the fetch itself fails. *)
Definition git_clone (env : environment) (owner repo : jsstring) (tempDir : path)
  : M unit :=
  fun m =>
    let fs := disk m in
    let target_free :=
      match fs_lookup fs tempDir with
      | None => true
      | Some Dir => dir_empty tempDir fs
      | Some (File _) => false
      end in
    match fs_lookup fs (pluginDir m), target_free, env_git_clone env owner repo with
    | Some Dir, true, Some tree =>
        set_disk ((tempDir, Dir)
                  :: map (fun e => (tempDir ++ fst e, snd e)) tree ++ fs) m
    | _, _, _ => (Throw (sys_error "Command failed: git clone"), m)
    end.

(** [execSync('npm install --production', { cwd: pluginPath })]. *)
Definition npm_install (env : environment) (pluginPath : path) : M unit :=
  fun m =>
    match env_npm_install env (disk m) pluginPath with
    | Some added =>
        set_disk (map (fun e => (pluginPath ++ fst e, snd e)) added ++ disk m) m
    | None => (Throw (sys_error "Command failed: npm install"), m)
    end.

Definition rename (src dst : path) : M unit :=
  fun m => match renameSync src dst (disk m) with
           | Ok fs => set_disk fs m
           | Throw e => (Throw e, m)
           end.

Definition parse_json `{Runtime} (text : jsstring) : result json :=
  match JSON_parse text with
  | Some j => Ok j
  | None => Throw SyntaxError
  end.

Definition default_version : option json := Some (JStr (str "1.0.0")).

(** [metadata.plugins[pluginName] = record] in strict mode: a property can
    be created on an object or an array (where [JSON.stringify] does not
    write it), not on a primitive. *)
Definition assign_record (pluginName : jsstring) (record metadata : json)
  : result json :=
  match field "plugins" metadata with
  | Some (JObj _) => Ok (update_plugins (set_field pluginName record) metadata)
  | Some (JArr _) => Ok metadata
  | _ => Throw TypeError
  end.

Definition opt_field (k : string) (v : option json) : list (jsstring * json) :=
  match v with
  | Some j => [(str k, j)]
  | None => []
  end.

(** [path.join(this.pluginDir, pluginName)] *)
Definition plugin_path (m : manager) (pluginName : jsstring) : path :=
  path_join (pluginDir m) pluginName.

(** [path.join(this.pluginDir, `_temp_${Date.now()}`)] *)
Definition temp_dir (env : environment) (m : manager) : path :=
  path_join (pluginDir m) (str "_temp_" ++ decimal (env_now env)).

(** The steps of installPlugin inside its [try] block. *)
Definition install_steps `{Runtime} (env : environment) (spec : jsstring)
  (owner repo : jsstring) (subpath : option jsstring) (pluginName : jsstring)
  (pluginPath tempDir : path) (metadata : json) : M json :=
  git_clone env owner repo tempDir ;;;
  let sourceDir := match subpath with
                   | Some sp => path_join tempDir sp
                   | None => tempDir
                   end in
  fs <~ get_disk ;;
  if negb (existsSync fs sourceDir)
  then throw (Err (JStr (str "Subpath " ++ js_to_string (option_map JStr subpath)
                         ++ str " not found in repository")))
  else
    rename sourceDir pluginPath ;;;
    rm_if_exists tempDir ;;;
    let manifestPath := path_join pluginPath (str "plugin.json") in
    fs1 <~ get_disk ;;
    if negb (existsSync fs1 manifestPath)
    then throw (Err (JStr (str "Plugin manifest (plugin.json) not found")))
    else
      data <~ lift (readFileSync fs1 manifestPath) ;;
      manifest <~ lift (parse_json data) ;;
      when (existsSync fs1 (path_join pluginPath (str "package.json")))
           (npm_install env pluginPath) ;;;
      version <~ lift (member "version" manifest) ;;
      let record :=
        JObj ([(str "spec", JStr spec)]
              ++ opt_field "version" (js_or version default_version)
              ++ [(str "enabled", JBool true);
                  (str "installedAt", JStr (env_iso_time env));
                  (str "manifest", manifest)]) in
      metadata' <~ lift (assign_record pluginName record metadata) ;;
      saveMetadata metadata' ;;;
      ret (JObj ([(str "success", JBool true); (str "name", JStr pluginName)]
                 ++ opt_field "version" (js_or version default_version)
                 ++ opt_field "description"
                      (js_or (field "description" manifest)
                             (Some (JStr (str "No description")))))).

(** installPlugin; [spec] is the argument as received. *)
Definition installPlugin `{Runtime} (env : environment) (spec : option json)
  : M json :=
  fun m =>
    match spec with
    | Some (JStr s) =>
        match match_spec s with
        | None =>
            (Throw (Err (JStr (str "Invalid plugin spec: " ++ s
                               ++ str ". Use @owner/repo or @owner/repo/subpath"))),
             m)
        | Some (owner, repo, subpath) =>
            let pluginName := plugin_name_of owner repo subpath in
            let pluginPath := plugin_path m pluginName in
            let metadata := loadMetadata m in
            match lookup_record metadata pluginName with
            | Throw e => (Throw e, m)
            | Ok found =>
                if lookup_truthy found
                then (Throw (Err (JStr (str "Plugin " ++ pluginName
                                        ++ str " already installed"))), m)
                else
                  let tempDir := temp_dir env m in
                  try_catch
                    (install_steps env s owner repo subpath pluginName
                                   pluginPath tempDir metadata)
                    (fun error =>
                       rm_if_exists pluginPath ;;;
                       rm_if_exists tempDir ;;;
                       throw error)
                    m
            end
        end
    | _ => (Throw TypeError, m)
    end.

(** [this.loadedPlugins.set(name, entry)]: a known key keeps its place. *)
Fixpoint map_set {A : Type} (k : jsstring) (v : A) (l : list (jsstring * A))
  : list (jsstring * A) :=
  match l with
  | [] => [(k, v)]
  | (k', v') :: rest =>
      if jsstring_eqb k k' then (k, v) :: rest
      else (k', v') :: map_set k v rest
  end.

(** [info.enabled] for the filter of loadPlugins. *)
Fixpoint enabled_entries (entries : list (jsstring * json))
  : result (list (jsstring * json)) :=
  match entries with
  | [] => Ok []
  | (name, info) :: rest =>
      enabled <- member "enabled" info ;;
      tail <- enabled_entries rest ;;
      Ok (if truthy enabled then (name, info) :: tail else tail)
  end.

(** [index.js] of the plugin called [name]:
    [path.join(path.join(this.pluginDir, name), 'index.js')]. *)
Definition index_path (m : manager) (name : jsstring) : path :=
  path_join (path_join (pluginDir m) name) (str "index.js").

(** The body of the loop of loadPlugins for one enabled record. *)
Definition load_one (env : environment) (m : manager)
  (entry : jsstring * json) : manager :=
  let (name, info) := entry in
  let indexPath := index_path m name in
  if negb (existsSync (disk m) indexPath) then m
  else match env_require env (disk m) indexPath with
       | Ok plugin =>
           {| pluginDir := pluginDir m; disk := disk m;
              loadedPlugins :=
                map_set name {| lp_module := plugin;
                                lp_manifest := field "manifest" info |}
                        (loadedPlugins m) |}
       | Throw _ => m
       end.

(** The enabled records, as loadPlugins filters them out of the document:
    [Object.entries(metadata.plugins).filter(([, info]) => info.enabled)]. *)
Definition enabledPlugins `{Runtime} (m : manager)
  : result (list (jsstring * json)) :=
  plugins <- member "plugins" (loadMetadata m) ;;
  entries <- object_entries plugins ;;
  enabled_entries entries.

(** loadPlugins *)
Definition loadPlugins `{Runtime} (env : environment) : M nat :=
  fun m =>
    match enabledPlugins m with
    | Throw e => (Throw e, m)
    | Ok enabled =>
        let m' := fold_left (load_one env) enabled m in
        (Ok (length (loadedPlugins m')), m')
    end.

(** One pushed descriptor:
    [{ ...tool, name: `${manifest.namespace || name}_${tool.name}`,
       pluginName: name }]. *)
Definition qualify (manifest : option json) (name : jsstring) (tool : json)
  : result json :=
  match manifest with
  | None | Some JNull => Throw TypeError
  | Some mf =>
      toolName <- member "name" tool ;;
      let ns := js_or (field "namespace" mf) (Some (JStr name)) in
      Ok (JObj (set_field (str "pluginName") (JStr name)
                  (set_field (str "name")
                     (JStr (js_to_string ns ++ str "_" ++ js_to_string toolName))
                     (spread (Some tool)))))
  end.

(** The inner loop of getPluginTools: an exception leaves the loop and
    keeps what was pushed. *)
Fixpoint push_tools (manifest : option json) (name : jsstring)
  (pluginTools : list json) (tools : list json) : list json :=
  match pluginTools with
  | [] => tools
  | tool :: rest =>
      match qualify manifest name tool with
      | Ok t => push_tools manifest name rest (tools ++ [t])
      | Throw _ => tools
      end
  end.

Fixpoint collect_tools (loaded : list (jsstring * loaded_plugin))
  (tools : list json) : result (list json) :=
  match loaded with
  | [] => Ok tools
  | (name, lp) :: rest =>
      match lp_module lp with
      | ModNullish => Throw TypeError
      | ModObject md =>
          match mod_getTools md with
          | Some (Ok pluginTools) =>
              collect_tools rest (push_tools (lp_manifest lp) name pluginTools tools)
          | Some (Throw _) | None => collect_tools rest tools
          end
      end
  end.

(** getPluginTools *)
Definition getPluginTools (m : manager) : result (list json) :=
  collect_tools (loadedPlugins m) [].

Fixpoint find_owner (loaded : list (jsstring * loaded_plugin))
  (toolName : jsstring) (args : option json) : result json :=
  match loaded with
  | [] => Throw (Err (JStr (str "No plugin found to handle tool: " ++ toolName)))
  | (name, lp) :: rest =>
      match lp_module lp with
      | ModNullish => Throw TypeError
      | ModObject md =>
          if startsWith name toolName
             || startsWith (js_to_string (opt_member "namespace" (mod_manifest md)))
                           toolName
          then match mod_executeTool md with
               | Some executeTool => executeTool toolName args
               | None => find_owner rest toolName args
               end
          else find_owner rest toolName args
      end
  end.

(** executePluginTool *)
Definition executePluginTool (toolName : jsstring) (args : option json)
  (m : manager) : result json :=
  find_owner (loadedPlugins m) toolName args.

(** ** The server (plugin-server.js, lines 216-568) *)

Section Server.

(** simplifySchema rewrites the input schema of a backend tool; the
    properties below hold whatever it computes, so it is left open here. *)
Variable simplifySchema : option json -> result (option json).

(** [compressDescription(tool.description)] on a value: a falsy value gives
    the empty string, a string is compressed, anything else has no
    [replace] method. *)
Definition compress_value (desc : option json) : result jsstring :=
  if negb (truthy desc) then Ok []
  else match desc with
       | Some (JStr s) => Ok (compressDescription s)
       | _ => Throw TypeError
       end.

Definition optimize_tool (tool : json) : result json :=
  name <- member "name" tool ;;
  description <- compress_value (field "description" tool) ;;
  inputSchema <- simplifySchema (field "inputSchema" tool) ;;
  Ok (JObj (opt_field "name" name
            ++ [(str "description", JStr description)]
            ++ opt_field "inputSchema" inputSchema)).

Fixpoint map_result {A B : Type} (f : A -> result B) (l : list A)
  : result (list B) :=
  match l with
  | [] => Ok []
  | a :: rest =>
      b <- f a ;;
      bs <- map_result f rest ;;
      Ok (b :: bs)
  end.

(** optimizeTools: [tools.map(...)] needs an array. *)
Definition optimizeTools (tools : option json) : result (list json) :=
  match tools with
  | Some (JArr items) => map_result optimize_tool items
  | _ => Throw TypeError
  end.

Definition name_schema : json :=
  JObj [(str "type", JStr (str "object"));
        (str "properties",
         JObj [(str "name",
                JObj [(str "type", JStr (str "string"));
                      (str "description", JStr (str "Plugin name"))])]);
        (str "required", JArr [JStr (str "name")])].

Definition management_tool (name description : string) (schema : json) : json :=
  JObj [(str "name", JStr (str name));
        (str "description", JStr (str description));
        (str "inputSchema", schema)].

(** getPluginManagementTools *)
Definition getPluginManagementTools : list json :=
  [ management_tool "plugin_list" "List installed Copilot CLI plugins"
      (JObj [(str "type", JStr (str "object")); (str "properties", JObj [])]);
    management_tool "plugin_install" "Install plugin from GitHub (@owner/repo)"
      (JObj [(str "type", JStr (str "object"));
             (str "properties",
              JObj [(str "spec",
                     JObj [(str "type", JStr (str "string"));
                           (str "description",
                            JStr (str "Plugin spec: @owner/repo or @owner/repo/subpath"))])]);
             (str "required", JArr [JStr (str "spec")])]);
    management_tool "plugin_uninstall" "Uninstall a plugin" name_schema;
    management_tool "plugin_enable" "Enable a disabled plugin" name_schema;
    management_tool "plugin_disable" "Disable an enabled plugin" name_schema;
    management_tool "plugin_info" "Get detailed info about a plugin" name_schema ].

(** The module state of the server. *)
Record server : Type := {
  githubTools : option json;
  pluginManager : manager
}.

Definition text_content (text : jsstring) : json :=
  JObj [(str "content",
         JArr [JObj [(str "type", JStr (str "text")); (str "text", JStr text)]])].

(** [pluginManager.loadedPlugins.delete(args.name)]: only a string is a key
    of the map. *)
Definition map_delete_key (key : option json)
  (l : list (jsstring * loaded_plugin)) : list (jsstring * loaded_plugin) :=
  match key with
  | Some (JStr k) => filter (fun e => negb (jsstring_eqb k (fst e))) l
  | _ => l
  end.

Definition unload (key : option json) : M unit :=
  fun m => set_loaded (map_delete_key key (loadedPlugins m)) m.

(** [args.k]: a [TypeError] when [args] is [undefined] or [null]. *)
Definition arg (k : string) (args : option json) : result (option json) :=
  match args with
  | None => Throw TypeError
  | Some a => member k a
  end.

(** The check mark that opens the messages of the management tools. *)
Definition check_mark : jsstring := [9989%N; 32%N].

(** handlePluginTool *)
Definition handlePluginTool `{Runtime} (env : environment) (toolName : jsstring)
  (args : option json) : M json :=
  if jsstring_eqb toolName (str "plugin_list") then
    plugins <~ listPlugins ;;
    ret (text_content (JSON_stringify (JArr plugins)))
  else if jsstring_eqb toolName (str "plugin_install") then
    spec <~ lift (arg "spec" args) ;;
    installResult <~ installPlugin env spec ;;
    loadPlugins env ;;;
    ret (text_content
           (check_mark ++ str "Installed plugin: "
            ++ js_to_string (field "name" installResult)
            ++ [10%N] ++ str "Version: "
            ++ js_to_string (field "version" installResult)
            ++ [10%N] ++ js_to_string (field "description" installResult)))
  else if jsstring_eqb toolName (str "plugin_uninstall") then
    name <~ lift (arg "name" args) ;;
    uninstallPlugin name ;;;
    unload name ;;;
    ret (text_content (check_mark ++ str "Uninstalled plugin: " ++ js_to_string name))
  else if jsstring_eqb toolName (str "plugin_enable") then
    name <~ lift (arg "name" args) ;;
    enablePlugin name ;;;
    loadPlugins env ;;;
    ret (text_content (check_mark ++ str "Enabled plugin: " ++ js_to_string name))
  else if jsstring_eqb toolName (str "plugin_disable") then
    name <~ lift (arg "name" args) ;;
    disablePlugin name ;;;
    unload name ;;;
    ret (text_content (check_mark ++ str "Disabled plugin: " ++ js_to_string name))
  else if jsstring_eqb toolName (str "plugin_info") then
    name <~ lift (arg "name" args) ;;
    info <~ getPluginInfo name ;;
    ret (text_content (JSON_stringify info))
  else
    throw (Err (JStr (str "Unknown plugin tool: " ++ toolName))).

(** The text of an error reply: the [message] of the error caught, or the
    text built for an unknown method. *)
Inductive error_text : Type :=
| MessageOf (e : js_error)
| MethodNotFound (method : option json).

(** A JSON-RPC reply [{ jsonrpc: '2.0', id, result }] or
    [{ jsonrpc: '2.0', id, error: { code, message } }]. *)
Inductive response : Type :=
| Success (id : option json) (payload : option json)
| Failure (id : option json) (code : Z) (message : error_text).

(** Which of the three sources served a [tools/call]. *)
Inductive route : Type :=
| ToManagement
| ToPlugin
| ToBackend.

Definition initialize_result : json :=
  JObj [(str "protocolVersion", JStr (str "2024-11-05"));
        (str "capabilities", JObj [(str "tools", JObj [])]);
        (str "serverInfo",
         JObj [(str "name", JStr (str "copilot-plugin-server"));
               (str "version", JStr (str "1.0.0"))])].

Definition has_name (toolName : jsstring) (t : json) : bool :=
  match field "name" t with
  | Some (JStr n) => jsstring_eqb n toolName
  | _ => false
  end.

(** What [await callGitHubTool(toolName, args)] yields, given how the
    promise is settled. *)
Definition await (c : completion) : result (option json) :=
  match c with
  | Resolved v => Ok v
  | Rejected e => Throw e
  end.

Definition with_manager (s : server) (m : manager) : server :=
  {| githubTools := githubTools s; pluginManager := m |}.

(** The [tools/call] case; the route taken is returned with the result.
    [backend] tells how the promise of [callGitHubTool] is settled. *)
Definition tools_call `{Runtime} (env : environment)
  (backend : jsstring -> option json -> completion)
  (params : option json) (s : server)
  : result (route * option json) * server :=
  match params with
  | None | Some JNull => (Throw TypeError, s)
  | Some p =>
      match field "name" p with
      | Some (JStr toolName) =>
          let args := field "arguments" p in
          if startsWith (str "plugin_") toolName then
            match handlePluginTool env toolName args (pluginManager s) with
            | (Ok r, m') => (Ok (ToManagement, Some r), with_manager s m')
            | (Throw e, m') => (Throw e, with_manager s m')
            end
          else
            match getPluginTools (pluginManager s) with
            | Throw e => (Throw e, s)
            | Ok pluginTools =>
                if existsb (has_name toolName) pluginTools then
                  match executePluginTool toolName args (pluginManager s) with
                  | Ok r => (Ok (ToPlugin, Some r), s)
                  | Throw e => (Throw e, s)
                  end
                else
                  match await (backend toolName args) with
                  | Ok r => (Ok (ToBackend, r), s)
                  | Throw e => (Throw e, s)
                  end
            end
      | _ => (Throw TypeError, s)
      end
  end.

(** The [tools/list] case. *)
Definition tools_list (s : server) : result json :=
  backendTools <- optimizeTools (githubTools s) ;;
  pluginTools <- getPluginTools (pluginManager s) ;;
  Ok (JObj [(str "tools",
             JArr (backendTools ++ getPluginManagementTools ++ pluginTools))]).

Definition is_method (name : string) (method : option json) : bool :=
  match method with
  | Some (JStr s) => jsstring_eqb s (str name)
  | _ => false
  end.

(** handleRequest: [Throw] is a rejection of the promise it returns, which
    only the destructuring of the request, outside the [try], can cause. *)
Definition handleRequest `{Runtime} (env : environment)
  (backend : jsstring -> option json -> completion)
  (request : json) (s : server) : result response * server :=
  match request with
  | JNull => (Throw TypeError, s)
  | _ =>
      let id := field "id" request in
      let method := field "method" request in
      let params := field "params" request in
      if is_method "initialize" method then
        (Ok (Success id (Some initialize_result)), s)
      else if is_method "tools/list" method then
        match tools_list s with
        | Ok r => (Ok (Success id (Some r)), s)
        | Throw error => (Ok (Failure id (-32603) (MessageOf error)), s)
        end
      else if is_method "tools/call" method then
        match tools_call env backend params s with
        | (Ok (_, r), s') => (Ok (Success id r), s')
        | (Throw error, s') => (Ok (Failure id (-32603) (MessageOf error)), s')
        end
      else (Ok (Failure id (-32601) (MethodNotFound method)), s)
  end.

(** The body of the loop over the lines read from standard input: the
    reply written to standard output, if any. *)
Definition process_line `{Runtime} (env : environment)
  (backend : jsstring -> option json -> completion)
  (line : jsstring) (s : server) : option response * server :=
  match trim line with
  | [] => (None, s)
  | _ =>
      match JSON_parse line with
      | None => (None, s)
      | Some request =>
          match handleRequest env backend request s with
          | (Ok response, s') => (Some response, s')
          | (Throw _, s') => (None, s')
          end
      end
  end.

End Server.

(** ** Character boundaries (used by the proofs on the framed channel) *)

(** The decoder run over the bytes without the final flush: what it gave out
    and the state it is left in. *)
Fixpoint utf8_run (st : utf8_state) (bytes : list N) : jsstring * utf8_state :=
  match bytes with
  | [] => ([], st)
  | b :: rest =>
      let (out, st') := utf8_step st b in
      let (outs, st'') := utf8_run st' rest in
      (out ++ outs, st'')
  end.

(** A chunk that ends where a character ends. *)
Definition ends_on_boundary (chunk : list N) : Prop :=
  snd (utf8_run utf8_idle chunk) = utf8_idle.

(** ** The phases of a registered call (used by the invariant) *)

(** What the registry knows about handler id [h]: is it registered, is its
    timer pending, is its flag set, how often was its promise settled. *)
Definition observe (h : N) (st : backend) : bool * bool * bool * nat :=
  (map_has h (mcpHandlers st), timer_pending h st,
   mem_N h (responded st), settle_count h st).

Inductive phase : bool * bool * bool * nat -> Prop :=
| phase_pending : phase (true, true, false, 0)
| phase_answered : phase (false, true, true, 1)
| phase_expired (flag : bool) : phase (false, false, flag, 1).

Definition registry_inv (st : backend) : Prop :=
  forall h : N,
    if (h <? nextHandlerId st)%N then phase (observe h st)
    else observe h st = (false, false, false, 0).

(** [resolve] and [reject] calls are only ever added to the record. *)
Definition extends (st st' : backend) : Prop :=
  exists extra, settled st' = extra ++ settled st.

(** ** Frames of manager computations (used by the proofs on installPlugin) *)




(** ** A small runtime for the examples *)

Definition quoted (s : jsstring) : jsstring := 34%N :: s ++ [34%N].

(** The reply [{"id":1000,"result":{}}]. *)
Definition sample_reply_text : jsstring :=
  str "{" ++ quoted (str "id") ++ str ":1000," ++ quoted (str "result")
      ++ str ":{}}".

Definition sample_reply : json :=
  JObj [(str "id", JNum 1000); (str "result", JObj [])].

(** A registry document with one record:
    [{"plugins":{"acme-tools":{"enabled":true}}}]. *)
Definition sample_store_text : jsstring :=
  str "{" ++ quoted (str "plugins") ++ str ":{" ++ quoted (str "acme-tools")
      ++ str ":{" ++ quoted (str "enabled") ++ str ":true}}}".

Definition sample_store : json :=
  JObj [(str "plugins",
         JObj [(str "acme-tools", JObj [(str "enabled", JBool true)])])].

(** The same document after the record was disabled. *)
Definition disabled_store_text : jsstring :=
  str "{" ++ quoted (str "plugins") ++ str ":{" ++ quoted (str "acme-tools")
      ++ str ":{" ++ quoted (str "enabled") ++ str ":false}}}".

Definition disabled_store : json :=
  JObj [(str "plugins",
         JObj [(str "acme-tools", JObj [(str "enabled", JBool false)])])].

(** [JSON.parse] restricted to the literal [null], to string literals
    without escapes and to the three sample texts; every other text is
    refused. *)
Definition sample_parse (s : jsstring) : option json :=
  if jsstring_eqb s (str "null") then Some JNull
  else if jsstring_eqb s sample_reply_text then Some sample_reply
  else if jsstring_eqb s sample_store_text then Some sample_store
  else if jsstring_eqb s disabled_store_text then Some disabled_store
  else match s with
       | 34%N :: rest =>
           match rev rest with
           | 34%N :: body =>
               if forallb (fun c => (32 <=? c)%N && negb (c =? 34)%N
                                    && negb (c =? 92)%N) body
               then Some (JStr (rev body)) else None
           | _ => None
           end
       | _ => None
       end.

(** [JSON.stringify] on the two sample documents. *)
Definition sample_stringify (j : json) : jsstring :=
  match j with
  | JObj [(_, JObj [(_, JObj [(_, JBool true)])])] => sample_store_text
  | JObj [(_, JObj [(_, JObj [(_, JBool false)])])] => disabled_store_text
  | _ => []
  end.

Definition sample_runtime : Runtime :=
  {| JSON_parse := sample_parse; JSON_stringify := sample_stringify |}.

(** The four bytes of a JSON string holding U+00E9 and the separator, cut
    inside the two-byte character. *)
Definition split_character : list (list N) :=
  [[34; 195]; [169; 34; 10]]%N.

(** ** Sample data for the examples *)

Definition management_names : list jsstring :=
  map str ["plugin_list"; "plugin_install"; "plugin_uninstall";
           "plugin_enable"; "plugin_disable"; "plugin_info"].

Definition tool_names (tools : list json) : list (option json) :=
  map (field "name") tools.

Definition no_simplify (schema : option json) : result (option json) := Ok schema.

Definition plugins_home : path := [str "home"; str ".copilot"; str "plugins"].

(** The minimal plugin of the README: [plugin.json] declares the namespace
    [myplugin]; [index.js] exports [getTools] and [executeTool] only. *)
Definition readme_manifest : json :=
  JObj [(str "name", JStr (str "my-plugin"));
        (str "version", JStr (str "1.0.0"));
        (str "namespace", JStr (str "myplugin"))].

Definition readme_module : plugin_module :=
  {| mod_getTools :=
       Some (Ok [JObj [(str "name", JStr (str "my_tool"));
                       (str "description", JStr (str "Does something cool"))]]);
     mod_executeTool :=
       Some (fun _ _ => Ok (text_content (str "Processed")));
     mod_manifest := None |}.

Definition readme_plugin : jsstring * loaded_plugin :=
  (str "acme-tools",
   {| lp_module := ModObject readme_module; lp_manifest := Some readme_manifest |}).

Definition no_clone (owner repo : jsstring) : option fsys := None.

Definition sample_env : environment :=
  {| env_now := 1700000000000;
     env_iso_time := str "2023-11-14T22:13:20.000Z";
     env_git_clone := no_clone;
     env_npm_install := fun _ _ => None;
     env_require := fun _ _ => Ok (ModObject readme_module) |}.

Definition backend_rejects (toolName : jsstring) (args : option json) : completion :=
  Rejected (Err (JStr (str "unknown tool"))).

Definition backend_resolves (toolName : jsstring) (args : option json) : completion :=
  Resolved (Some (JStr (str "done"))).

(** A disk on which the registry document is missing. *)
Definition bare_disk : fsys :=
  [([], Dir); ([str "home"], Dir); ([str "home"; str ".copilot"], Dir);
   (plugins_home, Dir)].

Definition bare_manager : manager :=
  {| pluginDir := plugins_home; disk := bare_disk; loadedPlugins := [] |}.

Definition sample_server : server :=
  {| githubTools :=
       Some (JArr [JObj [(str "name", JStr (str "get_me"));
                         (str "description", JStr (str "Get my profile. More."))];
                   JObj [(str "name", JStr (str "search_code"));
                         (str "description", JStr (str "Search code"))]]);
     pluginManager :=
       {| pluginDir := plugins_home; disk := bare_disk;
          loadedPlugins := [readme_plugin] |} |}.

Definition plain_server : server :=
  {| githubTools := Some (JArr []); pluginManager := bare_manager |}.

Definition sample_call : list event :=
  [EvCall 1000 (str "get_me") None].

Definition request_of (id : Z) (method : string) (params : list (jsstring * json))
  : json :=
  JObj [(str "jsonrpc", JStr (str "2.0")); (str "id", JNum id);
        (str "method", JStr (str method)); (str "params", JObj params)].

(** A disk with the registry document of [sample_store] and the directory
    of the plugin it records. *)
Definition store_disk : fsys :=
  bare_disk ++
  [(plugins_home ++ [str "plugins.json"], File sample_store_text);
   (plugins_home ++ [str "acme-tools"], Dir);
   (plugins_home ++ [str "acme-tools"; str "plugin.json"], File (str "{}"));
   (plugins_home ++ [str "acme-tools"; str "index.js"], File (str "module.exports = {}"))].

Definition store_manager : manager :=
  {| pluginDir := plugins_home; disk := store_disk; loadedPlugins := [] |}.

(** An environment in which every repository can be fetched and holds a
    README only. *)
Definition clone_env : environment :=
  {| env_now := 1700000000000;
     env_iso_time := str "2023-11-14T22:13:20.000Z";
     env_git_clone := fun _ _ => Some [([str "README.md"], File (str "hello"))];
     env_npm_install := fun _ _ => None;
     env_require := fun _ _ => Ok (ModObject readme_module) |}.

(** Two plugins qualified by their own names, the first name a prefix of
    the second. *)
Definition answering (text : string) : plugin_module :=
  {| mod_getTools := Some (Ok [JObj [(str "name", JStr (str "run"))]]);
     mod_executeTool := Some (fun _ _ => Ok (text_content (str text)));
     mod_manifest := None |}.

Definition prefix_manager : manager :=
  {| pluginDir := plugins_home; disk := bare_disk;
     loadedPlugins :=
       [(str "a-b", {| lp_module := ModObject (answering "first");
                       lp_manifest := Some (JObj []) |});
        (str "a-b-c", {| lp_module := ModObject (answering "second");
                         lp_manifest := Some (JObj []) |})] |}.

Definition readme_manager : manager :=
  {| pluginDir := plugins_home; disk := bare_disk;
     loadedPlugins := [readme_plugin] |}.

(** The owner recorded in a descriptor of getPluginTools. *)
Definition tool_owner (t : json) : option json := field "pluginName" t.

(** The manager of [store_disk] after a load pass found [acme-tools]. *)
Definition loaded_store_manager : manager :=
  {| pluginDir := plugins_home; disk := store_disk;
     loadedPlugins := [readme_plugin] |}.

(** ** simplifySchema (plugin-server.js, lines 239-258)

    The function that the server above takes as a parameter. *)

(** [typeof v === 'object'] *)
Definition is_object (v : option json) : bool :=
  match v with
  | Some JNull | Some (JArr _) | Some (JObj _) => true
  | _ => false
  end.

(** [v.k] on a value that may be [undefined]. *)
Definition member_of (k : string) (v : option json) : result (option json) :=
  match v with
  | None => Throw TypeError
  | Some j => member k j
  end.

(** [...(v && { k: e })] inside an object literal: the properties that [e]
    gives when [v] is truthy, none otherwise (a falsy value has no own
    enumerable property to copy). *)
Definition spread_if (v : option json) (e : result (list (jsstring * json)))
  : result (list (jsstring * json)) :=
  if truthy v then e else Ok [].

Section SimplifyStep.

(** The recursive calls of simplifySchema. *)
Variable recur : option json -> result (option json).

(** The object literal assigned to [newProps[key]]. A property whose value
    is [undefined] ([type: value.type] when the member is missing) is left
    out, as [JSON.stringify] leaves it out and as every later read of it
    gives [undefined] again. *)
Definition simplify_property (value : json) : result json :=
  type <- member "type" value ;;
  enum <- spread_if (field "enum" value)
            (Ok (opt_field "enum" (field "enum" value))) ;;
  items <- spread_if (field "items" value)
             (r <- recur (field "items" value) ;;
              Ok (opt_field "items" r)) ;;
  properties <- spread_if (field "properties" value)
                  (r <- recur (field "properties" value) ;;
                   p <- member_of "properties" r ;;
                   Ok (opt_field "properties" p)) ;;
  Ok (JObj (opt_field "type" type ++ enum ++ items ++ properties)).

(** The body of simplifySchema. *)
Definition simplify_step (schema : option json) : result (option json) :=
  if negb (truthy schema) || negb (is_object schema) then Ok schema
  else
    let simplified := spread schema in
    let properties := assoc (str "properties") simplified in
    if truthy properties then
      entries <- object_entries properties ;;
      newProps <-
        map_result (fun entry : jsstring * json =>
                      p <- simplify_property (snd entry) ;; Ok (fst entry, p))
                   entries ;;
      Ok (Some (JObj (set_field (str "properties")
                        (JObj (merge_fields [] newProps)) simplified)))
    else Ok (Some (JObj simplified)).

End SimplifyStep.

(** The nesting depth of a value: every recursive call of simplifySchema is
    on a value nested inside its argument. *)
Fixpoint depth (j : json) : nat :=
  match j with
  | JArr items => S (fold_right (fun x n => Nat.max (depth x) n) 0 items)
  | JObj fields => S (fold_right (fun e n => Nat.max (depth (snd e)) n) 0 fields)
  | _ => 0
  end.

Definition depth_of (v : option json) : nat :=
  match v with
  | Some j => depth j
  | None => 0
  end.

(** simplifySchema with a bound on the depth of the recursion; what it
    gives at bound 0 is never used ([simplify_enough]). *)
Fixpoint simplify (fuel : nat) (schema : option json) : result (option json) :=
  match fuel with
  | O => Ok schema
  | S fuel' => simplify_step (simplify fuel') schema
  end.

(** simplifySchema: the depth of the schema is bound enough
    ([simplifySchema_eq] is the recursive equation of the source). *)
Definition simplifySchema (schema : option json) : result (option json) :=
  simplify (S (depth_of schema)) schema.

(** ** Notions used by the further properties *)

(** The keys of the object built for one property. *)
Definition property_keys : list jsstring :=
  map str ["type"; "enum"; "items"; "properties"].

(** The own members of a value that is an object. *)
Definition members (j : json) : list (jsstring * json) :=
  match j with
  | JObj fs => fs
  | _ => []
  end.

(** The keys of a descriptor built by optimizeTools. *)
Definition optimized_keys : list jsstring :=
  map str ["name"; "description"; "inputSchema"].

(** White space is normalised in [s]: every white-space character is a
    plain space and no two of them are adjacent. *)
Definition single_spaced (s : jsstring) : Prop :=
  Forall (fun c => is_space c = true -> c = 32%N) s /\
  forall (l1 l2 : jsstring) (a b : N),
    s = l1 ++ a :: b :: l2 -> is_space a = true -> is_space b = false.

(** The [id] member of a reply. *)
Definition response_id (r : response) : option json :=
  match r with
  | Success id _ => id
  | Failure id _ _ => id
  end.

(** The text of a specification, from its parts: [@owner/repo] or
    [@owner/repo/subpath]. *)
Definition spec_text (owner repo : jsstring) (subpath : option jsstring)
  : jsstring :=
  64%N :: owner ++ 47%N :: repo
       ++ match subpath with
          | Some sp => 47%N :: sp
          | None => []
          end.

(** The record that installPlugin stores for a plugin, given the manifest
    it read. *)
Definition install_record (env : environment) (spec : jsstring) (manifest : json)
  : json :=
  JObj ([(str "spec", JStr spec)]
        ++ opt_field "version" (js_or (field "version" manifest) default_version)
        ++ [(str "enabled", JBool true);
            (str "installedAt", JStr (env_iso_time env));
            (str "manifest", manifest)]).

Definition already_installed (pluginName : jsstring) : js_error :=
  Err (JStr (str "Plugin " ++ pluginName ++ str " already installed")).


(** The test of executePluginTool on one loaded plugin:
    [toolName.startsWith(name) || toolName.startsWith(module.manifest?.namespace)]. *)
Definition claims_tool (name : jsstring) (md : plugin_module) (toolName : jsstring)
  : bool :=
  startsWith name toolName
  || startsWith (js_to_string (opt_member "namespace" (mod_manifest md))) toolName.

(** A loaded plugin that executePluginTool passes over for [toolName]: its
    module is an object, and it does not claim the name or has no
    [executeTool] function. *)
Definition passed_over (toolName : jsstring) (entry : jsstring * loaded_plugin)
  : Prop :=
  exists md,
    lp_module (snd entry) = ModObject md
    /\ (claims_tool (fst entry) md toolName = false \/ mod_executeTool md = None).

(** ** A runtime in which [JSON.parse] inverts [JSON.stringify]

    For the examples that save a document and load it again: the text of a
    value is a prefix code (a tag, a length where one is needed, the parts),
    headed by the nesting depth of the value, which bounds the recursion of
    the reader. *)

Fixpoint encode (j : json) : jsstring :=
  match j with
  | JNull => [0%N]
  | JBool b => [1%N; if b then 1%N else 0%N]
  | JNum n => [2%N; if (n <? 0)%Z then 1%N else 0%N; Z.abs_N n]
  | JStr s => 3%N :: N.of_nat (length s) :: s
  | JArr items => 4%N :: N.of_nat (length items) :: flat_map encode items
  | JObj fields =>
      5%N :: N.of_nat (length fields)
          :: flat_map (fun e => N.of_nat (length (fst e)) :: fst e ++ encode (snd e))
                      fields
  end.

Section Decode.

Variable decode_value : jsstring -> option (json * jsstring).

Fixpoint decode_items (count : nat) (s : jsstring) : option (list json * jsstring) :=
  match count with
  | O => Some ([], s)
  | S count' =>
      match decode_value s with
      | Some (x, rest) =>
          match decode_items count' rest with
          | Some (xs, rest') => Some (x :: xs, rest')
          | None => None
          end
      | None => None
      end
  end.

Fixpoint decode_fields (count : nat) (s : jsstring)
  : option (list (jsstring * json) * jsstring) :=
  match count, s with
  | O, _ => Some ([], s)
  | S count', n :: rest =>
      match decode_value (skipn (N.to_nat n) rest) with
      | Some (x, rest') =>
          match decode_fields count' rest' with
          | Some (xs, rest'') => Some ((firstn (N.to_nat n) rest, x) :: xs, rest'')
          | None => None
          end
      | None => None
      end
  | S _, [] => None
  end.

End Decode.

Fixpoint decode (fuel : nat) (s : jsstring) : option (json * jsstring) :=
  match fuel, s with
  | S fuel', tag :: rest =>
      if (tag =? 0)%N then Some (JNull, rest)
      else match rest with
           | [] => None
           | a :: rest' =>
               if (tag =? 1)%N then Some (JBool (negb (a =? 0)%N), rest')
               else if (tag =? 2)%N then
                 match rest' with
                 | [] => None
                 | b :: rest'' =>
                     Some (JNum (if (a =? 0)%N then Z.of_N b else (- Z.of_N b)%Z),
                           rest'')
                 end
               else if (tag =? 3)%N then
                 Some (JStr (firstn (N.to_nat a) rest'), skipn (N.to_nat a) rest')
               else if (tag =? 4)%N then
                 match decode_items (decode fuel') (N.to_nat a) rest' with
                 | Some (items, r) => Some (JArr items, r)
                 | None => None
                 end
               else if (tag =? 5)%N then
                 match decode_fields (decode fuel') (N.to_nat a) rest' with
                 | Some (fields, r) => Some (JObj fields, r)
                 | None => None
                 end
               else None
           end
  | _, _ => None
  end.

Definition codec_stringify (j : json) : jsstring :=
  N.of_nat (depth j) :: encode j.

Definition codec_parse (s : jsstring) : option json :=
  match s with
  | [] => None
  | d :: text =>
      match decode (S (N.to_nat d)) text with
      | Some (j, []) => Some j
      | _ => None
      end
  end.

Definition codec_runtime : Runtime :=
  {| JSON_parse := codec_parse; JSON_stringify := codec_stringify |}.

(** ** Further sample data *)

(** A schema in which an object-typed property has properties of its
    own. *)
Definition nested_schema : json :=
  JObj [(str "type", JStr (str "object"));
        (str "description", JStr (str "Filter options"));
        (str "properties",
         JObj [(str "filter",
                JObj [(str "type", JStr (str "object"));
                      (str "description", JStr (str "What to keep"));
                      (str "properties",
                       JObj [(str "label",
                              JObj [(str "type", JStr (str "string"))])])]);
               (str "tags",
                JObj [(str "type", JStr (str "array"));
                      (str "description", JStr (str "Tags to match"));
                      (str "items",
                       JObj [(str "type", JStr (str "string"));
                             (str "description", JStr (str "One tag"))])])]);
        (str "required", JArr [JStr (str "filter")])].

(** A schema with a property that is [null]. *)
Definition null_property_schema : json :=
  JObj [(str "type", JStr (str "object"));
        (str "properties", JObj [(str "owner", JNull)])].

(** [name_schema] without the description of its property. *)
Definition simplified_name_schema : json :=
  JObj [(str "type", JStr (str "object"));
        (str "properties",
         JObj [(str "name", JObj [(str "type", JStr (str "string"))])]);
        (str "required", JArr [JStr (str "name")])].

(** A backend tool whose schema has a [null] property, after a well-formed
    one. *)
Definition poisoned_server : server :=
  {| githubTools :=
       Some (JArr [JObj [(str "name", JStr (str "get_me"));
                         (str "description", JStr (str "Get my profile"))];
                   JObj [(str "name", JStr (str "list_repos"));
                         (str "inputSchema", null_property_schema)]]);
     pluginManager := bare_manager |}.

(** Two calls made within the same millisecond: both capture the same
    [callId]. *)
Definition colliding_calls : list event :=
  [EvCall 1000 (str "get_me") None; EvCall 1000 (str "search_code") None].

(** An environment in which every repository can be fetched and holds the
    minimal plugin of the README. *)
Definition plugin_env : environment :=
  {| env_now := 1700000000000;
     env_iso_time := str "2023-11-14T22:13:20.000Z";
     env_git_clone :=
       fun _ _ => Some [([str "plugin.json"], File (codec_stringify readme_manifest));
                        ([str "index.js"], File (str "module.exports = {}"))];
     env_npm_install := fun _ _ => None;
     env_require := fun _ _ => Ok (ModObject readme_module) |}.

(** The disk of [store_disk] in the text of [codec_runtime], for a given
    registry document. *)
Definition codec_store_disk (document : json) : fsys :=
  bare_disk ++
  [(plugins_home ++ [str "plugins.json"], File (codec_stringify document));
   (plugins_home ++ [str "acme-tools"], Dir);
   (plugins_home ++ [str "acme-tools"; str "plugin.json"],
    File (codec_stringify readme_manifest));
   (plugins_home ++ [str "acme-tools"; str "index.js"],
    File (str "module.exports = {}"))].

Definition codec_store_manager : manager :=
  {| pluginDir := plugins_home; disk := codec_store_disk sample_store;
     loadedPlugins := [] |}.

(** The same with the record of [acme-tools] disabled, while the plugin is
    still loaded. *)
Definition codec_disabled_manager : manager :=
  {| pluginDir := plugins_home; disk := codec_store_disk disabled_store;
     loadedPlugins := [readme_plugin] |}.

(** A plugin whose [getTools] throws, before the plugin of the README. *)
Definition throwing_module : plugin_module :=
  {| mod_getTools := Some (Throw (Err (JStr (str "boom"))));
     mod_executeTool := None;
     mod_manifest := None |}.

Definition throwing_plugin : jsstring * loaded_plugin :=
  (str "acme-boom",
   {| lp_module := ModObject throwing_module; lp_manifest := Some (JObj []) |}).

(* ===================================================================== *)
(** * Part II. Properties                                                 *)
(* ===================================================================== *)

(** ** Description compression *)

Example compress_sample :
  compressDescription
    (str "This tool allows you to search a GitHub repository. Slow!")
  = str "search a repo".
Proof. vm_compute. reflexivity. Qed.

Example compress_two_spaces :
  compressDescription (str "pull  request") = str "pull request" /\
  compressDescription (str "pull request") = str "PR".
Proof. split; vm_compute; reflexivity. Qed.

Section CompressLength.

Lemma match_ci_length (pat s : jsstring) :
  match_ci pat s = true -> length pat <= length s.
Proof.
  revert s; induction pat as [|p pat IH]; intros [|c s]; simpl; intros H.
  - lia.
  - lia.
  - discriminate H.
  - apply andb_true_iff in H. destruct H as [_ H].
    apply IH in H. lia.
Qed.

Lemma first_alt_sound (rep : jsstring) (alts : list jsstring) (s : jsstring) (n : nat) :
  Forall (fun a => length rep <= length a) alts ->
  first_alt alts s = Some n ->
  length rep <= n /\ n <= length s.
Proof.
  induction 1 as [|a alts Ha _ IH]; simpl; [discriminate|].
  destruct (match_ci a s) eqn:M.
  - intros E. injection E as <-. split; [exact Ha|].
    now apply match_ci_length.
  - exact IH.
Qed.

Lemma replace_go_length (alts : list jsstring) (rep : jsstring) :
  Forall (fun a => length rep <= length a) alts ->
  forall s skip, length (replace_go alts rep skip s) + Nat.min skip (length s)
                 <= length s.
Proof.
  intros Hall. induction s as [|c t IH]; intros skip; simpl.
  - lia.
  - destruct skip as [|k].
    + destruct (first_alt alts (c :: t)) as [[|k]|] eqn:F.
      * simpl. specialize (IH 0). lia.
      * destruct (first_alt_sound rep alts (c :: t) (S k) Hall F) as [Hr Hs]. simpl in Hs.
        rewrite length_app. specialize (IH k). lia.
      * simpl. specialize (IH 0). lia.
    + specialize (IH k). lia.
Qed.

Lemma replace_all_ci_length (alts : list jsstring) (rep s : jsstring) :
  Forall (fun a => length rep <= length a) alts ->
  length (replace_all_ci alts rep s) <= length s.
Proof.
  intros H. unfold replace_all_ci.
  pose proof (replace_go_length alts rep H s 0). lia.
Qed.

Lemma collapse_go_length (s : jsstring) (b : bool) :
  length (collapse_go b s) <= length s.
Proof.
  revert b; induction s as [|c t IH]; intros b; simpl; [lia|].
  destruct (is_space c); [destruct b|]; simpl;
    match goal with |- context [collapse_go ?x t] => specialize (IH x) end; lia.
Qed.

Lemma trimStart_length (s : jsstring) : length (trimStart s) <= length s.
Proof.
  induction s as [|c t IH]; simpl; [lia|].
  destruct (is_space c); simpl; lia.
Qed.

Lemma trim_length (s : jsstring) : length (trim s) <= length s.
Proof.
  unfold trim, trimEnd. rewrite length_rev.
  etransitivity; [apply trimStart_length|].
  rewrite length_rev. apply trimStart_length.
Qed.

Lemma first_sentence_length (s : jsstring) :
  length (first_sentence s) <= length s.
Proof.
  induction s as [|c t IH]; simpl; [lia|].
  destruct (is_sentence_end c); simpl; lia.
Qed.

Lemma compress_replacements_length (s : jsstring) :
  length (compress_replacements s) <= length s.
Proof.
  unfold compress_replacements.
  repeat (etransitivity;
          [apply replace_all_ci_length;
           repeat constructor; vm_compute; repeat constructor|]).
  apply Nat.le_refl.
Qed.

End CompressLength.

(** C8 (amended): for every description [x], [compressDescription x] is
    never longer than [x]; idempotence is not a property of the function. *)
Theorem compressDescription_length_le (x : jsstring) :
  length (compressDescription x) <= length x.
Proof.
  unfold compressDescription. destruct x as [|c x]; [simpl; lia|].
  set (d := c :: x).
  assert (H : length (first_sentence (trim (collapse_spaces (compress_replacements d))))
              <= length d).
  { etransitivity; [apply first_sentence_length|].
    etransitivity; [apply trim_length|].
    etransitivity; [apply collapse_go_length|].
    apply compress_replacements_length. }
  destruct (Nat.ltb _ _); [|exact H].
  rewrite length_firstn. lia.
Qed.

(** C8 (as stated, refuted): the bound on the length together with
    idempotence fails: a second pass over the compression of
    ["pull  request"] (two spaces) rewrites it again. *)
Lemma compressDescription_not_idempotent :
  ~ (forall x : jsstring,
        length (compressDescription x) <= length x /\
        compressDescription (compressDescription x) = compressDescription x).
Proof.
  intros H. destruct (H (str "pull  request")) as [_ E].
  vm_compute in E. discriminate E.
Qed.

(** ** The handler registry: exactly-once resolution *)

Section Registry.

Context `{Runtime}.

Ltac use_phase H :=
  inversion H;
  repeat match goal with
         | E : true = _ |- _ => try rewrite <- E; clear E
         | E : false = _ |- _ => try rewrite <- E; clear E
         | E : O = _ |- _ => try rewrite <- E; clear E
         | E : S O = _ |- _ => try rewrite <- E; clear E
         end.

Lemma map_has_app {A : Type} (h : N) (m1 m2 : list (N * A)) :
  map_has h (m1 ++ m2) = map_has h m1 || map_has h m2.
Proof. unfold map_has. apply existsb_app. Qed.

Lemma map_has_delete {A : Type} (h id : N) (m : list (N * A)) :
  map_has h (map_delete id m) = map_has h m && negb (N.eqb h id).
Proof.
  unfold map_has, map_delete. induction m as [|[k v] m IH]; simpl; [reflexivity|].
  destruct (N.eqb_spec k id) as [->|Hk]; simpl.
  - rewrite IH. destruct (N.eqb_spec id h) as [->|Hh].
    + rewrite N.eqb_refl. simpl. now rewrite andb_false_r.
    + reflexivity.
  - rewrite IH. destruct (N.eqb_spec k h) as [->|Hh]; simpl; [|reflexivity].
    destruct (N.eqb_spec h id); [contradiction|reflexivity].
Qed.

Lemma registry_inv_init : registry_inv backend_init.
Proof. intros h. destruct h; reflexivity. Qed.

Lemma observe_set_buffer (h : N) (b : jsstring) (st : backend) :
  observe h (set_buffer b st) = observe h st.
Proof. reflexivity. Qed.

(** Registering a handler and arming its timer. *)
Lemma registry_inv_register (k : handler_kind) (d : N) (w : list outgoing)
  (st : backend) :
  registry_inv st ->
  registry_inv
    (add_timer {| tm_handler := nextHandlerId st; tm_kind := k; tm_delay := d |}
               w (snd (registerMcpHandler k st))).
Proof.
  intros I h. specialize (I h). simpl.
  unfold observe, timer_pending, settle_count in *. simpl in *.
  rewrite map_has_app, existsb_app. simpl.
  destruct (N.ltb_spec h (nextHandlerId st)) as [Hlt|Hge].
  - destruct (N.ltb_spec h (N.succ (nextHandlerId st))); [|lia].
    destruct (N.eqb_spec (nextHandlerId st) h); [lia|].
    now rewrite !orb_false_r.
  - injection I as -> -> -> ->. simpl.
    destruct (N.ltb_spec h (N.succ (nextHandlerId st))) as [Hs|Hs].
    + assert (h = nextHandlerId st) as -> by lia.
      rewrite N.eqb_refl. constructor.
    + destruct (N.eqb_spec (nextHandlerId st) h); [lia|reflexivity].
Qed.

(** One turn of the dispatch loop. *)
Lemma registry_inv_visit (message : json) (st : backend) (entry : N * handler_kind) :
  registry_inv st -> registry_inv (visit_handler message st entry).
Proof.
  intros I. destruct entry as [id k]. unfold visit_handler.
  destruct (map_has id (mcpHandlers st)) eqn:Hin; [|exact I].
  destruct (run_handler k message) as [[|c w]|e]; try exact I.
  intros h. pose proof (I h) as Ih. pose proof (I id) as Iid.
  unfold observe, timer_pending, settle_count in *. simpl in *.
  rewrite map_has_delete.
  destruct (N.eqb_spec h id) as [->|Hne].
  - rewrite Hin in *. rewrite N.eqb_refl. simpl.
    destruct (id <? nextHandlerId st)%N; [|discriminate Iid].
    use_phase Iid; constructor.
  - assert (N.eqb id h = false) as -> by (apply N.eqb_neq; congruence).
    simpl. rewrite andb_true_r. exact Ih.
Qed.

Lemma nextHandlerId_visit (message : json) (st : backend) (entry : N * handler_kind) :
  nextHandlerId (visit_handler message st entry) = nextHandlerId st.
Proof.
  destruct entry as [id k]. unfold visit_handler.
  destruct (map_has _ _); [|reflexivity].
  now destruct (run_handler k message) as [[|c w]|e].
Qed.

Lemma registry_inv_dispatch (st : backend) (message : json) :
  registry_inv st -> registry_inv (dispatch st message).
Proof.
  unfold dispatch. generalize (mcpHandlers st) at 1. intros l.
  revert st. induction l as [|e l IH]; intros st I; simpl; [exact I|].
  apply IH. now apply registry_inv_visit.
Qed.

Lemma registry_inv_handle_line (st : backend) (line : jsstring) :
  registry_inv st -> registry_inv (handle_line st line).
Proof.
  intros I. unfold handle_line. destruct (trim line); [exact I|].
  destruct (JSON_parse line); [|exact I]. now apply registry_inv_dispatch.
Qed.

Lemma registry_inv_data (chunk : list N) (st : backend) :
  registry_inv st -> registry_inv (handleGitHubMcpOutput chunk st).
Proof.
  intros I. unfold handleGitHubMcpOutput.
  set (lines := split_on 10 _).
  assert (I' : registry_inv (set_buffer (last lines []) st)) by exact I.
  revert I'. generalize (set_buffer (last lines []) st).
  induction (removelast lines) as [|l ls IH]; intros s Is; simpl; [exact Is|].
  apply IH. now apply registry_inv_handle_line.
Qed.

Lemma existsb_filter_key {A : Type} (key : A -> N) (h id : N) (l : list A) :
  existsb (fun e => N.eqb (key e) h)
          (filter (fun e => negb (N.eqb (key e) id)) l)
  = existsb (fun e => N.eqb (key e) h) l && negb (N.eqb h id).
Proof.
  induction l as [|x l IH]; simpl; [reflexivity|].
  destruct (N.eqb_spec (key x) id) as [E|E]; simpl; rewrite IH.
  - destruct (N.eqb_spec (key x) h) as [E'|E']; simpl; [|reflexivity].
    assert (h = id) as -> by congruence.
    rewrite N.eqb_refl. simpl. now rewrite andb_false_r.
  - destruct (N.eqb_spec (key x) h) as [E'|E']; simpl; [|reflexivity].
    destruct (N.eqb_spec h id); [congruence|reflexivity].
Qed.

(** A timer callback. *)
Lemma registry_inv_fire_timer (id : N) (st : backend) :
  registry_inv st -> registry_inv (fire_timer id st).
Proof.
  intros I. unfold fire_timer.
  destruct (find _ (timers st)) as [t|] eqn:F; [|exact I].
  apply find_some in F. destruct F as [Hin Hid].
  apply N.eqb_eq in Hid.
  assert (Hp : timer_pending id st = true).
  { unfold timer_pending. apply existsb_exists. exists t.
    split; [exact Hin|now apply N.eqb_eq]. }
  intros h. pose proof (I h) as Ih. pose proof (I id) as Iid.
  unfold timeout_callback. simpl. rewrite Hid.
  unfold observe, timer_pending, settle_count in *.
  destruct (mem_N id (responded st)) eqn:R; simpl;
    rewrite existsb_filter_key; try rewrite map_has_delete;
    (destruct (N.eqb_spec h id) as [->|Hne];
     [ rewrite ?N.eqb_refl, ?andb_false_r; simpl;
       rewrite Hp in Iid;
       destruct (id <? nextHandlerId st)%N; [|discriminate Iid];
       use_phase Iid; constructor
     | assert (N.eqb id h = false) as E by (apply N.eqb_neq; congruence);
       rewrite ?E; simpl; rewrite ?andb_true_r; exact Ih ]).
Qed.

Lemma registry_inv_step (st : backend) (e : event) :
  registry_inv st -> registry_inv (step st e).
Proof.
  intros I. destruct e; simpl.
  - apply (registry_inv_register HInit 10000 [OutInitialize] st I).
  - apply (registry_inv_register HTools 5000 [OutToolsList] st I).
  - apply (registry_inv_register (HCall now) 30000 [OutToolsCall now toolName args] st I).
  - now apply registry_inv_data.
  - now apply registry_inv_fire_timer.
Qed.

Lemma registry_inv_fold (evs : list event) (st : backend) :
  registry_inv st -> registry_inv (fold_left step evs st).
Proof.
  revert st. induction evs as [|e evs IH]; intros st I; simpl; [exact I|].
  apply IH. now apply registry_inv_step.
Qed.

Lemma registry_inv_run (evs : list event) : registry_inv (run evs).
Proof. apply registry_inv_fold, registry_inv_init. Qed.

Lemma extends_refl (st : backend) : extends st st.
Proof. now exists []. Qed.

Lemma extends_trans (a b c : backend) : extends a b -> extends b c -> extends a c.
Proof.
  intros [x Hx] [y Hy]. exists (y ++ x). rewrite Hy, Hx. apply app_assoc.
Qed.

Lemma extends_visit (message : json) (st : backend) (entry : N * handler_kind) :
  extends st (visit_handler message st entry).
Proof.
  destruct entry as [id k]. unfold visit_handler.
  destruct (map_has _ _); [|apply extends_refl].
  destruct (run_handler k message) as [[|c w]|e]; try apply extends_refl.
  now exists [(id, c)].
Qed.

Lemma extends_fold {A : Type} (f : backend -> A -> backend) (l : list A) :
  (forall st a, extends st (f st a)) ->
  forall st, extends st (fold_left f l st).
Proof.
  intros Hf. induction l as [|a l IH]; intros st; simpl; [apply extends_refl|].
  eapply extends_trans; [apply Hf|apply IH].
Qed.

Lemma extends_step (st : backend) (e : event) : extends st (step st e).
Proof.
  destruct e; simpl; try (now exists []).
  - unfold handleGitHubMcpOutput.
    apply (extends_trans st (set_buffer (last (split_on 10 (mcpBuffer st ++ Buffer_toString chunk)) []) st));
      [now exists []|].
    apply extends_fold. intros s line. unfold handle_line.
    destruct (trim line); [apply extends_refl|].
    destruct (JSON_parse line); [|apply extends_refl].
    unfold dispatch. apply extends_fold. intros s' a. apply extends_visit.
  - unfold fire_timer. destruct (find _ _) as [t|]; [|apply extends_refl].
    unfold timeout_callback. simpl.
    destruct (mem_N _ _); [now exists []|].
    now exists [(tm_handler t, Rejected (timeout_error (tm_kind t)))].
Qed.

Lemma extends_run (evs evs' : list event) : extends (run evs) (run (evs ++ evs')).
Proof.
  unfold run. rewrite fold_left_app.
  apply extends_fold. apply extends_step.
Qed.

Lemma settle_count_le_1 (st : backend) (h : N) :
  registry_inv st -> settle_count h st <= 1.
Proof.
  intros I. specialize (I h). unfold observe in I.
  destruct (h <? nextHandlerId st)%N.
  - inversion I; lia.
  - injection I as _ _ _ ->. lia.
Qed.

Lemma settled_unique (st : backend) (h : N) (c c' : completion) :
  settle_count h st <= 1 ->
  In (h, c) (settled st) -> In (h, c') (settled st) -> c' = c.
Proof.
  unfold settle_count. intros Hle Hc Hc'.
  assert (F : forall x, In (h, x) (settled st) ->
              In (h, x) (filter (fun e => N.eqb (fst e) h) (settled st))).
  { intros x Hx. apply filter_In. split; [exact Hx|apply N.eqb_refl]. }
  apply F in Hc. apply F in Hc'.
  destruct (filter _ (settled st)) as [|a [|b l]]; simpl in *.
  - contradiction.
  - destruct Hc as [->|[]]. destruct Hc' as [E|[]]. congruence.
  - lia.
Qed.

(** The ids of the registered handlers are distinct. *)
Lemma map_has_In {A : Type} (h : N) (m : list (N * A)) :
  map_has h m = true <-> In h (map fst m).
Proof.
  unfold map_has. rewrite existsb_exists. split.
  - intros [e [I E]]. apply N.eqb_eq in E. subst h. now apply in_map.
  - intros I. apply in_map_iff in I. destruct I as [e [E I]].
    exists e. split; [exact I|now apply N.eqb_eq].
Qed.

Lemma NoDup_map_delete {A : Type} (id : N) (m : list (N * A)) :
  NoDup (map fst m) -> NoDup (map fst (map_delete id m)).
Proof.
  unfold map_delete. induction m as [|[k v] m IH]; simpl; intros ND; [constructor|].
  inversion ND as [|? ? NI ND']; subst.
  destruct (negb (k =? id)%N); simpl; [|now apply IH].
  constructor; [|now apply IH].
  intros I. apply NI. apply in_map_iff in I. destruct I as [e [E I]].
  apply filter_In in I. destruct I as [I _]. subst k. now apply in_map.
Qed.

Lemma handlers_visit (message : json) (st : backend) (entry : N * handler_kind) :
  mcpHandlers (visit_handler message st entry) = mcpHandlers st
  \/ mcpHandlers (visit_handler message st entry)
     = map_delete (fst entry) (mcpHandlers st).
Proof.
  destruct entry as [id k]. unfold visit_handler.
  destruct (map_has _ _); [|now left].
  destruct (run_handler k message) as [[|c w]|e]; simpl; auto.
Qed.

Lemma NoDup_fold_visit (message : json) (l : list (N * handler_kind)) (st : backend) :
  NoDup (map fst (mcpHandlers st)) ->
  NoDup (map fst (mcpHandlers (fold_left (visit_handler message) l st))).
Proof.
  revert st. induction l as [|e l IH]; intros st ND; simpl; [exact ND|].
  apply IH. destruct (handlers_visit message st e) as [-> | ->];
    [exact ND|now apply NoDup_map_delete].
Qed.

Lemma NoDup_handlers_step (st : backend) (e : event) :
  registry_inv st -> NoDup (map fst (mcpHandlers st)) ->
  NoDup (map fst (mcpHandlers (step st e))).
Proof.
  intros I ND.
  assert (Reg : forall k, NoDup (map fst (mcpHandlers st ++ [(nextHandlerId st, k)]))).
  { intros k. rewrite map_app. simpl. apply NoDup_app; [exact ND|repeat constructor; auto|].
    intros x Hx [<-|[]]. specialize (I (nextHandlerId st)).
    rewrite N.ltb_irrefl in I. unfold observe in I. injection I as X _ _ _.
    apply map_has_In in Hx. congruence. }
  destruct e; simpl; try apply Reg.
  - unfold handleGitHubMcpOutput.
    generalize (removelast (split_on 10 (mcpBuffer st ++ Buffer_toString chunk))).
    intros lines.
    assert (ND' : NoDup (map fst (mcpHandlers
                   (set_buffer (last (split_on 10 (mcpBuffer st ++ Buffer_toString chunk)) []) st))))
      by exact ND.
    revert ND'. generalize (set_buffer (last (split_on 10 (mcpBuffer st ++ Buffer_toString chunk)) []) st).
    induction lines as [|l ls IH]; intros s Hs; simpl; [exact Hs|].
    apply IH. unfold handle_line. destruct (trim l); [exact Hs|].
    destruct (JSON_parse l); [|exact Hs]. now apply NoDup_fold_visit.
  - unfold fire_timer. destruct (find _ _) as [t|]; [|exact ND].
    unfold timeout_callback. simpl. destruct (mem_N _ _); simpl; [exact ND|].
    now apply NoDup_map_delete.
Qed.

Lemma NoDup_handlers_run (evs : list event) :
  NoDup (map fst (mcpHandlers (run evs))).
Proof.
  unfold run.
  assert (G : forall st, registry_inv st -> NoDup (map fst (mcpHandlers st)) ->
                NoDup (map fst (mcpHandlers (fold_left step evs st)))).
  { induction evs as [|e evs IH]; intros st I ND; simpl; [exact ND|].
    apply IH; [now apply registry_inv_step|now apply NoDup_handlers_step]. }
  apply G; [apply registry_inv_init|constructor].
Qed.

Lemma map_has_visit_mono (message : json) (st : backend)
  (entry : N * handler_kind) (h : N) :
  map_has h (mcpHandlers (visit_handler message st entry)) = true ->
  map_has h (mcpHandlers st) = true.
Proof.
  destruct (handlers_visit message st entry) as [-> | ->]; [tauto|].
  rewrite map_has_delete. intros X. now apply andb_true_iff in X.
Qed.

Lemma settled_fold_visit (message : json) (l : list (N * handler_kind))
  (st : backend) (x : N * completion) (h : N) :
  In x (settled st) -> map_has h (mcpHandlers st) = false ->
  In x (settled (fold_left (visit_handler message) l st))
  /\ map_has h (mcpHandlers (fold_left (visit_handler message) l st)) = false.
Proof.
  revert st. induction l as [|e l IH]; intros st Ix Hh; simpl; [tauto|].
  apply IH.
  - destruct (extends_visit message st e) as [extra E]. rewrite E.
    apply in_or_app. now right.
  - destruct (map_has h (mcpHandlers (visit_handler message st e))) eqn:X;
      [|reflexivity].
    apply map_has_visit_mono in X. congruence.
Qed.

(** While a call is pending, a message that its handler takes for its
    reply settles it, and removes the handler in the same turn. *)
Lemma reply_settles_pending (st : backend) (h : N) (k : handler_kind)
  (message : json) (c : completion) (w : list outgoing) :
  NoDup (map fst (mcpHandlers st)) ->
  In (h, k) (mcpHandlers st) ->
  run_handler k message = Ok (Mine c w) ->
  In (h, c) (settled (dispatch st message))
  /\ map_has h (mcpHandlers (dispatch st message)) = false.
Proof.
  intros ND Ih Rh. unfold dispatch.
  assert (G : forall l s,
             NoDup (map fst l) -> In (h, k) l ->
             map_has h (mcpHandlers s) = true ->
             In (h, c) (settled (fold_left (visit_handler message) l s))
             /\ map_has h (mcpHandlers (fold_left (visit_handler message) l s)) = false).
  { induction l as [|[id k'] l IH]; intros s NDl Il Hs; [contradiction|].
    simpl in NDl. inversion NDl as [|? ? NI NDl']; subst.
    cbn [fold_left]. destruct Il as [E|Il].
    - injection E as -> ->. apply settled_fold_visit.
      + unfold visit_handler. rewrite Hs, Rh. now left.
      + unfold visit_handler. rewrite Hs, Rh. simpl.
        rewrite map_has_delete, N.eqb_refl. apply andb_false_r.
    - assert (Hne : id <> h).
      { intros ->. apply NI. now apply (in_map fst l (h, k)). }
      apply IH; [exact NDl'|exact Il|].
      destruct (handlers_visit message s (id, k')) as [-> | ->]; [exact Hs|].
      rewrite map_has_delete, Hs. simpl.
      destruct (N.eqb_spec h id); [congruence|reflexivity]. }
  apply G; [exact ND|exact Ih|].
  apply map_has_In. now apply (in_map fst (mcpHandlers st) (h, k)).
Qed.

End Registry.

(** While a call is pending, its timer settles it with the timeout error. *)
Lemma timer_settles_pending `{Runtime} (h : N) (st : backend) :
  map_has h (mcpHandlers st) = true ->
  timer_pending h st = true ->
  mem_N h (responded st) = false ->
  exists k, settled (fire_timer h st)
            = (h, Rejected (timeout_error k)) :: settled st
            /\ map_has h (mcpHandlers (fire_timer h st)) = false.
Proof.
  intros _ Hp Hr. unfold fire_timer, timer_pending in *.
  destruct (find _ (timers st)) as [t|] eqn:F.
  - apply find_some in F. destruct F as [_ E]. apply N.eqb_eq in E.
    exists (tm_kind t). unfold timeout_callback. simpl. rewrite E, Hr. simpl.
    split; [reflexivity|].
    rewrite map_has_delete, N.eqb_refl. apply andb_false_r.
  - apply existsb_exists in Hp. destruct Hp as [t [Hin E]].
    now rewrite (find_none _ _ F t Hin) in E.
Qed.

Example reply_then_timer :
  settled (@run sample_runtime
             (sample_call ++ [EvData (sample_reply_text ++ [10%N]); EvTimer 0]))
  = [(0%N, Resolved (Some (JObj [])))].
Proof. vm_compute. reflexivity. Qed.

Example timer_then_reply :
  settled (@run sample_runtime
             (sample_call ++ [EvTimer 0; EvData (sample_reply_text ++ [10%N])]))
  = [(0%N, Rejected (Err (JStr (str "Tool execution timeout"))))].
Proof. vm_compute. reflexivity. Qed.

(** C1: for every call registered with the backend (handler paired with
    its timer), after any sequence of events: its promise was settled at
    most once; it was settled exactly when its handler is no longer
    registered (the handler is removed in the same turn that fires it); once
    its timer has run it was settled exactly once; whatever settled it first
    stays the only settlement under every continuation; and while it is
    pending, either a matching reply or its timer, whichever comes, settles
    it and removes the handler. *)
Theorem exactly_once_resolution (R : Runtime) (evs : list event) (h : N) :
  (h < nextHandlerId (run evs))%N ->
  settle_count h (run evs) <= 1 /\
  (settle_count h (run evs) = 0 <-> map_has h (mcpHandlers (run evs)) = true) /\
  (timer_pending h (run evs) = false -> settle_count h (run evs) = 1) /\
  (forall (c c' : completion) (evs' : list event),
      In (h, c) (settled (run evs)) ->
      In (h, c') (settled (run (evs ++ evs'))) -> c' = c) /\
  (forall (k : handler_kind) (message : json) (c : completion)
          (w : list outgoing),
      In (h, k) (mcpHandlers (run evs)) ->
      run_handler k message = Ok (Mine c w) ->
      In (h, c) (settled (dispatch (run evs) message))
      /\ map_has h (mcpHandlers (dispatch (run evs) message)) = false) /\
  (map_has h (mcpHandlers (run evs)) = true ->
   exists k, settled (fire_timer h (run evs))
             = (h, Rejected (timeout_error k)) :: settled (run evs)
             /\ map_has h (mcpHandlers (fire_timer h (run evs))) = false).
Proof.
  intros Hlt. pose proof (registry_inv_run evs) as I.
  split; [now apply settle_count_le_1|].
  pose proof (I h) as Ih. apply N.ltb_lt in Hlt. rewrite Hlt in Ih.
  unfold observe in Ih.
  split; [|split; [|split; [|split]]].
  - inversion Ih; split; intros E; congruence.
  - intros T. rewrite T in Ih. inversion Ih. reflexivity.
  - intros c c' evs' Hc Hc'.
    destruct (extends_run evs evs') as [extra E].
    apply (settled_unique (run (evs ++ evs')) h).
    + apply settle_count_le_1, registry_inv_run.
    + rewrite E. apply in_or_app. now right.
    + exact Hc'.
  - intros k message c w. apply reply_settles_pending, NoDup_handlers_run.
  - intros Hh. rewrite Hh in Ih.
    apply timer_settles_pending; [exact Hh| |]; inversion Ih; reflexivity.
Qed.

Lemma exactly_once_resolution_witness :
  let evs := sample_call ++ [EvData (sample_reply_text ++ [10%N]); EvTimer 0] in
  (0 < nextHandlerId (@run sample_runtime evs))%N /\
  settle_count 0 (@run sample_runtime evs) = 1.
Proof.
  intros evs. split; [vm_compute; reflexivity|].
  apply (exactly_once_resolution sample_runtime evs 0);
    vm_compute; reflexivity.
Defined.

(** ** The framed channel *)

Section Framing.

Context `{Runtime}.

Lemma split_on_nonempty (sep : N) (s : jsstring) : split_on sep s <> [].
Proof.
  destruct s as [|c t]; simpl; [discriminate|].
  destruct (N.eqb c sep); [discriminate|].
  destruct (split_on sep t); discriminate.
Qed.

(** Splitting a concatenation: the complete pieces of the first part, then
    the split of its last piece followed by the second part. *)
Lemma split_on_app (sep : N) (a b : jsstring) :
  split_on sep (a ++ b)
  = removelast (split_on sep a) ++ split_on sep (last (split_on sep a) [] ++ b).
Proof.
  induction a as [|c t IH]; [reflexivity|].
  cbn [app split_on]. destruct (N.eqb c sep) eqn:E.
  - rewrite IH. pose proof (split_on_nonempty sep t) as NE.
    destruct (split_on sep t) as [|p r]; [contradiction|]. reflexivity.
  - rewrite IH. pose proof (split_on_nonempty sep t) as NE.
    destruct (split_on sep t) as [|p r]; [contradiction|].
    destruct r as [|r1 r']; [|reflexivity].
    cbn [removelast last app split_on]. now rewrite E.
Qed.

Lemma last_split_on_whole (sep : N) (s : jsstring) :
  split_on sep (last (split_on sep s) []) = [last (split_on sep s) []].
Proof.
  induction s as [|c t IH]; [reflexivity|].
  cbn [split_on]. pose proof (split_on_nonempty sep t) as NE.
  destruct (N.eqb c sep) eqn:E.
  - destruct (split_on sep t) as [|p r]; [contradiction|]. exact IH.
  - destruct (split_on sep t) as [|p r]; [contradiction|].
    destruct r as [|r1 r']; [|exact IH].
    cbn [last] in *. cbn [split_on]. now rewrite E, IH.
Qed.

Lemma decoded_records_app (l1 l2 : list jsstring) :
  decoded_records (l1 ++ l2) = decoded_records l1 ++ decoded_records l2.
Proof. unfold decoded_records. apply flat_map_app. Qed.

Lemma last_app_nonempty {A : Type} (l1 l2 : list A) (d : A) :
  l2 <> [] -> last (l1 ++ l2) d = last l2 d.
Proof.
  intros NE. induction l1 as [|x l1 IH]; [reflexivity|].
  cbn [app last]. destruct (l1 ++ l2) eqn:E; [|exact IH].
  apply app_eq_nil in E. destruct E as [_ E]. contradiction.
Qed.

(** Pushing text in pieces is pushing it at once, whenever the buffer holds
    no separator (which [lines.pop()] ensures). *)
Lemma push_texts_whole (texts : list jsstring) (buffer : jsstring) :
  split_on 10 buffer = [buffer] ->
  push_texts buffer texts
  = (decoded_records (removelast (split_on 10 (buffer ++ concat texts))),
     last (split_on 10 (buffer ++ concat texts)) []).
Proof.
  revert buffer. induction texts as [|t rest IH]; intros buffer Hb.
  - cbn [push_texts concat]. rewrite app_nil_r, Hb. reflexivity.
  - cbn [push_texts concat]. unfold push_text.
    rewrite (IH _ (last_split_on_whole 10 (buffer ++ t))).
    rewrite app_assoc, (split_on_app 10 (buffer ++ t) (concat rest)).
    rewrite removelast_app by apply split_on_nonempty.
    rewrite last_app_nonempty by apply split_on_nonempty.
    now rewrite decoded_records_app.
Qed.

(** [handleGitHubMcpOutput] hands exactly the records of [push_text] to
    the handlers, in order, and keeps its buffer. *)
Lemma handleGitHubMcpOutput_push (data : list N) (st : backend) :
  handleGitHubMcpOutput data st
  = fold_left dispatch
      (fst (push_text (mcpBuffer st) (Buffer_toString data)))
      (set_buffer (snd (push_text (mcpBuffer st) (Buffer_toString data))) st).
Proof.
  unfold handleGitHubMcpOutput, push_text. cbn [fst snd].
  generalize (set_buffer (last (split_on 10 (mcpBuffer st ++ Buffer_toString data)) []) st).
  induction (removelast (split_on 10 (mcpBuffer st ++ Buffer_toString data)))
    as [|l ls IH]; intros s; [reflexivity|].
  cbn [fold_left decoded_records flat_map]. rewrite IH.
  fold (decoded_records ls). unfold handle_line.
  destruct (trim l); [reflexivity|].
  destruct (JSON_parse l); reflexivity.
Qed.

(** A chunk of ASCII bytes decodes to itself. *)
Lemma Buffer_toString_ascii (data : list N) :
  Forall (fun b => (b <= 127)%N) data -> Buffer_toString data = data.
Proof.
  unfold Buffer_toString. induction 1 as [|b data Hb _ IH]; [reflexivity|].
  cbn [utf8_decode utf8_step utf8_idle u_needed]. unfold utf8_lead.
  apply N.leb_le in Hb. rewrite Hb. cbn [app]. now rewrite IH.
Qed.

Lemma utf8_decode_app (st : utf8_state) (a b : list N) :
  utf8_decode st (a ++ b)
  = fst (utf8_run st a) ++ utf8_decode (snd (utf8_run st a)) b.
Proof.
  revert st. induction a as [|x a IH]; intros st; [reflexivity|].
  cbn [app utf8_decode utf8_run].
  destruct (utf8_step st x) as [out st']. rewrite IH.
  destruct (utf8_run st' a) as [outs st'']. cbn [fst snd].
  now rewrite app_assoc.
Qed.

(** Decoding commutes with concatenation at a character boundary. *)
Lemma Buffer_toString_app (a b : list N) :
  ends_on_boundary a ->
  Buffer_toString (a ++ b) = Buffer_toString a ++ Buffer_toString b.
Proof.
  unfold ends_on_boundary, Buffer_toString. intros E.
  rewrite utf8_decode_app, E.
  rewrite <- (app_nil_r a) at 2. rewrite utf8_decode_app, E.
  cbn [utf8_decode utf8_idle u_needed]. now rewrite app_nil_r.
Qed.

Lemma Buffer_toString_concat (chunks : list (list N)) :
  Forall ends_on_boundary chunks ->
  Buffer_toString (concat chunks) = concat (map Buffer_toString chunks).
Proof.
  induction 1 as [|c cs Hc _ IH]; [reflexivity|].
  cbn [concat map]. now rewrite Buffer_toString_app, IH.
Qed.

(** Chunking invariance at character boundaries: when every chunk ends
    where a character ends, the records emitted and the fragment kept are
    those of the whole stream, however it was cut. *)
Lemma push_chunks_aligned (chunks : list (list N)) :
  Forall ends_on_boundary chunks ->
  push_chunks [] chunks = framed_reference chunks.
Proof.
  intros Hc. unfold push_chunks, framed_reference.
  rewrite push_texts_whole by reflexivity. cbn [app].
  now rewrite Buffer_toString_concat.
Qed.

Lemma ascii_ends_on_boundary (chunk : list N) :
  Forall (fun b => (b <= 127)%N) chunk -> ends_on_boundary chunk.
Proof.
  unfold ends_on_boundary. induction 1 as [|b chunk Hb _ IH]; [reflexivity|].
  cbn [utf8_run utf8_step utf8_idle u_needed]. unfold utf8_lead.
  apply N.leb_le in Hb. rewrite Hb.
  destruct (utf8_run utf8_idle chunk) as [outs st]. exact IH.
Qed.

(** In particular for ASCII data, wherever it is cut. *)
Lemma push_chunks_ascii (chunks : list (list N)) :
  Forall (Forall (fun b => (b <= 127)%N)) chunks ->
  push_chunks [] chunks = framed_reference chunks.
Proof.
  intros Hc. apply push_chunks_aligned.
  apply Forall_forall. intros c I. apply ascii_ends_on_boundary.
  revert c I. now apply Forall_forall.
Qed.

End Framing.

(** C2 (the code departs from the claim): when a chunk boundary falls
    inside a multi-byte character, each half is decoded on its own into
    U+FFFD, so the record delivered differs from the record of the
    concatenated bytes. *)
Theorem chunk_boundary_inside_character (R : Runtime) :
  JSON_parse (quoted [233%N]) = Some (JStr [233%N]) ->
  JSON_parse (quoted [65533%N; 65533%N]) = Some (JStr [65533%N; 65533%N]) ->
  framed_reference split_character = ([JStr [233%N]], []) /\
  push_chunks [] split_character = ([JStr [65533%N; 65533%N]], []) /\
  push_chunks [] split_character <> framed_reference split_character.
Proof.
  intros Hgood Hbad.
  assert (E1 : framed_reference split_character = ([JStr [233%N]], [])).
  { vm_compute in Hgood |- *. now rewrite Hgood. }
  assert (E2 : push_chunks [] split_character = ([JStr [65533%N; 65533%N]], [])).
  { vm_compute in Hbad |- *. now rewrite Hbad. }
  split; [exact E1|]. split; [exact E2|].
  rewrite E1, E2. discriminate.
Qed.

Lemma chunk_boundary_inside_character_witness :
  @push_chunks sample_runtime [] split_character
  <> @framed_reference sample_runtime split_character.
Proof.
  apply (chunk_boundary_inside_character sample_runtime); reflexivity.
Defined.

(** ** The request dispatcher *)

Section Dispatcher.

Variable simplifySchema : option json -> result (option json).
Context `{Runtime}.
Variable env : environment.
Variable backend : jsstring -> option json -> completion.

Lemma map_result_length {A B : Type} (f : A -> result B) (l : list A) (r : list B) :
  map_result f l = Ok r -> length r = length l.
Proof.
  revert r. induction l as [|a l IH]; simpl; intros r E.
  - injection E as <-. reflexivity.
  - destruct (f a) as [b|e]; simpl in E; [|discriminate].
    destruct (map_result f l) as [bs|e]; simpl in E; [|discriminate].
    injection E as <-. simpl. now rewrite (IH bs).
Qed.

Lemma optimizeTools_length (items : list json) (r : list json) :
  optimizeTools simplifySchema (Some (JArr items)) = Ok r ->
  length r = length items.
Proof. apply map_result_length. Qed.

Lemma field_not_null (k : string) (request : json) (v : json) :
  field k request = Some v -> exists fs, request = JObj fs.
Proof. destruct request; simpl; try discriminate. intros _. now eexists. Qed.

(** Every request that is not [null] gets a reply, and the state left is
    the one of the branch taken. *)
Lemma handleRequest_replies (request : json) (s : server) :
  request <> JNull ->
  exists response s',
    handleRequest simplifySchema env backend request s = (Ok response, s').
Proof.
  intros NN. unfold handleRequest.
  destruct request; try contradiction;
    repeat match goal with
           | |- context [if ?c then _ else _] => destruct c
           | |- context [match tools_list ?a ?b with _ => _ end] =>
               destruct (tools_list a b)
           | |- context [match tools_call ?a ?b ?c ?d with _ => _ end] =>
               destruct (tools_call a b c d) as [[[? ?]|?] ?]
           end; eauto.
Qed.

End Dispatcher.

Lemma management_tools_names :
  tool_names getPluginManagementTools
  = map (fun n => Some (JStr n)) management_names.
Proof. reflexivity. Qed.

(** C6: the result of [tools/list] is the compressed backend tools, then
    the six management tools (list, install, uninstall, enable, disable,
    info), then the plugin tools, concatenated as they are; with 2 backend
    tools and 1 plugin tool the list has 9 elements. *)
Theorem tools_list_concatenation
  (simplifySchema : option json -> result (option json)) (R : Runtime)
  (env : environment) (backend : jsstring -> option json -> completion)
  (request : json) (s : server) (backendTools pluginTools : list json) :
  field "method" request = Some (JStr (str "tools/list")) ->
  optimizeTools simplifySchema (githubTools s) = Ok backendTools ->
  getPluginTools (pluginManager s) = Ok pluginTools ->
  handleRequest simplifySchema env backend request s
  = (Ok (Success (field "id" request)
           (Some (JObj [(str "tools",
                         JArr (backendTools ++ getPluginManagementTools
                               ++ pluginTools))]))), s)
  /\ tool_names getPluginManagementTools
     = map (fun n => Some (JStr n)) management_names
  /\ length (backendTools ++ getPluginManagementTools ++ pluginTools)
     = length backendTools + 6 + length pluginTools
  /\ (forall items, githubTools s = Some (JArr items) ->
                    length backendTools = length items)
  /\ (length backendTools = 2 -> length pluginTools = 1 ->
      length (backendTools ++ getPluginManagementTools ++ pluginTools) = 9).
Proof.
  intros Hm Hb Hp.
  assert (L : length (backendTools ++ getPluginManagementTools ++ pluginTools)
              = length backendTools + 6 + length pluginTools).
  { rewrite !length_app. simpl. lia. }
  split; [|split; [reflexivity|split; [exact L|split]]].
  - destruct (field_not_null "method" request _ Hm) as [fs ->].
    unfold handleRequest. rewrite Hm.
    change (is_method "initialize" (Some (JStr (str "tools/list")))) with false.
    change (is_method "tools/list" (Some (JStr (str "tools/list")))) with true.
    cbv iota. unfold tools_list. rewrite Hb, Hp. reflexivity.
  - intros items E. rewrite E in Hb. exact (optimizeTools_length _ _ _ Hb).
  - intros E1 E2. rewrite L, E1, E2. reflexivity.
Qed.

Lemma tools_list_concatenation_witness :
  exists tools,
    fst (@handleRequest no_simplify sample_runtime sample_env backend_rejects
           (request_of 1 "tools/list" []) sample_server)
    = Ok (Success (Some (JNum 1)) (Some (JObj [(str "tools", JArr tools)])))
    /\ length tools = 9
    /\ tool_names tools
       = map (fun n => Some (JStr (str n)))
           ["get_me"; "search_code"; "plugin_list"; "plugin_install";
            "plugin_uninstall"; "plugin_enable"; "plugin_disable";
            "plugin_info"; "myplugin_my_tool"].
Proof.
  destruct (tools_list_concatenation no_simplify sample_runtime sample_env
              backend_rejects (request_of 1 "tools/list" []) sample_server
              [JObj [(str "name", JStr (str "get_me"));
                     (str "description", JStr (str "Get my profile"))];
               JObj [(str "name", JStr (str "search_code"));
                     (str "description", JStr (str "Search code"))]]
              [JObj [(str "name", JStr (str "myplugin_my_tool"));
                     (str "description", JStr (str "Does something cool"));
                     (str "pluginName", JStr (str "acme-tools"))]]
              eq_refl eq_refl eq_refl) as [E [_ [_ [_ L]]]].
  eexists. split; [rewrite E; reflexivity|].
  split; [exact (L eq_refl eq_refl)|reflexivity].
Defined.

(** C5 (as stated, refuted): a name that starts with [plugin_] without
    being one of the six management operations, and that no plugin lists, is
    not forwarded to the backend: the call fails locally. *)
Lemma prefixed_name_not_forwarded :
  ~ (forall (R : Runtime) (env : environment)
            (backend : jsstring -> option json -> completion)
            (toolName : jsstring) (args : option json) (s : server)
            (pluginTools : list json),
        ~ In toolName management_names ->
        getPluginTools (pluginManager s) = Ok pluginTools ->
        existsb (has_name toolName) pluginTools = false ->
        fst (tools_call env backend
               (Some (JObj ((str "name", JStr toolName) :: opt_field "arguments" args)))
               s)
        = (r <- await (backend toolName args) ;; Ok (ToBackend, r))).
Proof.
  intros C.
  specialize (C sample_runtime sample_env backend_resolves (str "plugin_foo")
                None plain_server []).
  assert (NI : ~ In (str "plugin_foo") management_names).
  { intros I. vm_compute in I. intuition discriminate. }
  specialize (C NI eq_refl eq_refl).
  vm_compute in C. discriminate C.
Qed.

Lemma tools_call_prefixed (R : Runtime) (env : environment)
  (backend : jsstring -> option json -> completion)
  (p : json) (toolName : jsstring) (s : server) :
  field "name" p = Some (JStr toolName) ->
  startsWith (str "plugin_") toolName = true ->
  tools_call env backend (Some p) s
  = (let (r, m') := handlePluginTool env toolName (field "arguments" p)
                                     (pluginManager s) in
     (x <- r ;; Ok (ToManagement, Some x), with_manager s m')).
Proof.
  intros Hn Hs. destruct (field_not_null "name" p _ Hn) as [fs ->].
  unfold tools_call. rewrite Hn, Hs.
  destruct (handlePluginTool _ _ _ _) as [[r|e] m']; reflexivity.
Qed.

Lemma handlePluginTool_unknown (R : Runtime) (env : environment)
  (toolName : jsstring) (args : option json) (m : manager) :
  ~ In toolName management_names ->
  handlePluginTool env toolName args m
  = (Throw (Err (JStr (str "Unknown plugin tool: " ++ toolName))), m).
Proof.
  intros NI. unfold handlePluginTool.
  repeat match goal with
         | |- context [jsstring_eqb toolName (str ?n)] =>
             let X := fresh "X" in
             destruct (jsstring_eqb toolName (str n)) eqn:X;
             [ exfalso; apply NI; unfold jsstring_eqb in X;
               destruct (list_eq_dec N.eq_dec toolName (str n)) as [->|];
               [vm_compute; tauto|discriminate X]
             | ]
         end.
  reflexivity.
Qed.

Lemma tools_call_unprefixed (R : Runtime) (env : environment)
  (backend : jsstring -> option json -> completion)
  (p : json) (toolName : jsstring) (s : server) (pluginTools : list json) :
  field "name" p = Some (JStr toolName) ->
  startsWith (str "plugin_") toolName = false ->
  getPluginTools (pluginManager s) = Ok pluginTools ->
  tools_call env backend (Some p) s
  = (if existsb (has_name toolName) pluginTools
     then (x <- executePluginTool toolName (field "arguments" p)
                                  (pluginManager s) ;;
           Ok (ToPlugin, Some x), s)
     else (x <- await (backend toolName (field "arguments" p)) ;;
           Ok (ToBackend, x), s)).
Proof.
  intros Hn Hs Hp. destruct (field_not_null "name" p _ Hn) as [fs ->].
  unfold tools_call. rewrite Hn, Hs, Hp.
  destruct (existsb (has_name toolName) pluginTools).
  - destruct (executePluginTool _ _ _); reflexivity.
  - destruct (await _); reflexivity.
Qed.

(** C5 (amended): a [tools/call] whose name starts with [plugin_] is
    handled by the local management handler, which runs the six management
    operations and fails with "Unknown plugin tool" on any other such name;
    otherwise a name that equals the name of an enumerated plugin tool goes
    to the plugin loader; otherwise the call goes to the backend. *)
Theorem tools_call_precedence (R : Runtime) (env : environment)
  (backend : jsstring -> option json -> completion)
  (p : json) (toolName : jsstring) (s : server) :
  field "name" p = Some (JStr toolName) ->
  Forall (fun n => startsWith (str "plugin_") n = true) management_names /\
  (startsWith (str "plugin_") toolName = true ->
     tools_call env backend (Some p) s
     = (let (r, m') := handlePluginTool env toolName (field "arguments" p)
                                        (pluginManager s) in
        (x <- r ;; Ok (ToManagement, Some x), with_manager s m'))
     /\ (~ In toolName management_names ->
         tools_call env backend (Some p) s
         = (Throw (Err (JStr (str "Unknown plugin tool: " ++ toolName))), s))) /\
  (startsWith (str "plugin_") toolName = false ->
     forall pluginTools,
       getPluginTools (pluginManager s) = Ok pluginTools ->
       tools_call env backend (Some p) s
       = (if existsb (has_name toolName) pluginTools
          then (x <- executePluginTool toolName (field "arguments" p)
                                       (pluginManager s) ;;
                Ok (ToPlugin, Some x), s)
          else (x <- await (backend toolName (field "arguments" p)) ;;
                Ok (ToBackend, x), s))).
Proof.
  intros Hn. split; [repeat constructor|]. split.
  - intros Hs. split; [now apply tools_call_prefixed|].
    intros NI. rewrite (tools_call_prefixed R env backend p toolName s Hn Hs).
    rewrite (handlePluginTool_unknown R env toolName _ _ NI).
    destruct s; reflexivity.
  - intros Hs pluginTools Hp. now apply tools_call_unprefixed.
Qed.

Lemma tools_call_precedence_witness :
  fst (@tools_call sample_runtime sample_env backend_rejects
         (Some (JObj [(str "name", JStr (str "bogus_tool"))])) sample_server)
  = Throw (Err (JStr (str "unknown tool"))).
Proof.
  destruct (tools_call_precedence sample_runtime sample_env backend_rejects
              (JObj [(str "name", JStr (str "bogus_tool"))]) (str "bogus_tool")
              sample_server eq_refl) as [_ [_ B]].
  rewrite (B eq_refl _ eq_refl). reflexivity.
Defined.

Lemma handleRequest_error_codes
  (simplifySchema : option json -> result (option json)) (R : Runtime)
  (env : environment) (backend : jsstring -> option json -> completion)
  (request : json) (s s' : server) (id : option json) (code : Z)
  (message : error_text) :
  handleRequest simplifySchema env backend request s
  = (Ok (Failure id code message), s') ->
  code = (-32603)%Z \/ code = (-32601)%Z.
Proof.
  unfold handleRequest.
  destruct request; try discriminate;
    repeat match goal with
           | |- context [if ?c then _ else _] => destruct c
           | |- context [match tools_list ?a ?b with _ => _ end] =>
               destruct (tools_list a b)
           | |- context [match tools_call ?a ?b ?c ?d with _ => _ end] =>
               destruct (tools_call a b c d) as [[[? ?]|?] ?]
           end;
    intros E; injection E; intros; subst; auto; discriminate.
Qed.

(** A call for a tool that no source knows, which the backend rejects (by
    an error reply or by the timeout), is answered with code -32603. *)
Lemma unknown_tool_internal_error
  (simplifySchema : option json -> result (option json)) (R : Runtime)
  (env : environment) (backend : jsstring -> option json -> completion)
  (request p : json) (toolName : jsstring) (s : server)
  (pluginTools : list json) (e : js_error) :
  field "method" request = Some (JStr (str "tools/call")) ->
  field "params" request = Some p ->
  field "name" p = Some (JStr toolName) ->
  startsWith (str "plugin_") toolName = false ->
  getPluginTools (pluginManager s) = Ok pluginTools ->
  existsb (has_name toolName) pluginTools = false ->
  backend toolName (field "arguments" p) = Rejected e ->
  handleRequest simplifySchema env backend request s
  = (Ok (Failure (field "id" request) (-32603) (MessageOf e)), s).
Proof.
  intros Hm Hp Hn Hs Ht Hx Hb.
  destruct (field_not_null "method" request _ Hm) as [fs ->].
  unfold handleRequest. rewrite Hm, Hp.
  change (is_method "initialize" (Some (JStr (str "tools/call")))) with false.
  change (is_method "tools/list" (Some (JStr (str "tools/call")))) with false.
  change (is_method "tools/call" (Some (JStr (str "tools/call")))) with true.
  cbv iota.
  rewrite (tools_call_unprefixed R env backend p toolName s pluginTools Hn Hs Ht).
  rewrite Hx, Hb. reflexivity.
Qed.

(** A method other than the three known ones is answered with -32601. *)
Lemma unknown_method_not_found
  (simplifySchema : option json -> result (option json)) (R : Runtime)
  (env : environment) (backend : jsstring -> option json -> completion)
  (request : json) (s : server) :
  request <> JNull ->
  is_method "initialize" (field "method" request) = false ->
  is_method "tools/list" (field "method" request) = false ->
  is_method "tools/call" (field "method" request) = false ->
  handleRequest simplifySchema env backend request s
  = (Ok (Failure (field "id" request) (-32601)
           (MethodNotFound (field "method" request))), s).
Proof.
  intros NN H1 H2 H3. unfold handleRequest. rewrite H1, H2, H3.
  destruct request; try reflexivity. contradiction.
Qed.

(** C7 (the code departs from the claim): the line [null] parses, the
    destructuring of the request throws outside the [try] of handleRequest,
    the loop of [main] catches and logs the rejection, and no reply is
    written. *)
Theorem null_request_gets_no_reply
  (simplifySchema : option json -> result (option json)) (R : Runtime)
  (env : environment) (backend : jsstring -> option json -> completion)
  (s : server) :
  JSON_parse (str "null") = Some JNull ->
  handleRequest simplifySchema env backend JNull s = (Throw TypeError, s) /\
  process_line simplifySchema env backend (str "null") s = (None, s).
Proof.
  intros P. split; [reflexivity|].
  unfold process_line. rewrite P. reflexivity.
Qed.

Lemma null_request_gets_no_reply_witness :
  @process_line no_simplify sample_runtime sample_env backend_rejects
    (str "null") sample_server = (None, sample_server).
Proof.
  apply (null_request_gets_no_reply no_simplify sample_runtime sample_env
           backend_rejects sample_server).
  reflexivity.
Defined.

(** ** The plugin manager *)

(** C3 (the code departs from the claim): installing
    [@o/r/../plugins.json] fails for want of a manifest, and the rollback
    deletes the registry document, which the subpath had made the source of
    the move: the record of the earlier installation is lost. *)
Theorem failed_install_removes_registry :
  let spec := Some (JStr (str "@o/r/../plugins.json")) in
  let outcome := @installPlugin sample_runtime clone_env spec store_manager in
  fst outcome = Throw (Err (JStr (str "Plugin manifest (plugin.json) not found")))
  /\ existsSync (disk store_manager) (metadataFile store_manager) = true
  /\ existsSync (disk (snd outcome)) (metadataFile (snd outcome)) = false
  /\ fst (@listPlugins sample_runtime store_manager)
     = Ok [JObj [(str "name", JStr (str "acme-tools"));
                 (str "enabled", JBool true)]]
  /\ fst (@listPlugins sample_runtime (snd outcome)) = Ok [].
Proof. vm_compute. repeat split; reflexivity. Qed.

(** The rollback itself does what it says: whenever the steps of an
    install fail, neither the plugin directory nor the temporary directory
    exists afterwards. *)
Lemma jsstring_eqb_eq (a b : jsstring) : jsstring_eqb a b = true <-> a = b.
Proof.
  unfold jsstring_eqb. destruct (list_eq_dec N.eq_dec a b); split;
    intros; congruence.
Qed.

Lemma jsstring_eqb_refl (a : jsstring) : jsstring_eqb a a = true.
Proof. now apply jsstring_eqb_eq. Qed.

Lemma jsstring_eqb_neq (a b : jsstring) : jsstring_eqb a b = false <-> a <> b.
Proof.
  unfold jsstring_eqb. destruct (list_eq_dec N.eq_dec a b); split;
    intros; congruence.
Qed.

Lemma path_eqb_eq (p q : path) : path_eqb p q = true <-> p = q.
Proof.
  unfold path_eqb.
  destruct (list_eq_dec (list_eq_dec N.eq_dec) p q); split; intros; congruence.
Qed.

Lemma is_prefix_refl (p : path) : is_prefix p p = true.
Proof.
  induction p as [|a p IH]; simpl; [reflexivity|].
  now rewrite jsstring_eqb_refl.
Qed.

Lemma existsSync_rmSync_same (p : path) (fs : fsys) :
  existsSync (rmSync p fs) p = false.
Proof.
  unfold existsSync, rmSync.
  induction fs as [|[q n] fs IH]; simpl; [reflexivity|].
  destruct (is_prefix p q) eqn:E; simpl; [exact IH|].
  destruct (path_eqb q p) eqn:Q; [|exact IH].
  apply path_eqb_eq in Q. subst q. rewrite is_prefix_refl in E. discriminate E.
Qed.

Lemma existsSync_rmSync_absent (p q : path) (fs : fsys) :
  existsSync fs p = false -> existsSync (rmSync q fs) p = false.
Proof.
  unfold existsSync, rmSync.
  induction fs as [|[r n] fs IH]; simpl; [reflexivity|].
  destruct (path_eqb r p) eqn:E; [discriminate|].
  intros H. destruct (is_prefix q r); simpl; [now apply IH|].
  rewrite E. now apply IH.
Qed.

Lemma rm_if_exists_spec (p : path) (m : manager) :
  exists m', rm_if_exists p m = (Ok tt, m')
             /\ pluginDir m' = pluginDir m
             /\ loadedPlugins m' = loadedPlugins m
             /\ existsSync (disk m') p = false
             /\ (forall q, existsSync (disk m) q = false ->
                           existsSync (disk m') q = false).
Proof.
  unfold rm_if_exists, bindM, get_disk, when.
  destruct (existsSync (disk m) p) eqn:E.
  - eexists. split; [reflexivity|]. simpl.
    repeat split; [apply existsSync_rmSync_same|].
    intros q. apply existsSync_rmSync_absent.
  - exists m. repeat split; [exact E|tauto].
Qed.

Lemma install_rollback_removes_directories (R : Runtime) (env : environment)
  (body : M json) (pluginPath tempDir : path) (m m' : manager) (e : js_error)
  (r : result json) :
  try_catch body
    (fun error => rm_if_exists pluginPath ;;; rm_if_exists tempDir ;;; throw error)
    m = (r, m') ->
  fst (body m) = Throw e ->
  r = Throw e /\
  existsSync (disk m') pluginPath = false /\
  existsSync (disk m') tempDir = false.
Proof.
  unfold try_catch. destruct (body m) as [[a|e0] m0]; simpl; [discriminate|].
  intros H E. injection E as ->.
  unfold bindM in H.
  destruct (rm_if_exists_spec pluginPath m0) as [m1 [E1 [_ [_ [X1 _]]]]].
  rewrite E1 in H.
  destruct (rm_if_exists_spec tempDir m1) as [m2 [E2 [_ [_ [X2 K2]]]]].
  rewrite E2 in H. unfold throw in H. injection H as <- <-.
  repeat split; [now apply K2|exact X2].
Qed.

(** *** Tool enumeration and invocation *)

Lemma startsWith_app (p x : jsstring) : startsWith p (p ++ x) = true.
Proof.
  induction p as [|a p IH]; simpl; [reflexivity|].
  now rewrite N.eqb_refl.
Qed.

(** The first loaded plugin whose name starts the qualified name, and
    which exports [executeTool], receives the call. *)
Lemma executePluginTool_first (name : jsstring) (lp : loaded_plugin)
  (md : plugin_module) (exec : jsstring -> option json -> result json)
  (rest : list (jsstring * loaded_plugin)) (m : manager)
  (tool : jsstring) (args : option json) :
  loadedPlugins m = (name, lp) :: rest ->
  lp_module lp = ModObject md ->
  mod_executeTool md = Some exec ->
  executePluginTool (name ++ str "_" ++ tool) args m
  = exec (name ++ str "_" ++ tool) args.
Proof.
  intros L Hm He. unfold executePluginTool. rewrite L. simpl.
  now rewrite Hm, startsWith_app, He.
Qed.

Example prefix_shadowing :
  option_map tool_names (match getPluginTools prefix_manager with
                         | Ok l => Some l | Throw _ => None end)
  = Some [Some (JStr (str "a-b_run")); Some (JStr (str "a-b-c_run"))]
  /\ executePluginTool (str "a-b-c_run") None prefix_manager
     = Ok (text_content (str "first")).
Proof. split; reflexivity. Qed.

(** C9 (the code departs from the claim): the plugin of the README
    declares the namespace [myplugin] in [plugin.json]; its tool is
    enumerated as [myplugin_my_tool], owned by [acme-tools], but invoking that
    name finds no plugin, because the prefix match reads the namespace from
    the module and not from the stored manifest. *)
Theorem enumerated_tool_not_invocable :
  getPluginTools readme_manager
  = Ok [JObj [(str "name", JStr (str "myplugin_my_tool"));
              (str "description", JStr (str "Does something cool"));
              (str "pluginName", JStr (str "acme-tools"))]]
  /\ executePluginTool (str "myplugin_my_tool") None readme_manager
     = Throw (Err (JStr (str "No plugin found to handle tool: myplugin_my_tool"))).
Proof. split; reflexivity. Qed.

(** *** The registry document *)

Section EmptyStore.

Context `{Runtime}.

(** loadMetadata never throws: a document that is missing or unreadable,
    or whose text is not JSON, reads as the empty registry. *)
Lemma loadMetadata_unreadable (m : manager) (e : js_error) :
  readFileSync (disk m) (metadataFile m) = Throw e ->
  loadMetadata m = empty_metadata.
Proof. unfold loadMetadata. now intros ->. Qed.

Lemma loadMetadata_invalid (m : manager) (data : jsstring) :
  readFileSync (disk m) (metadataFile m) = Ok data ->
  JSON_parse data = None ->
  loadMetadata m = empty_metadata.
Proof. unfold loadMetadata. now intros -> ->. Qed.

Lemma lookup_record_empty (key : jsstring) :
  lookup_record empty_metadata key
  = if existsb (jsstring_eqb key) object_prototype_members
    then Ok Inherited else Ok Missing.
Proof. reflexivity. Qed.

(** On the empty registry, listing gives the empty list, and the four
    operations by name report that the plugin is not found, for every name
    that is not a member of [Object.prototype]. *)
Lemma empty_store_not_found (m : manager) (name : option json) :
  loadMetadata m = empty_metadata ->
  existsb (jsstring_eqb (js_to_string name)) object_prototype_members = false ->
  listPlugins m = (Ok [], m) /\
  uninstallPlugin name m = (Throw (not_found name), m) /\
  enablePlugin name m = (Throw (not_found name), m) /\
  disablePlugin name m = (Throw (not_found name), m) /\
  getPluginInfo name m = (Throw (not_found name), m).
Proof.
  intros E P.
  unfold listPlugins, uninstallPlugin, enablePlugin, disablePlugin, toggle,
    getPluginInfo, bindM, lift.
  rewrite E, lookup_record_empty, P. repeat split; reflexivity.
Qed.

End EmptyStore.

(** C10 (the code departs from the claim): with the document missing, the
    registry reads as empty and listing gives the empty list, but a name that
    every object inherits from [Object.prototype], such as [constructor], is
    taken for a record: info, uninstall, enable and disable all succeed
    instead of reporting that the plugin is not found. *)
Theorem inherited_name_is_found (R : Runtime) :
  let name := Some (JStr (str "constructor")) in
  loadMetadata bare_manager = empty_metadata
  /\ fst (listPlugins bare_manager) = Ok []
  /\ fst (getPluginInfo name bare_manager)
     = Ok (JObj [(str "name", JStr (str "constructor"))])
  /\ fst (uninstallPlugin name bare_manager)
     = Ok (JObj [(str "success", JBool true);
                 (str "name", JStr (str "constructor"))])
  /\ fst (enablePlugin name bare_manager)
     = Ok (JObj [(str "success", JBool true);
                 (str "name", JStr (str "constructor"));
                 (str "enabled", JBool true)])
  /\ fst (disablePlugin name bare_manager)
     = Ok (JObj [(str "success", JBool true);
                 (str "name", JStr (str "constructor"));
                 (str "enabled", JBool false)]).
Proof. repeat split; vm_compute; reflexivity. Qed.

(** *** The load pass *)

Section LoadPass.

Context `{Runtime}.
Variable env : environment.

Lemma map_set_keeps {A : Type} (k k' : jsstring) (v : A) (l : list (jsstring * A)) :
  In k (map fst l) -> In k (map fst (map_set k' v l)).
Proof.
  induction l as [|[a x] l IH]; simpl; [contradiction|].
  destruct (jsstring_eqb k' a) eqn:E; simpl.
  - apply jsstring_eqb_eq in E. subst a. tauto.
  - intros [->|I]; [now left|right; now apply IH].
Qed.

Lemma map_set_has {A : Type} (k : jsstring) (v : A) (l : list (jsstring * A)) :
  In k (map fst (map_set k v l)).
Proof.
  induction l as [|[a x] l IH]; simpl; [now left|].
  destruct (jsstring_eqb k a); simpl; [now left|now right].
Qed.

Lemma map_set_length {A : Type} (k : jsstring) (v : A) (l : list (jsstring * A)) :
  length l <= length (map_set k v l).
Proof.
  induction l as [|[a x] l IH]; simpl; [lia|].
  destruct (jsstring_eqb k a); simpl; lia.
Qed.

(** What one turn of the loop leaves alone, and what it adds. *)
Lemma load_one_frame (m : manager) (entry : jsstring * json) :
  pluginDir (load_one env m entry) = pluginDir m /\
  disk (load_one env m entry) = disk m /\
  length (loadedPlugins m) <= length (loadedPlugins (load_one env m entry)) /\
  (forall k, In k (map fst (loadedPlugins m)) ->
             In k (map fst (loadedPlugins (load_one env m entry)))).
Proof.
  destruct entry as [name info]. unfold load_one.
  destruct (negb _); [repeat split; auto|].
  destruct (env_require _ _ _); simpl; repeat split; auto.
  - apply map_set_length.
  - intros k. apply map_set_keeps.
Qed.

Lemma load_one_adds (m : manager) (name : jsstring) (info : json)
  (plugin : module_value) :
  existsSync (disk m) (index_path m name) = true ->
  env_require env (disk m) (index_path m name) = Ok plugin ->
  In name (map fst (loadedPlugins (load_one env m (name, info)))).
Proof.
  unfold load_one, index_path. intros -> ->. simpl. apply map_set_has.
Qed.

Lemma load_all_frame (entries : list (jsstring * json)) (m : manager) :
  pluginDir (fold_left (load_one env) entries m) = pluginDir m /\
  disk (fold_left (load_one env) entries m) = disk m /\
  length (loadedPlugins m)
  <= length (loadedPlugins (fold_left (load_one env) entries m)) /\
  (forall k, In k (map fst (loadedPlugins m)) ->
             In k (map fst (loadedPlugins (fold_left (load_one env) entries m)))).
Proof.
  revert m. induction entries as [|e entries IH]; intros m; simpl.
  - repeat split; auto.
  - destruct (load_one_frame m e) as [P [D [L K]]].
    destruct (IH (load_one env m e)) as [P' [D' [L' K']]].
    repeat split; try congruence; [lia|auto].
Qed.

Lemma load_all_adds (entries : list (jsstring * json)) (m : manager)
  (name : jsstring) (info : json) (plugin : module_value) :
  In (name, info) entries ->
  existsSync (disk m) (index_path m name) = true ->
  env_require env (disk m) (index_path m name) = Ok plugin ->
  In name (map fst (loadedPlugins (fold_left (load_one env) entries m))).
Proof.
  revert m. induction entries as [|e entries IH]; intros m; simpl; [contradiction|].
  destruct (load_one_frame m e) as [P [D _]].
  intros [->|I] X Q.
  - apply load_all_frame. now apply (load_one_adds m name info plugin).
  - apply IH; [exact I| |]; unfold index_path in *; rewrite ?P, ?D; assumption.
Qed.

(** The descriptors of getPluginTools carry the key of a registry entry. *)
Lemma assoc_set_field (k : jsstring) (v : json) (fs : list (jsstring * json)) :
  assoc k (set_field k v fs) = Some v.
Proof.
  induction fs as [|[a x] fs IH]; simpl.
  - now rewrite jsstring_eqb_refl.
  - destruct (jsstring_eqb k a) eqn:E; simpl; rewrite ?jsstring_eqb_refl, ?E; auto.
Qed.

Lemma qualify_owner (manifest : option json) (name : jsstring) (tool t : json) :
  qualify manifest name tool = Ok t -> tool_owner t = Some (JStr name).
Proof.
  unfold qualify. destruct manifest as [[]|]; try discriminate;
    (destruct (member "name" tool); simpl; [|discriminate]);
    intros E; injection E as <-; apply assoc_set_field.
Qed.

Lemma push_tools_owner (manifest : option json) (name : jsstring)
  (pluginTools acc : list json) (t : json) :
  In t (push_tools manifest name pluginTools acc) ->
  In t acc \/ tool_owner t = Some (JStr name).
Proof.
  revert acc. induction pluginTools as [|tool rest IH]; intros acc; simpl; [tauto|].
  destruct (qualify manifest name tool) as [q|e] eqn:Q; [|tauto].
  intros I. apply IH in I. destruct I as [I|I]; [|tauto].
  apply in_app_or in I. destruct I as [I|[<-|[]]]; [tauto|].
  right. now apply (qualify_owner manifest name tool).
Qed.

Lemma collect_tools_owner (loaded : list (jsstring * loaded_plugin))
  (acc tools : list json) (t : json) :
  collect_tools loaded acc = Ok tools -> In t tools ->
  In t acc \/ exists k, In k (map fst loaded) /\ tool_owner t = Some (JStr k).
Proof.
  revert acc. induction loaded as [|[name lp] rest IH]; intros acc; simpl.
  - intros E. injection E as <-. tauto.
  - destruct (lp_module lp) as [|md]; [discriminate|].
    destruct (mod_getTools md) as [[pts|e]|]; intros E I;
      destruct (IH _ E I) as [J|[k [K O]]];
      try (right; exists k; tauto); try tauto.
    apply push_tools_owner in J. destruct J as [J|J]; [tauto|].
    right. exists name. tauto.
Qed.

Lemma toggle_frame (flag : bool) (name : option json) (m m' : manager)
  (r : result json) :
  toggle flag name m = (r, m') ->
  loadedPlugins m' = loadedPlugins m /\ pluginDir m' = pluginDir m.
Proof.
  unfold toggle, bindM, lift, throw, ret, saveMetadata, set_disk.
  destruct (lookup_record _ _) as [found|e]; [|intros E; injection E as _ <-; auto].
  destruct (negb _); [intros E; injection E as _ <-; auto|].
  destruct (set_enabled _ _ _ _); [|intros E; injection E as _ <-; auto].
  destruct (writeFileSync _ _ _); intros E; injection E as _ <-; auto.
Qed.

Lemma handlePluginTool_disable (args : option json) :
  handlePluginTool env (str "plugin_disable") args
  = (name <~ lift (arg "name" args) ;;
     disablePlugin name ;;;
     unload name ;;;
     ret (text_content (check_mark ++ str "Disabled plugin: " ++ js_to_string name))).
Proof. reflexivity. Qed.

(** After the management operation [plugin_disable], which deletes the
    entry from the registry, no enumerated tool belongs to the plugin. *)
Lemma disable_handler_unloads (args : option json) (name : jsstring)
  (m m' : manager) (r : json) (tools : list json) (t : json) :
  arg "name" args = Ok (Some (JStr name)) ->
  handlePluginTool env (str "plugin_disable") args m = (Ok r, m') ->
  getPluginTools m' = Ok tools ->
  In t tools -> tool_owner t <> Some (JStr name).
Proof.
  intros A. rewrite handlePluginTool_disable.
  unfold bindM, lift. rewrite A. unfold disablePlugin.
  destruct (toggle false (Some (JStr name)) m) as [[x|e] m1] eqn:T; [|discriminate].
  apply toggle_frame in T. destruct T as [L _].
  unfold unload, set_loaded, ret. simpl. intros E. injection E as _ <-.
  unfold getPluginTools. simpl. rewrite L. intros C I.
  destruct (collect_tools_owner _ _ _ t C I) as [[]|[k [K O]]].
  rewrite O. intros X. injection X as ->.
  apply in_map_iff in K. destruct K as [[k lp] [<- K]].
  apply filter_In in K. simpl in K. destruct K as [_ K].
  now rewrite jsstring_eqb_refl in K.
Qed.

End LoadPass.

(** C4 (as stated, refuted): after a plugin was disabled, a load pass
    leaves its entry in the registry, counts it, and its tools are still
    enumerated. *)
Lemma reload_keeps_disabled_plugin :
  ~ (forall (R : Runtime) (env : environment) (m m1 m2 : manager)
            (name : jsstring) (r : json) (n : nat) (tools : list json),
        disablePlugin (Some (JStr name)) m = (Ok r, m1) ->
        loadPlugins env m1 = (Ok n, m2) ->
        getPluginTools m2 = Ok tools ->
        forall t, In t tools -> tool_owner t <> Some (JStr name)).
Proof.
  intros C.
  pose (r := JObj [(str "success", JBool true);
                   (str "name", JStr (str "acme-tools"));
                   (str "enabled", JBool false)]).
  pose (m1 := snd (@disablePlugin sample_runtime
                     (Some (JStr (str "acme-tools"))) loaded_store_manager)).
  pose (t := JObj [(str "name", JStr (str "myplugin_my_tool"));
                   (str "description", JStr (str "Does something cool"));
                   (str "pluginName", JStr (str "acme-tools"))]).
  refine (C sample_runtime sample_env loaded_store_manager m1 m1
            (str "acme-tools") r 1 [t] _ _ _ t (or_introl eq_refl) _);
    vm_compute; reflexivity.
Qed.

(** C4 (amended): a load pass loads the enabled records whose entry point
    exists and loads, so that each has an entry in the registry afterwards,
    keeps every entry that was loaded before, leaves the disk alone and
    returns the size of the registry after the pass; the tools of a disabled
    plugin leave the enumeration when the [plugin_disable] operation deletes
    its entry. *)
Theorem loadPlugins_keeps_registry (R : Runtime) (env : environment)
  (m m' : manager) (n : nat) :
  loadPlugins env m = (Ok n, m') ->
  n = length (loadedPlugins m') /\
  length (loadedPlugins m) <= n /\
  disk m' = disk m /\
  (forall name, In name (map fst (loadedPlugins m)) ->
                In name (map fst (loadedPlugins m'))) /\
  (forall enabled name info plugin,
      enabledPlugins m = Ok enabled ->
      In (name, info) enabled ->
      existsSync (disk m) (index_path m name) = true ->
      env_require env (disk m) (index_path m name) = Ok plugin ->
      In name (map fst (loadedPlugins m'))) /\
  (forall args name m0 r m1 tools t,
      arg "name" args = Ok (Some (JStr name)) ->
      handlePluginTool env (str "plugin_disable") args m0 = (Ok r, m1) ->
      getPluginTools m1 = Ok tools ->
      In t tools -> tool_owner t <> Some (JStr name)).
Proof.
  unfold loadPlugins. destruct (enabledPlugins m) as [enabled|e] eqn:E;
    [|discriminate].
  intros X. injection X as <- <-.
  destruct (load_all_frame env enabled m) as [P [D [L K]]].
  repeat split; auto.
  - intros enabled' name info plugin X. injection X as <-.
    apply load_all_adds.
  - intros args name m0 r m1 tools t. apply disable_handler_unloads.
Qed.

Lemma loadPlugins_keeps_registry_witness :
  exists m',
    @loadPlugins sample_runtime sample_env loaded_store_manager = (Ok 1, m')
    /\ disk m' = store_disk
    /\ In (str "acme-tools") (map fst (loadedPlugins m')).
Proof.
  eexists. split; [vm_compute; reflexivity|].
  destruct (loadPlugins_keeps_registry sample_runtime sample_env
              loaded_store_manager _ 1 eq_refl) as [_ [_ [D [K _]]]].
  split; [exact D|]. apply K. now left.
Defined.

(** *** Installation: what a failed install leaves behind *)

Section InstallFrame.

Lemma until_slash_fst (s : jsstring) : ~ In 47%N (fst (until_slash s)).
Proof.
  induction s as [|c t IH]; simpl; [tauto|].
  destruct (N.eqb_spec c 47) as [E|E]; simpl; [tauto|].
  destruct (until_slash t) as [a b]. simpl in *. intros [X|X]; auto.
Qed.

Lemma split_on_whole (sep : N) (s : jsstring) :
  ~ In sep s -> split_on sep s = [s].
Proof.
  induction s as [|c t IH]; simpl; [reflexivity|].
  intros NI. destruct (N.eqb_spec c sep) as [E|E]; [tauto|].
  rewrite IH by tauto. reflexivity.
Qed.

(** Joining a plain name: no ['/'] in it, and not empty, ["."] or [".."]. *)
Lemma path_join_name (base : path) (x : jsstring) (c : N) :
  ~ In 47%N x -> In c x -> c <> 46%N ->
  path_join base x = base ++ [x].
Proof.
  intros NS I ND. unfold path_join. rewrite split_on_whole by exact NS.
  simpl. unfold path_segment.
  assert (E1 : jsstring_eqb x [] = false).
  { apply jsstring_eqb_neq. intros ->. contradiction. }
  assert (E2 : jsstring_eqb x (str ".") = false).
  { apply jsstring_eqb_neq. intros ->. simpl in I. intuition congruence. }
  assert (E3 : jsstring_eqb x (str "..") = false).
  { apply jsstring_eqb_neq. intros ->. simpl in I. intuition congruence. }
  now rewrite E1, E2, E3.
Qed.







Lemma decimal_no_slash (n : Z) : ~ In 47%N (decimal n).
Proof.
  unfold decimal.
  assert (U : forall d, ~ In 47%N (str (NilEmpty.string_of_uint d))).
  { induction d; simpl; [tauto|..]; intros [X|X];
      solve [discriminate X | tauto]. }
  assert (V : forall d, ~ In 47%N (str (NilZero.string_of_uint d))).
  { intros d. destruct d; try apply U.
    simpl. intros [X|X]; [discriminate X|exact X]. }
  destruct (Z.to_int n) as [d|d]; simpl; [apply V|].
  intros [X|X]; [discriminate X|exact (V d X)].
Qed.





















Lemma match_spec_no_slash (spec owner repo : jsstring) (subpath : option jsstring) :
  match_spec spec = Some (owner, repo, subpath) ->
  ~ In 47%N owner /\ ~ In 47%N repo.
Proof.
  unfold match_spec. destruct spec as [|c r]; [discriminate|].
  destruct (negb (c =? 64)%N); [discriminate|].
  pose proof (until_slash_fst r) as Ho.
  destruct (until_slash r) as [o r1]. simpl in Ho.
  destruct o as [|o0 o]; [discriminate|].
  destruct r1 as [|s1 r2]; [discriminate|].
  pose proof (until_slash_fst r2) as Hr.
  destruct (until_slash r2) as [rp r3]. simpl in Hr.
  destruct rp as [|p0 rp]; [discriminate|].
  destruct r3 as [|s3 [|d sub]]; try discriminate.
  - intros E. injection E as <- <- _. tauto.
  - destruct (forallb _ _); [|discriminate].
    intros E. injection E as <- <- _. tauto.
Qed.

Lemma plugin_name_plain (owner repo : jsstring) (subpath : option jsstring) :
  ~ In 47%N owner -> ~ In 47%N repo ->
  ~ In 47%N (plugin_name_of owner repo subpath)
  /\ In 45%N (plugin_name_of owner repo subpath).
Proof.
  intros Ho Hr.
  assert (S : forall sp, ~ In 47%N (slashes_to_hyphens sp)).
  { intros sp I. apply in_map_iff in I. destruct I as [c [E _]].
    destruct (N.eqb_spec c 47); [discriminate E|congruence]. }
  unfold plugin_name_of. destruct subpath as [sp|]; split;
    rewrite ?in_app_iff; simpl; try tauto.
  - intros [X|[[X|[]]|[X|[[X|[]]|X]]]]; try discriminate X; try tauto.
    now apply (S sp).
  - intros [X|[[X|[]]|X]]; try discriminate X; tauto.
Qed.


Example failed_install_without_manifest :
  let outcome := @installPlugin sample_runtime clone_env
                   (Some (JStr (str "@o/r"))) store_manager in
  fst outcome = Throw (Err (JStr (str "Plugin manifest (plugin.json) not found")))
  /\ disk (snd outcome) = disk store_manager.
Proof. vm_compute. split; reflexivity. Qed.

Example second_install_conflicts :
  @installPlugin sample_runtime clone_env (Some (JStr (str "@acme/tools")))
    store_manager
  = (Throw (Err (JStr (str "Plugin acme-tools already installed"))), store_manager).
Proof. vm_compute. reflexivity. Qed.

End InstallFrame.

(* ===================================================================== *)
(** * Part III. Further properties                                        *)
(* ===================================================================== *)

(** ** simplifySchema *)

Section SimplifySchema.

Lemma depth_In_arr (v : json) (items : list json) :
  In v items -> depth v < depth (JArr items).
Proof.
  simpl. induction items as [|x items IH]; simpl; [intros []|].
  intros [->|Hin]; [lia|]. specialize (IH Hin). lia.
Qed.

Lemma depth_In_obj (k : jsstring) (v : json) (fs : list (jsstring * json)) :
  In (k, v) fs -> depth v < depth (JObj fs).
Proof.
  simpl. induction fs as [|x fs IH]; simpl; [intros []|].
  intros [->|Hin]; [simpl; lia|]. specialize (IH Hin). lia.
Qed.

Lemma assoc_In {A : Type} (k : jsstring) (l : list (jsstring * A)) (v : A) :
  assoc k l = Some v -> In (k, v) l.
Proof.
  induction l as [|[k' v'] l IH]; simpl; [discriminate|].
  unfold jsstring_eqb. destruct (list_eq_dec N.eq_dec k k') as [->|].
  - intros [= ->]. now left.
  - intros E. right. auto.
Qed.

Lemma In_indexed (k : jsstring) (v : json) (items : list json) :
  In (k, v) (indexed items) -> In v items.
Proof. unfold indexed. apply in_combine_r. Qed.

Lemma depth_field (k : string) (value v : json) :
  field k value = Some v -> depth v < depth value.
Proof.
  destruct value; simpl; try discriminate.
  intros E. apply assoc_In in E. apply (depth_In_obj _ _ _ E).
Qed.

Lemma depth_spread (schema v : json) (k : jsstring) :
  is_object (Some schema) = true ->
  assoc k (spread (Some schema)) = Some v -> depth v < depth schema.
Proof.
  intros O E. apply assoc_In in E.
  destruct schema; simpl in E; try contradiction; try discriminate.
  - apply In_indexed in E. now apply depth_In_arr.
  - now apply (depth_In_obj k).
Qed.

Lemma depth_entry (properties : json) (entries : list (jsstring * json))
  (entry : jsstring * json) (k : string) (x : json) :
  object_entries (Some properties) = Ok entries ->
  In entry entries -> field k (snd entry) = Some x ->
  S (depth x) < depth properties.
Proof.
  intros E Hin F. apply depth_field in F. destruct entry as [key value].
  simpl in F.
  destruct properties; simpl in E; try discriminate; injection E as <-.
  - contradiction.
  - contradiction.
  - apply In_indexed in Hin. apply in_map_iff in Hin as [c [<- _]].
    simpl in F. lia.
  - apply In_indexed in Hin. apply depth_In_arr in Hin. lia.
  - apply depth_In_obj in Hin. lia.
Qed.

Lemma map_result_ext {A B : Type} (f g : A -> result B) (l : list A) :
  (forall a, In a l -> f a = g a) -> map_result f l = map_result g l.
Proof.
  induction l as [|a l IH]; intros E; simpl; [reflexivity|].
  rewrite (E a (or_introl eq_refl)), IH; [reflexivity|].
  intros b Hb. apply E. now right.
Qed.

Lemma truthy_some (v : option json) :
  truthy v = true -> exists j, v = Some j.
Proof. destruct v; [eauto|discriminate]. Qed.

(** The body only calls itself on truthy values nested in the schema. *)
Lemma simplify_step_ext (f g : option json -> result (option json))
  (schema : option json) :
  (forall x, truthy x = true -> depth_of x < depth_of schema -> f x = g x) ->
  simplify_step f schema = simplify_step g schema.
Proof.
  intros R. unfold simplify_step.
  destruct (negb (truthy schema) || negb (is_object schema)) eqn:G; [reflexivity|].
  apply orb_false_iff in G as [G O]. apply negb_false_iff in G, O.
  destruct (truthy_some _ G) as [j ->]. simpl in R.
  cbv zeta.
  destruct (truthy (assoc (str "properties") (spread (Some j)))) eqn:T;
    [|reflexivity].
  destruct (truthy_some _ T) as [properties P]. rewrite P.
  apply depth_spread in P; [|exact O].
  destruct (object_entries (Some properties)) as [entries|e] eqn:E;
    [|reflexivity].
  simpl.
  rewrite (map_result_ext _
    (fun entry : jsstring * json =>
       p <- simplify_property g (snd entry) ;; Ok (fst entry, p)));
    [reflexivity|].
  intros entry Hin.
  assert (Rk : forall k, truthy (field k (snd entry)) = true ->
                         f (field k (snd entry)) = g (field k (snd entry))).
  { intros k Tk. destruct (truthy_some _ Tk) as [x X]. rewrite X.
    pose proof (depth_entry _ _ _ _ _ E Hin X).
    apply R; [now rewrite <- X|simpl; lia]. }
  f_equal. unfold simplify_property.
  destruct (member "type" (snd entry)); [|reflexivity]. simpl.
  destruct (spread_if (field "enum" (snd entry)) _); [|reflexivity]. simpl.
  unfold spread_if.
  destruct (truthy (field "items" (snd entry))) eqn:Ti;
    [rewrite (Rk _ Ti)|];
    (destruct (truthy (field "properties" (snd entry))) eqn:Tp;
     [rewrite (Rk _ Tp)|]); reflexivity.
Qed.

(** The bound does not matter once it exceeds the depth. *)
Lemma simplify_enough (n : nat) :
  forall (m : nat) (schema : option json),
    depth_of schema < n -> depth_of schema < m ->
    simplify n schema = simplify m schema.
Proof.
  induction n as [|n IH]; intros m schema Hn Hm; [lia|].
  destruct m as [|m]; [lia|]. simpl.
  apply simplify_step_ext. intros x _ Hx. apply IH; lia.
Qed.

(** The recursive equation of simplifySchema. *)
Lemma simplifySchema_eq (schema : option json) :
  simplifySchema schema = simplify_step simplifySchema schema.
Proof.
  unfold simplifySchema at 1. simpl.
  apply simplify_step_ext. intros x _ Hx.
  unfold simplifySchema. apply simplify_enough; lia.
Qed.

End SimplifySchema.

Section SimplifyResult.

Lemma map_result_In {A B : Type} (f : A -> result B) (l : list A) (r : list B)
  (b : B) :
  map_result f l = Ok r -> In b r -> exists a, In a l /\ f a = Ok b.
Proof.
  revert r. induction l as [|a l IH]; simpl; intros r E Hb.
  - injection E as <-. contradiction.
  - destruct (f a) as [b0|] eqn:Fa; [|discriminate]. simpl in E.
    destruct (map_result f l) as [bs|]; [|discriminate]. simpl in E.
    injection E as <-. destruct Hb as [<-|Hb].
    + exists a. split; [now left|exact Fa].
    + destruct (IH bs eq_refl Hb) as [a' [Ha' Fa']].
      exists a'. split; [now right|exact Fa'].
Qed.

Lemma map_result_throw {A B : Type} (f : A -> result B) (l : list A) (a : A)
  (e : js_error) :
  In a l -> f a = Throw e ->
  exists a' e', In a' l /\ f a' = Throw e' /\ map_result f l = Throw e'.
Proof.
  induction l as [|x l IH]; simpl; [intros []|].
  intros Hin Fa. destruct (f x) as [b|e0] eqn:Fx.
  - destruct Hin as [->|Hin]; [congruence|].
    destruct (IH Hin Fa) as [a' [e' [Ha' [Fa' E]]]].
    exists a', e'. rewrite E. simpl. auto.
  - exists x, e0. simpl. auto.
Qed.

Lemma set_field_In (k : jsstring) (v : json) (fs : list (jsstring * json))
  (x : jsstring * json) :
  In x (set_field k v fs) -> x = (k, v) \/ In x fs.
Proof.
  induction fs as [|[k' v'] fs IH]; simpl.
  - intros [<-|[]]. now left.
  - destruct (jsstring_eqb k k'); simpl.
    + intros [<-|Hin]; auto.
    + intros [<-|Hin]; auto. destruct (IH Hin); auto.
Qed.

Lemma merge_fields_In (extra base : list (jsstring * json)) (x : jsstring * json) :
  In x (merge_fields base extra) -> In x base \/ In x extra.
Proof.
  unfold merge_fields. revert base.
  induction extra as [|[k v] extra IH]; simpl; intros base Hin; [now left|].
  destruct (IH _ Hin) as [Hb|He]; [|now right; right].
  destruct (set_field_In _ _ _ _ Hb) as [->|Hb']; auto.
Qed.

Lemma set_field_keys (k : jsstring) (v v0 : json) (fs : list (jsstring * json)) :
  assoc k fs = Some v0 -> map fst (set_field k v fs) = map fst fs.
Proof.
  induction fs as [|[k' v'] fs IH]; simpl; [discriminate|].
  destruct (jsstring_eqb k k') eqn:E; simpl.
  - intros _. apply jsstring_eqb_eq in E. now subst.
  - intros A. now rewrite (IH A).
Qed.

Lemma assoc_set_field_other (k k' : jsstring) (v : json)
  (fs : list (jsstring * json)) :
  k' <> k -> assoc k' (set_field k v fs) = assoc k' fs.
Proof.
  intros Hne. induction fs as [|[k0 v0] fs IH]; simpl.
  - apply jsstring_eqb_neq in Hne. now rewrite Hne.
  - destruct (jsstring_eqb k k0) eqn:E; simpl.
    + apply jsstring_eqb_eq in E. subst k0.
      apply jsstring_eqb_neq in Hne. now rewrite Hne.
    + now rewrite IH.
Qed.

Lemma opt_field_keys (k : string) (v : option json) (x : jsstring) :
  In x (map fst (opt_field k v)) -> x = str k.
Proof. destruct v; simpl; [intros [<-|[]]; reflexivity|intros []]. Qed.

Lemma spread_if_ok (v : option json) (c : result (list (jsstring * json)))
  (fs : list (jsstring * json)) :
  spread_if v c = Ok fs -> (truthy v = false /\ fs = []) \/ (truthy v = true /\ c = Ok fs).
Proof.
  unfold spread_if. destruct (truthy v); [now right|]. intros [= <-]. now left.
Qed.

Lemma simplify_property_keys (recur : option json -> result (option json))
  (value e : json) :
  simplify_property recur value = Ok e ->
  exists fs, e = JObj fs /\ incl (map fst fs) property_keys.
Proof.
  unfold simplify_property.
  destruct (member "type" value) as [type|]; [|discriminate]. simpl.
  destruct (spread_if (field "enum" value) _) as [enum|] eqn:E1;
    [|discriminate]. simpl.
  destruct (spread_if (field "items" value) _) as [items|] eqn:E2;
    [|discriminate]. simpl.
  destruct (spread_if (field "properties" value) _) as [props|] eqn:E3;
    [|discriminate]. simpl.
  intros [= <-]. eexists. split; [reflexivity|].
  intros x Hx. rewrite !map_app in Hx.
  apply in_app_or in Hx as [Hx|Hx];
    [apply opt_field_keys in Hx; subst; simpl; auto|].
  apply in_app_or in Hx as [Hx|Hx].
  { apply spread_if_ok in E1 as [[_ ->]|[_ [= <-]]]; [destruct Hx|].
    apply opt_field_keys in Hx. subst; simpl; auto. }
  apply in_app_or in Hx as [Hx|Hx].
  { apply spread_if_ok in E2 as [[_ ->]|[_ E2]]; [destruct Hx|].
    destruct (recur (field "items" value)) as [r|]; [|discriminate].
    simpl in E2.
    injection E2 as <-.
    apply opt_field_keys in Hx. subst; simpl; auto. }
  apply spread_if_ok in E3 as [[_ ->]|[_ E3]]; [destruct Hx|].
  destruct (recur (field "properties" value)) as [r|]; [|discriminate].
  simpl in E3.
  destruct (member_of "properties" r) as [p|]; [|discriminate]. simpl in E3.
  injection E3 as <-. apply opt_field_keys in Hx. subst; simpl; auto 6.
Qed.

(** What simplifySchema returns for an object whose [properties] member is
    truthy. *)
Lemma simplifySchema_object (schema : json) (properties : json) (out : option json) :
  is_object (Some schema) = true ->
  assoc (str "properties") (spread (Some schema)) = Some properties ->
  truthy (Some properties) = true ->
  simplifySchema (Some schema) = Ok out ->
  exists entries newProps,
    object_entries (Some properties) = Ok entries /\
    map_result (fun entry : jsstring * json =>
                  p <- simplify_property simplifySchema (snd entry) ;;
                  Ok (fst entry, p)) entries = Ok newProps /\
    out = Some (JObj (set_field (str "properties")
                        (JObj (merge_fields [] newProps))
                        (spread (Some schema)))).
Proof.
  intros O P T. rewrite simplifySchema_eq. unfold simplify_step.
  assert (G : truthy (Some schema) = true) by (destruct schema; try discriminate; reflexivity).
  rewrite G, O. simpl negb. simpl orb. cbv iota zeta. rewrite P, T.
  destruct (object_entries (Some properties)) as [entries|]; [|discriminate].
  simpl. destruct (map_result _ entries) as [newProps|] eqn:E; [|discriminate].
  simpl. intros [= <-]. exists entries, newProps. auto.
Qed.

Lemma simplifySchema_plain (schema : option json) :
  truthy (assoc (str "properties") (spread schema)) = false ->
  simplifySchema schema
  = Ok (if negb (truthy schema) || negb (is_object schema) then schema
        else Some (JObj (spread schema))).
Proof.
  intros T. rewrite simplifySchema_eq. unfold simplify_step.
  destruct (negb (truthy schema) || negb (is_object schema)); [reflexivity|].
  cbv zeta. now rewrite T.
Qed.

End SimplifyResult.

Lemma assoc_absent {A : Type} (k : jsstring) (l : list (jsstring * A)) :
  ~ In k (map fst l) -> assoc k l = None.
Proof.
  induction l as [|[k' v] l IH]; simpl; intros Hn; [reflexivity|].
  destruct (jsstring_eqb k k') eqn:E.
  - apply jsstring_eqb_eq in E. subst. exfalso. apply Hn. now left.
  - apply IH. intros Hin. apply Hn. now right.
Qed.

Lemma simplifySchema_primitive (schema : option json) :
  is_object schema = false -> simplifySchema schema = Ok schema.
Proof.
  intros O. rewrite simplifySchema_eq. unfold simplify_step.
  rewrite O. simpl. now rewrite orb_true_r.
Qed.

(** The entries of the simplified [properties], traced back to the entries
    of the schema. *)
Lemma simplified_entries (schema out : json) (ps : list (jsstring * json))
  (k : jsstring) (e : json) :
  simplifySchema (Some schema) = Ok (Some out) ->
  field "properties" out = Some (JObj ps) ->
  In (k, e) ps ->
  exists properties entries value,
    assoc (str "properties") (spread (Some schema)) = Some properties /\
    object_entries (Some properties) = Ok entries /\
    In (k, value) entries /\
    simplify_property simplifySchema value = Ok e.
Proof.
  intros S F Hin.
  destruct (is_object (Some schema)) eqn:O.
  2:{ rewrite (simplifySchema_primitive _ O) in S. injection S as <-.
      destruct schema; simpl in O, F; discriminate. }
  destruct (truthy (assoc (str "properties") (spread (Some schema)))) eqn:T.
  - destruct (truthy_some _ T) as [properties P]. rewrite P in T.
    destruct (simplifySchema_object _ _ _ O P T S)
      as [entries [newProps [E [Hm [= ->]]]]].
    simpl in F. rewrite assoc_set_field in F. injection F as <-.
    apply merge_fields_In in Hin as [[]|Hin].
    destruct (map_result_In _ _ _ _ Hm Hin) as [[k' value] [Hv Fv]].
    simpl in Fv.
    destruct (simplify_property simplifySchema value) as [p|] eqn:Sp;
      [|discriminate].
    injection Fv as -> ->.
    exists properties, entries, value. auto.
  - rewrite (simplifySchema_plain _ T) in S.
    destruct schema; try discriminate; simpl in S; injection S as <-;
      simpl in F, T; try discriminate; rewrite F in T; discriminate.
Qed.

(** X1: simplifySchema removes the descriptions of the properties: in the
    schema it returns, every entry of [properties] is an object whose
    members are among [type], [enum], [items] and [properties]; it has no
    [description]. *)
Theorem simplifySchema_strips_properties (schema out : json)
  (ps : list (jsstring * json)) (k : jsstring) (e : json) :
  simplifySchema (Some schema) = Ok (Some out) ->
  field "properties" out = Some (JObj ps) ->
  In (k, e) ps ->
  exists fs, e = JObj fs
             /\ incl (map fst fs) property_keys
             /\ field "description" e = None.
Proof.
  intros S F Hin.
  destruct (simplified_entries _ _ _ _ _ S F Hin)
    as [properties [entries [value [_ [_ [_ Sp]]]]]].
  destruct (simplify_property_keys _ _ _ Sp) as [fs [-> Hk]].
  exists fs. split; [reflexivity|]. split; [exact Hk|].
  simpl. apply assoc_absent. intros Hd. apply Hk in Hd.
  vm_compute in Hd. intuition discriminate.
Qed.

Lemma simplifySchema_strips_properties_witness :
  exists fs,
    JObj [(str "type", JStr (str "string"))] = JObj fs
    /\ incl (map fst fs) property_keys
    /\ field "description" (JObj [(str "type", JStr (str "string"))]) = None.
Proof.
  refine (simplifySchema_strips_properties name_schema simplified_name_schema
            [(str "name", JObj [(str "type", JStr (str "string"))])]
            (str "name") (JObj [(str "type", JStr (str "string"))]) _ _ _).
  - vm_compute. reflexivity.
  - vm_compute. reflexivity.
  - left. reflexivity.
Defined.

(** X2: simplifySchema leaves the top level of an object schema alone: the
    result has the same members in the same order, and every member other
    than [properties] ([type], [required], [description], ...) keeps its
    value. *)
Theorem simplifySchema_keeps_members (fields : list (jsstring * json))
  (out : json) :
  simplifySchema (Some (JObj fields)) = Ok (Some out) ->
  exists fields',
    out = JObj fields'
    /\ map fst fields' = map fst fields
    /\ forall k, k <> str "properties" -> assoc k fields' = assoc k fields.
Proof.
  intros S.
  destruct (truthy (assoc (str "properties") (spread (Some (JObj fields))))) eqn:T.
  - destruct (truthy_some _ T) as [properties P]. rewrite P in T.
    destruct (simplifySchema_object (JObj fields) _ _ eq_refl P T S)
      as [entries [newProps [_ [_ [= ->]]]]].
    eexists. split; [reflexivity|]. simpl in P. simpl. split.
    + apply (set_field_keys _ _ _ _ P).
    + intros k Hk. now apply assoc_set_field_other.
  - rewrite (simplifySchema_plain _ T) in S. simpl in S. injection S as <-.
    exists fields. auto.
Qed.

Lemma simplifySchema_keeps_members_witness :
  exists fields',
    simplified_name_schema = JObj fields'
    /\ map fst fields' = map fst (members name_schema)
    /\ forall k, k <> str "properties" ->
                 assoc k fields' = assoc k (members name_schema).
Proof.
  refine (simplifySchema_keeps_members (members name_schema)
            simplified_name_schema _).
  vm_compute. reflexivity.
Defined.

Lemma decimal_digits (n : Z) (c : N) :
  In c (decimal n) -> c = 45%N \/ (48 <= c <= 57)%N.
Proof.
  unfold decimal.
  assert (U : forall d, In c (str (NilEmpty.string_of_uint d)) ->
                        (48 <= c <= 57)%N).
  { induction d; simpl; [tauto|..]; intros [X|X];
      solve [subst c; simpl; lia | auto]. }
  assert (V : forall d, In c (str (NilZero.string_of_uint d)) ->
                        (48 <= c <= 57)%N).
  { intros d. destruct d; try apply U.
    simpl. intros [X|X]; [subst c; simpl; lia|destruct X]. }
  destruct (Z.to_int n) as [d|d]; simpl; [intros X; right; exact (V d X)|].
  intros [X|X]; [left; now subst c|right; exact (V d X)].
Qed.

(** An index is not the name [properties]. *)
Lemma indexed_no_properties (items : list json) :
  assoc (str "properties") (indexed items) = None.
Proof.
  apply assoc_absent. intros Hin. apply in_map_iff in Hin as [[k v] [E Hin]].
  simpl in E. subst k. unfold indexed in Hin. apply in_combine_l in Hin.
  apply in_map_iff in Hin as [i [E _]].
  assert (D : In 112%N (decimal (Z.of_nat i))) by (rewrite E; now left).
  apply decimal_digits in D. lia.
Qed.

(** [simplifySchema(v).properties] when [v] has no member [properties]. *)
Lemma simplifySchema_no_properties (nested : json) (r p : option json) :
  field "properties" nested = None ->
  simplifySchema (Some nested) = Ok r ->
  member_of "properties" r = Ok p ->
  p = None.
Proof.
  intros F S M.
  destruct nested as [|b|n|s|items|fs].
  - rewrite simplifySchema_eq in S. injection S as <-. discriminate M.
  - rewrite simplifySchema_primitive in S by reflexivity.
    injection S as <-. now injection M as <-.
  - rewrite simplifySchema_primitive in S by reflexivity.
    injection S as <-. now injection M as <-.
  - rewrite simplifySchema_primitive in S by reflexivity.
    injection S as <-. now injection M as <-.
  - rewrite simplifySchema_plain in S
      by (unfold spread, object_entries; now rewrite indexed_no_properties).
    injection S as <-. simpl in M. injection M as <-.
    apply indexed_no_properties.
  - simpl in F.
    rewrite simplifySchema_plain in S
      by (unfold spread, object_entries; now rewrite F).
    injection S as <-. simpl in M. injection M as <-. exact F.
Qed.

Lemma assoc_app {A : Type} (k : jsstring) (l1 l2 : list (jsstring * A)) :
  assoc k (l1 ++ l2)
  = match assoc k l1 with Some v => Some v | None => assoc k l2 end.
Proof.
  induction l1 as [|[k' v] l1 IH]; simpl; [reflexivity|].
  destruct (jsstring_eqb k k'); [reflexivity|exact IH].
Qed.

Lemma simplify_property_flat (value e : json) :
  (forall nested, field "properties" value = Some nested ->
                  field "properties" nested = None) ->
  simplify_property simplifySchema value = Ok e ->
  field "properties" e = None.
Proof.
  intros Hn. unfold simplify_property.
  destruct (member "type" value) as [type|]; [|discriminate]. simpl.
  destruct (spread_if (field "enum" value) _) as [enum|] eqn:E1;
    [|discriminate]. simpl.
  destruct (spread_if (field "items" value) _) as [items|] eqn:E2;
    [|discriminate]. simpl.
  destruct (spread_if (field "properties" value) _) as [props|] eqn:E3;
    [|discriminate]. simpl.
  intros [= <-]. simpl. rewrite !assoc_app.
  assert (A0 : assoc (str "properties") (opt_field "type" type) = None)
    by (destruct type; reflexivity).
  assert (A1 : assoc (str "properties") enum = None).
  { apply spread_if_ok in E1 as [[_ ->]|[_ [= <-]]]; [reflexivity|].
    destruct (field "enum" value); reflexivity. }
  assert (A2 : assoc (str "properties") items = None).
  { apply spread_if_ok in E2 as [[_ ->]|[_ E2]]; [reflexivity|].
    destruct (simplifySchema (field "items" value)) as [r|]; [|discriminate].
    simpl in E2. injection E2 as <-. destruct r; reflexivity. }
  rewrite A0, A1, A2.
  apply spread_if_ok in E3 as [[_ ->]|[T E3]]; [reflexivity|].
  destruct (truthy_some _ T) as [nested N]. rewrite N in E3.
  destruct (simplifySchema (Some nested)) as [r|] eqn:S; [|discriminate].
  simpl in E3.
  destruct (member_of "properties" r) as [p|] eqn:M; [|discriminate].
  simpl in E3. injection E3 as <-.
  now rewrite (simplifySchema_no_properties _ _ _ (Hn _ N) S M).
Qed.

(** X3: simplifySchema does not descend into the properties of a property:
    it passes the nested map itself to the recursive call and reads
    [properties] off the result. So unless a nested map has a member that is
    itself called [properties], every property of the result is flat: it has
    no [properties] member any more. *)
Theorem nested_properties_dropped (fields props : list (jsstring * json))
  (out : json) :
  simplifySchema (Some (JObj fields)) = Ok (Some out) ->
  assoc (str "properties") fields = Some (JObj props) ->
  (forall k value nested,
      In (k, value) props -> field "properties" value = Some nested ->
      field "properties" nested = None) ->
  exists ps,
    field "properties" out = Some (JObj ps)
    /\ forall k e, In (k, e) ps -> field "properties" e = None.
Proof.
  intros S P Hn.
  destruct (simplifySchema_object (JObj fields) (JObj props) _ eq_refl P eq_refl S)
    as [entries [newProps [E [Hm [= ->]]]]].
  simpl in E. injection E as <-.
  eexists. split; [simpl; apply assoc_set_field|].
  intros k e Hin. apply merge_fields_In in Hin as [[]|Hin].
  destruct (map_result_In _ _ _ _ Hm Hin) as [[k' value] [Hv Fv]].
  simpl in Fv.
  destruct (simplify_property simplifySchema value) as [p|] eqn:Sp;
    [|discriminate].
  injection Fv as -> ->.
  apply (simplify_property_flat value); [|exact Sp].
  intros nested. apply (Hn k value nested Hv).
Qed.

Lemma nested_properties_dropped_witness :
  simplifySchema (Some nested_schema)
  = Ok (Some (JObj [(str "type", JStr (str "object"));
                    (str "description", JStr (str "Filter options"));
                    (str "properties",
                     JObj [(str "filter", JObj [(str "type", JStr (str "object"))]);
                           (str "tags",
                            JObj [(str "type", JStr (str "array"));
                                  (str "items",
                                   JObj [(str "type", JStr (str "string"));
                                         (str "description", JStr (str "One tag"))])])]);
                    (str "required", JArr [JStr (str "filter")])]))
  /\ exists ps,
       field "properties"
         (match simplifySchema (Some nested_schema) with
          | Ok (Some out) => out
          | _ => JNull
          end) = Some (JObj ps)
       /\ forall k e, In (k, e) ps -> field "properties" e = None.
Proof.
  split; [vm_compute; reflexivity|].
  refine (nested_properties_dropped (members nested_schema)
            (match field "properties" nested_schema with
             | Some p => members p
             | None => []
             end) _ _ _ _).
  - vm_compute. reflexivity.
  - vm_compute. reflexivity.
  - intros k value nested Hin F.
    vm_compute in Hin. destruct Hin as [E|[E|[]]]; injection E as <- <-;
      vm_compute in F; [|discriminate].
    injection F as <-. reflexivity.
Defined.

Lemma simplify_throws (n : nat) :
  forall (schema : option json) (e : js_error),
    simplify n schema = Throw e -> e = TypeError.
Proof.
  induction n as [|n IH]; intros schema e; simpl; [discriminate|].
  unfold simplify_step.
  destruct (negb (truthy schema) || negb (is_object schema)); [discriminate|].
  cbv zeta.
  destruct (truthy (assoc (str "properties") (spread schema))); [|discriminate].
  destruct (object_entries _) as [entries|e0] eqn:E; simpl.
  - destruct (map_result _ entries) as [newProps|e1] eqn:Hm; simpl;
      [discriminate|].
    intros [= <-]. clear E. revert e1 Hm.
    induction entries as [|[k value] entries IHe]; simpl; intros e1;
      [discriminate|].
    destruct (simplify_property (simplify n) value) as [p|e2] eqn:Sp; simpl.
    + destruct (map_result _ entries) as [bs|e3]; simpl; [discriminate|].
      intros [= <-]. now apply IHe.
    + intros [= <-]. revert Sp. unfold simplify_property.
      destruct value; simpl; try discriminate;
        unfold spread_if;
        repeat match goal with
               | |- context [truthy ?v] => destruct (truthy v); simpl
               | |- context [simplify n ?v] =>
                   let X := fresh "X" in
                   destruct (simplify n v) as [?|?] eqn:X; simpl;
                   [|apply IH in X; subst]
               | |- context [member_of ?k ?v] =>
                   let X := fresh "X" in
                   destruct (member_of k v) as [?|?] eqn:X; simpl;
                   [|destruct v as [[]|]; simpl in X; congruence]
               end; congruence.
  - intros [= <-].
    destruct (assoc (str "properties") (spread schema)) as [[]|];
      simpl in E; congruence.
Qed.

Lemma simplifySchema_throws (schema : option json) (e : js_error) :
  simplifySchema schema = Throw e -> e = TypeError.
Proof. apply simplify_throws. Qed.

Lemma simplifySchema_null_property (fields props : list (jsstring * json))
  (k : jsstring) :
  assoc (str "properties") fields = Some (JObj props) ->
  In (k, JNull) props ->
  simplifySchema (Some (JObj fields)) = Throw TypeError.
Proof.
  intros P Hin.
  destruct (simplifySchema (Some (JObj fields))) as [out|e] eqn:S.
  - exfalso.
    destruct (simplifySchema_object (JObj fields) (JObj props) _ eq_refl P eq_refl S)
      as [entries [newProps [E [Hm _]]]].
    simpl in E. injection E as <-.
    destruct (map_result_throw
                (fun entry : jsstring * json =>
                   p <- simplify_property simplifySchema (snd entry) ;;
                   Ok (fst entry, p))
                props (k, JNull) TypeError Hin eq_refl)
      as [a' [e' [_ [_ X]]]].
    congruence.
  - now rewrite (simplifySchema_throws _ _ S).
Qed.

Lemma optimizeTools_throws (items : list json) (tool : json) (e : js_error) :
  In tool items ->
  optimize_tool simplifySchema tool = Throw e ->
  exists e', optimizeTools simplifySchema (Some (JArr items)) = Throw e'.
Proof.
  intros Hin Ht. simpl.
  destruct (map_result_throw _ _ _ _ Hin Ht) as [a' [e' [_ [_ X]]]].
  eauto.
Qed.

(** X4: optimizeTools has no [try]: a backend tool whose input schema holds a
    property that is [null] makes simplifySchema throw a TypeError, and
    [tools/list] then answers the error -32603 instead of the list; the
    tools of the plugins and the management tools are not listed either. *)
Theorem null_property_fails_tools_list (R : Runtime) (env : environment)
  (backend : jsstring -> option json -> completion)
  (request : json) (s : server) (items : list json) (tool : json)
  (fields props : list (jsstring * json)) (k : jsstring) :
  field "method" request = Some (JStr (str "tools/list")) ->
  githubTools s = Some (JArr items) ->
  In tool items ->
  field "inputSchema" tool = Some (JObj fields) ->
  assoc (str "properties") fields = Some (JObj props) ->
  In (k, JNull) props ->
  simplifySchema (Some (JObj fields)) = Throw TypeError
  /\ exists e,
       handleRequest simplifySchema env backend request s
       = (Ok (Failure (field "id" request) (-32603) (MessageOf e)), s).
Proof.
  intros Hm Hg Hin Hs P Hn.
  pose proof (simplifySchema_null_property _ _ _ P Hn) as S.
  split; [exact S|].
  assert (T : exists e, optimize_tool simplifySchema tool = Throw e).
  { unfold optimize_tool. destruct tool; try discriminate. simpl member.
    simpl. destruct (compress_value _) as [d|e]; simpl; [|eauto].
    simpl in Hs. rewrite Hs, S. simpl. eauto. }
  destruct T as [e0 T].
  destruct (optimizeTools_throws _ _ _ Hin T) as [e X].
  exists e. destruct request; try discriminate.
  unfold handleRequest. rewrite Hm. simpl is_method. cbv iota.
  unfold tools_list. rewrite Hg, X. reflexivity.
Qed.

Lemma null_property_fails_tools_list_witness :
  simplifySchema (Some null_property_schema) = Throw TypeError
  /\ exists e,
       @handleRequest simplifySchema sample_runtime sample_env backend_rejects
         (request_of 7 "tools/list" []) poisoned_server
       = (Ok (Failure (field "id" (request_of 7 "tools/list" [])) (-32603)
                (MessageOf e)), poisoned_server).
Proof.
  refine (null_property_fails_tools_list sample_runtime sample_env
            backend_rejects (request_of 7 "tools/list" []) poisoned_server
            _ (JObj [(str "name", JStr (str "list_repos"));
                     (str "inputSchema", null_property_schema)])
            (members null_property_schema) [(str "owner", JNull)] (str "owner")
            eq_refl eq_refl _ eq_refl eq_refl _).
  - right. left. reflexivity.
  - left. reflexivity.
Defined.

(** ** compressDescription: what the result looks like *)

Section CompressShape.

Lemma collapse_go_spaced (s : jsstring) (b : bool) :
  Forall (fun c => is_space c = true -> c = 32%N) (collapse_go b s).
Proof.
  revert b. induction s as [|c t IH]; intros b; simpl; [constructor|].
  destruct (is_space c) eqn:E.
  - destruct b; [apply IH|]. constructor; [reflexivity|apply IH].
  - constructor; [congruence|apply IH].
Qed.

(** After a white-space character, the collapsed text does not go on with
    white space. *)
Lemma collapse_go_head (s : jsstring) :
  match collapse_go true s with
  | [] => True
  | c :: _ => is_space c = false
  end.
Proof.
  induction s as [|c t IH]; simpl; [exact I|].
  destruct (is_space c) eqn:E; [exact IH|exact E].
Qed.

Lemma collapse_go_pairs (s : jsstring) (b : bool) (l1 l2 : jsstring) (x y : N) :
  collapse_go b s = l1 ++ x :: y :: l2 ->
  is_space x = true -> is_space y = false.
Proof.
  revert b l1. induction s as [|c t IH]; intros b l1; simpl.
  - destruct l1; discriminate.
  - destruct (is_space c) eqn:E.
    + destruct b; [apply IH|].
      destruct l1 as [|z l1]; simpl.
      * intros [= <- E2] _. pose proof (collapse_go_head t) as Hd.
        rewrite E2 in Hd. exact Hd.
      * intros [= _ E2]. apply (IH _ _ E2).
    + destruct l1 as [|z l1]; simpl.
      * intros [= <- _]. congruence.
      * intros [= _ E2]. apply (IH _ _ E2).
Qed.

Lemma collapse_spaces_single (s : jsstring) : single_spaced (collapse_spaces s).
Proof.
  split; [apply collapse_go_spaced|].
  intros l1 l2 a b. apply collapse_go_pairs.
Qed.

(** Normalised white space is kept by every contiguous part of the text. *)
Lemma single_spaced_part (pre s post : jsstring) :
  single_spaced (pre ++ s ++ post) -> single_spaced s.
Proof.
  intros [F P]. split.
  - apply Forall_app in F as [_ F]. now apply Forall_app in F as [F _].
  - intros l1 l2 a b ->. apply (P (pre ++ l1) (l2 ++ post)).
    now rewrite <- !app_assoc.
Qed.

Lemma trimStart_suffix (s : jsstring) : exists pre, s = pre ++ trimStart s.
Proof.
  induction s as [|c t [pre IH]]; simpl; [now exists []|].
  destruct (is_space c); [|now exists []].
  exists (c :: pre). simpl. now rewrite <- IH.
Qed.

Lemma trim_part (s : jsstring) : exists pre post, s = pre ++ trim s ++ post.
Proof.
  unfold trim, trimEnd.
  destruct (trimStart_suffix s) as [pre E].
  destruct (trimStart_suffix (rev (trimStart s))) as [post E'].
  exists pre, (rev post). rewrite <- rev_app_distr, <- E', rev_involutive.
  exact E.
Qed.

Lemma first_sentence_prefix (s : jsstring) :
  exists post, s = first_sentence s ++ post.
Proof.
  induction s as [|c t [post IH]]; simpl; [now exists []|].
  destruct (is_sentence_end c); [now exists (c :: t)|].
  exists post. simpl. now rewrite <- IH.
Qed.

Lemma first_sentence_clean (s : jsstring) :
  Forall (fun c => is_sentence_end c = false) (first_sentence s).
Proof.
  induction s as [|c t IH]; simpl; [constructor|].
  destruct (is_sentence_end c) eqn:E; constructor; assumption.
Qed.

Lemma trimStart_head (s : jsstring) :
  match trimStart s with
  | [] => True
  | c :: _ => is_space c = false
  end.
Proof.
  induction s as [|c t IH]; simpl; [exact I|].
  destruct (is_space c) eqn:E; [exact IH|exact E].
Qed.

Lemma trim_head (s : jsstring) :
  match trim s with
  | [] => True
  | c :: _ => is_space c = false
  end.
Proof.
  unfold trim, trimEnd.
  pose proof (trimStart_head s) as Hs.
  destruct (trimStart_suffix (rev (trimStart s))) as [pre E].
  apply (f_equal (@rev N)) in E. rewrite rev_involutive, rev_app_distr in E.
  rewrite E in Hs.
  destruct (rev (trimStart (rev (trimStart s)))) as [|c r]; [exact I|exact Hs].
Qed.

(** The text before the truncation at 100 code units. *)
Lemma compressDescription_firstn (desc : jsstring) :
  compressDescription desc
  = firstn 100 (first_sentence
                  (trim (collapse_spaces (compress_replacements desc)))).
Proof.
  unfold compressDescription. destruct desc as [|c t]; [reflexivity|].
  cbv zeta.
  destruct (Nat.ltb_spec 100
              (length (first_sentence
                         (trim (collapse_spaces (compress_replacements (c :: t)))))));
    [reflexivity|].
  symmetry. apply firstn_all2. lia.
Qed.

End CompressShape.

(** X5: whatever the description, the compressed text has at most 100 code
    units, holds none of the sentence terminators [.], [!] and [?], does not
    start with white space, and its white space is normalised: only single
    plain spaces. *)
Theorem compressDescription_shape (desc : jsstring) :
  length (compressDescription desc) <= 100
  /\ Forall (fun c => is_sentence_end c = false) (compressDescription desc)
  /\ match compressDescription desc with
     | [] => True
     | c :: _ => is_space c = false
     end
  /\ single_spaced (compressDescription desc).
Proof.
  rewrite compressDescription_firstn.
  set (t := trim (collapse_spaces (compress_replacements desc))).
  split; [apply firstn_le_length|].
  split.
  { pose proof (first_sentence_clean t) as C.
    rewrite <- (firstn_skipn 100 (first_sentence t)) in C.
    now apply Forall_app in C as [C _]. }
  split.
  { pose proof (trim_head (collapse_spaces (compress_replacements desc))) as Hd.
    fold t in Hd. destruct t as [|c r]; [exact I|]. simpl.
    destruct (is_sentence_end c); [exact I|]. exact Hd. }
  destruct (trim_part (collapse_spaces (compress_replacements desc)))
    as [pre [post E]]. fold t in E.
  destruct (first_sentence_prefix t) as [post' E'].
  apply (single_spaced_part pre _ (skipn 100 (first_sentence t) ++ post' ++ post)).
  rewrite (app_assoc (firstn _ _) (skipn _ _)), firstn_skipn.
  rewrite (app_assoc (first_sentence t)), <- E', <- E.
  apply collapse_spaces_single.
Qed.

(** ** optimizeTools *)

Lemma compress_value_length (desc : option json) (d : jsstring) :
  compress_value desc = Ok d -> length d <= 100.
Proof.
  unfold compress_value. destruct (negb (truthy desc)).
  - intros [= <-]. simpl. lia.
  - destruct desc as [[]|]; try discriminate. intros [= <-].
    rewrite compressDescription_firstn. apply firstn_le_length.
Qed.

Lemma optimize_tool_shape (tool o : json) :
  optimize_tool simplifySchema tool = Ok o ->
  field "name" o = field "name" tool
  /\ (exists d, compress_value (field "description" tool) = Ok d
                /\ field "description" o = Some (JStr d)
                /\ length d <= 100)
  /\ incl (map fst (members o)) optimized_keys.
Proof.
  unfold optimize_tool.
  destruct (member "name" tool) as [name|] eqn:Hn; [|discriminate]. simpl.
  destruct (compress_value (field "description" tool)) as [d|] eqn:Hd;
    [|discriminate]. simpl.
  destruct (simplifySchema (field "inputSchema" tool)) as [schema|];
    [|discriminate]. simpl.
  intros [= <-].
  assert (name = field "name" tool)
    by (destruct tool; simpl in Hn |- *; congruence).
  subst name. split; [|split].
  - destruct (field "name" tool), schema; vm_compute; reflexivity.
  - exists d. split; [reflexivity|]. split.
    + destruct (field "name" tool), schema; vm_compute; reflexivity.
    + apply (compress_value_length _ _ Hd).
  - simpl. destruct (field "name" tool), schema; simpl;
      intros x Hx; simpl in Hx; unfold optimized_keys; simpl; tauto.
Qed.

(** X6: optimizeTools keeps the tools in number and order, and of each tool
    only three members: its [name] unchanged, a [description] that is the
    compressed one (a string of at most 100 code units, even where the tool
    had none) and its [inputSchema]; every other member of the backend
    descriptor (a title, annotations, an output schema) is dropped. *)
Theorem optimizeTools_shape (items out : list json) :
  optimizeTools simplifySchema (Some (JArr items)) = Ok out ->
  Forall2 (fun tool o =>
             field "name" o = field "name" tool
             /\ (exists d, compress_value (field "description" tool) = Ok d
                           /\ field "description" o = Some (JStr d)
                           /\ length d <= 100)
             /\ incl (map fst (members o)) optimized_keys)
          items out.
Proof.
  simpl. revert out. induction items as [|tool items IH]; simpl; intros out.
  - intros [= <-]. constructor.
  - destruct (optimize_tool simplifySchema tool) as [o|] eqn:Ho; [|discriminate].
    simpl. destruct (map_result _ items) as [os|]; [|discriminate]. simpl.
    intros [= <-]. constructor; [now apply optimize_tool_shape|now apply IH].
Qed.

Lemma optimizeTools_shape_witness :
  exists out,
    optimizeTools simplifySchema (githubTools sample_server) = Ok out
    /\ Forall2 (fun tool o =>
                  field "name" o = field "name" tool
                  /\ (exists d, compress_value (field "description" tool) = Ok d
                                /\ field "description" o = Some (JStr d)
                                /\ length d <= 100)
                  /\ incl (map fst (members o)) optimized_keys)
               (match githubTools sample_server with
                | Some (JArr items) => items
                | _ => []
                end) out.
Proof.
  eexists. split; [vm_compute; reflexivity|].
  apply optimizeTools_shape. vm_compute. reflexivity.
Defined.

(** ** The framed channel, again *)

Section Channel.

Context `{Runtime}.

Lemma last_split_on_clean (sep : N) (s : jsstring) :
  ~ In sep (last (split_on sep s) []).
Proof.
  induction s as [|c t IH]; simpl; [tauto|].
  destruct (N.eqb_spec c sep) as [E|E].
  - destruct (split_on sep t) as [|p r] eqn:S; [exact (fun x => x)|exact IH].
  - destruct (split_on sep t) as [|p r] eqn:S; simpl.
    + now destruct (split_on_nonempty sep t).
    + destruct r as [|q r]; simpl in *; [|exact IH].
      intros [X|X]; [congruence|auto].
Qed.

Lemma set_buffer_visit (b : jsstring) (message : json) (st : backend)
  (entry : N * handler_kind) :
  visit_handler message (set_buffer b st) entry
  = set_buffer b (visit_handler message st entry).
Proof.
  unfold visit_handler. destruct entry as [id h]. simpl.
  destruct (map_has id (mcpHandlers st)); [|reflexivity].
  destruct (run_handler h message) as [[|c w]|]; reflexivity.
Qed.

Lemma set_buffer_fold_visit (b : jsstring) (message : json)
  (l : list (N * handler_kind)) (st : backend) :
  fold_left (visit_handler message) l (set_buffer b st)
  = set_buffer b (fold_left (visit_handler message) l st).
Proof.
  revert st. induction l as [|e l IH]; intros st; simpl; [reflexivity|].
  now rewrite set_buffer_visit, IH.
Qed.

Lemma set_buffer_dispatch (b : jsstring) (st : backend) (message : json) :
  dispatch (set_buffer b st) message = set_buffer b (dispatch st message).
Proof. unfold dispatch. apply set_buffer_fold_visit. Qed.

Lemma set_buffer_handle_line (b : jsstring) (st : backend) (line : jsstring) :
  handle_line (set_buffer b st) line = set_buffer b (handle_line st line).
Proof.
  unfold handle_line. destruct (trim line); [reflexivity|].
  destruct (JSON_parse line); [apply set_buffer_dispatch|reflexivity].
Qed.

Lemma set_buffer_lines (b : jsstring) (lines : list jsstring) (st : backend) :
  fold_left handle_line lines (set_buffer b st)
  = set_buffer b (fold_left handle_line lines st).
Proof.
  revert st. induction lines as [|l lines IH]; intros st; simpl; [reflexivity|].
  now rewrite set_buffer_handle_line, IH.
Qed.

Lemma set_buffer_twice (a b : jsstring) (st : backend) :
  set_buffer a (set_buffer b st) = set_buffer a st.
Proof. reflexivity. Qed.

Lemma set_buffer_same (st : backend) : set_buffer (mcpBuffer st) st = st.
Proof. destruct st; reflexivity. Qed.

Lemma mcpBuffer_lines (lines : list jsstring) (st : backend) :
  mcpBuffer (fold_left handle_line lines st) = mcpBuffer st.
Proof.
  rewrite <- (set_buffer_same st) at 1.
  rewrite set_buffer_lines. reflexivity.
Qed.

(** The listener on a text in two parts. *)
Lemma handle_text_app (a b : jsstring) (st : backend) :
  let step text st :=
    fold_left handle_line (removelast (split_on 10 (mcpBuffer st ++ text)))
      (set_buffer (last (split_on 10 (mcpBuffer st ++ text)) []) st) in
  step (a ++ b) st = step b (step a st).
Proof.
  cbv beta zeta. rewrite mcpBuffer_lines. simpl mcpBuffer.
  rewrite app_assoc, split_on_app.
  set (la := split_on 10 (mcpBuffer st ++ a)).
  set (lb := split_on 10 (last la [] ++ b)).
  assert (Nb : lb <> []) by apply split_on_nonempty.
  rewrite last_app_nonempty by exact Nb.
  assert (Rl : removelast (removelast la ++ lb) = removelast la ++ removelast lb).
  { clear -Nb. induction (removelast la) as [|x l IH]; simpl; [reflexivity|].
    rewrite IH. destruct (l ++ lb) eqn:E; [|reflexivity].
    apply app_eq_nil in E as [_ E]. contradiction. }
  rewrite Rl, fold_left_app.
  rewrite !set_buffer_lines. rewrite set_buffer_twice. reflexivity.
Qed.

Lemma handleGitHubMcpOutput_app (a b : list N) (st : backend) :
  ends_on_boundary a ->
  handleGitHubMcpOutput (a ++ b) st
  = handleGitHubMcpOutput b (handleGitHubMcpOutput a st).
Proof.
  intros A. unfold handleGitHubMcpOutput.
  rewrite (Buffer_toString_app a b A).
  apply (handle_text_app (Buffer_toString a) (Buffer_toString b) st).
Qed.

Lemma handleGitHubMcpOutput_nil (st : backend) :
  ~ In 10%N (mcpBuffer st) -> handleGitHubMcpOutput [] st = st.
Proof.
  intros C. unfold handleGitHubMcpOutput. simpl Buffer_toString.
  rewrite app_nil_r, (split_on_whole _ _ C). simpl. apply set_buffer_same.
Qed.

Lemma mcpBuffer_data (chunk : list N) (st : backend) :
  ~ In 10%N (mcpBuffer (handleGitHubMcpOutput chunk st)).
Proof.
  unfold handleGitHubMcpOutput. rewrite mcpBuffer_lines. simpl.
  apply last_split_on_clean.
Qed.

Lemma mcpBuffer_fire_timer (id : N) (st : backend) :
  mcpBuffer (fire_timer id st) = mcpBuffer st.
Proof.
  unfold fire_timer. destruct (find _ (timers st)) as [t|]; [|reflexivity].
  unfold timeout_callback. simpl.
  destruct (mem_N (tm_handler t) (responded st)); reflexivity.
Qed.

Lemma mcpBuffer_step (st : backend) (e : event) :
  ~ In 10%N (mcpBuffer st) -> ~ In 10%N (mcpBuffer (step st e)).
Proof.
  intros C. destruct e; simpl; try exact C.
  - apply mcpBuffer_data.
  - now rewrite mcpBuffer_fire_timer.
Qed.

Lemma mcpBuffer_run (evs : list event) : ~ In 10%N (mcpBuffer (run evs)).
Proof.
  unfold run. rewrite <- (rev_involutive evs).
  induction (rev evs) as [|e l IH]; simpl; [tauto|].
  rewrite fold_left_app. simpl. now apply mcpBuffer_step.
Qed.

Lemma aligned_chunks_fold (chunks : list (list N)) (st : backend) :
  Forall ends_on_boundary chunks ->
  ~ In 10%N (mcpBuffer st) ->
  fold_left (fun st chunk => handleGitHubMcpOutput chunk st) chunks st
  = handleGitHubMcpOutput (concat chunks) st.
Proof.
  intros A. revert st. induction A as [|c chunks Hc A IH]; intros st C; simpl.
  - symmetry. now apply handleGitHubMcpOutput_nil.
  - rewrite (handleGitHubMcpOutput_app _ _ _ Hc). apply IH, mcpBuffer_data.
Qed.

End Channel.

(** X7: the framing of both line readers (the ['data'] listener of the
    backend, once the chunk is decoded, and the one of standard input) does
    not depend on how the text is cut into chunks: pushing the pieces one by
    one gives the records, in order, and the pending fragment that pushing
    their concatenation at once gives. The fragment kept never holds a line
    feed, and neither does [mcpBuffer], after any sequence of events. *)
Theorem text_chunking_invariant (R : Runtime) (texts : list jsstring)
  (evs : list event) :
  push_texts [] texts = push_text [] (concat texts)
  /\ ~ In 10%N (snd (push_texts [] texts))
  /\ ~ In 10%N (mcpBuffer (run evs)).
Proof.
  rewrite (push_texts_whole texts []) by reflexivity.
  split; [reflexivity|]. split; [|apply mcpBuffer_run].
  simpl. apply last_split_on_clean.
Qed.

(** X8: handleGitHubMcpOutput on chunks that end where a character ends:
    after any history, receiving the chunks one after the other leaves the
    module (buffer, handlers, promises settled, lines written) in the state
    that receiving their concatenation in one chunk does. *)
Theorem aligned_chunks_same_state (R : Runtime) (evs : list event)
  (chunks : list (list N)) :
  Forall ends_on_boundary chunks ->
  run (evs ++ map EvData chunks) = run (evs ++ [EvData (concat chunks)]).
Proof.
  intros A. unfold run. rewrite !fold_left_app. simpl.
  change (fold_left step evs backend_init) with (run evs).
  rewrite <- (aligned_chunks_fold chunks _ A (mcpBuffer_run evs)).
  generalize (run evs). clear A.
  induction chunks as [|c chunks IH]; intros st; simpl; [reflexivity|].
  apply IH.
Qed.

Lemma aligned_chunks_same_state_witness :
  @run sample_runtime
    (sample_call
     ++ map EvData [firstn 10 sample_reply_text;
                    skipn 10 sample_reply_text ++ [10%N]])
  = @run sample_runtime
      (sample_call ++ [EvData (sample_reply_text ++ [10%N])])
  /\ settled (@run sample_runtime
                (sample_call ++ [EvData (sample_reply_text ++ [10%N])]))
     = [(0%N, Resolved (Some (JObj [])))].
Proof.
  split; [|vm_compute; reflexivity].
  refine (eq_trans
            (aligned_chunks_same_state sample_runtime sample_call
               [firstn 10 sample_reply_text;
                skipn 10 sample_reply_text ++ [10%N]] _) _).
  - repeat constructor.
  - vm_compute. reflexivity.
Defined.

(** ** The handler registry, again *)

Section RegistryMore.

Context `{Runtime}.

Lemma visit_not_mine (message : json) (st : backend) (entry : N * handler_kind) :
  (forall c w, run_handler (snd entry) message <> Ok (Mine c w)) ->
  visit_handler message st entry = st.
Proof.
  intros Hn. unfold visit_handler. destruct entry as [id h]. simpl in Hn.
  destruct (map_has id (mcpHandlers st)); [|reflexivity].
  destruct (run_handler h message) as [[|c w]|]; try reflexivity.
  now destruct (Hn c w).
Qed.

Lemma run_handler_needs_number (h : handler_kind) (message : json)
  (c : completion) (w : list outgoing) :
  run_handler h message = Ok (Mine c w) ->
  exists n, field "id" message = Some (JNum n).
Proof.
  destruct message; try (destruct h; discriminate).
  unfold run_handler, member, bind.
  destruct (field "id" (JObj fields)) as [[]|] eqn:F;
    try (destruct h; simpl; discriminate).
  eauto.
Qed.

End RegistryMore.

(** X9: a line of the backend that is not a reply with a numeric [id] (a
    notification, a reply whose id is a string, the literal [null] on which
    every handler throws) settles nothing and removes no handler: the
    dispatch leaves the module as it was. *)
Theorem unclaimed_message_ignored (st : backend) (message : json) :
  (forall n, field "id" message <> Some (JNum n)) ->
  dispatch st message = st.
Proof.
  intros Hn. unfold dispatch.
  generalize (mcpHandlers st) at 1. intros l. revert st.
  induction l as [|e l IH]; intros st; simpl; [reflexivity|].
  rewrite visit_not_mine; [apply IH|].
  intros c w E. destruct (run_handler_needs_number _ _ _ _ E) as [n F].
  exact (Hn n F).
Qed.

Lemma unclaimed_message_ignored_witness :
  dispatch (@run sample_runtime sample_call) JNull = @run sample_runtime sample_call
  /\ mcpHandlers (@run sample_runtime sample_call) = [(0%N, HCall 1000)].
Proof.
  split; [|reflexivity].
  apply (unclaimed_message_ignored (@run sample_runtime sample_call) JNull).
  intros n. discriminate.
Defined.

Lemma map_delete_fresh {A : Type} (id : N) (m : list (N * A)) (a : A) :
  map_has id m = false -> map_delete id (m ++ [(id, a)]) = m.
Proof.
  unfold map_has, map_delete. induction m as [|[k v] m IH]; simpl.
  - intros _. now rewrite N.eqb_refl.
  - destruct (N.eqb k id); simpl; [discriminate|].
    intros E. now rewrite (IH E).
Qed.

Lemma NoDup_snoc {A : Type} (l : list A) (x : A) :
  NoDup l -> ~ In x l -> NoDup (l ++ [x]).
Proof.
  induction 1 as [|y l Hy Hl IH]; simpl; intros Hx.
  - constructor; [tauto|constructor].
  - constructor.
    + intros Hin. apply in_app_or in Hin as [Hin|[->|[]]]; tauto.
    + apply IH. tauto.
Qed.

(** X10: registerMcpHandler hands out a fresh id each time: after any
    history, the id it returns is not in use, the ids in the map stay
    pairwise distinct and below [nextHandlerId], and unregistering the id
    again gives back the map of handlers there was. *)
Theorem register_unregister_round_trip (R : Runtime) (evs : list event)
  (k : handler_kind) :
  let st := run evs in
  let id := fst (registerMcpHandler k st) in
  let st' := snd (registerMcpHandler k st) in
  map_has id (mcpHandlers st) = false
  /\ In (id, k) (mcpHandlers st')
  /\ NoDup (map fst (mcpHandlers st'))
  /\ (forall h, In h (map fst (mcpHandlers st')) -> (h < nextHandlerId st')%N)
  /\ mcpHandlers (unregisterMcpHandler id st') = mcpHandlers st.
Proof.
  cbv zeta. simpl.
  pose proof (registry_inv_run evs) as I.
  assert (F : map_has (nextHandlerId (run evs)) (mcpHandlers (run evs)) = false).
  { specialize (I (nextHandlerId (run evs))).
    rewrite N.ltb_irrefl in I. unfold observe in I. congruence. }
  split; [exact F|]. split; [apply in_or_app; right; now left|]. split.
  { rewrite map_app. simpl. apply NoDup_snoc; [apply NoDup_handlers_run|].
    intros Hin. apply map_has_In in Hin. congruence. }
  split.
  { intros h Hin. rewrite map_app in Hin. apply in_app_or in Hin as [Hin|Hin].
    - apply map_has_In in Hin. specialize (I h).
      destruct (N.ltb_spec h (nextHandlerId (run evs))) as [L|L]; [lia|].
      unfold observe in I. congruence.
    - simpl in Hin. destruct Hin as [<-|[]]. lia. }
  now apply map_delete_fresh.
Qed.

(** X11: callGitHubTool takes [Date.now()] for the id of its request. Two
    calls made within the same millisecond wait for the same id: the first
    reply that carries it settles both promises, with the same outcome, and
    removes both handlers. *)
Theorem colliding_calls_share_reply (R : Runtime) (evs : list event)
  (h1 h2 : N) (callId : Z) (message : json) (c : completion)
  (w : list outgoing) :
  h1 <> h2 ->
  In (h1, HCall callId) (mcpHandlers (run evs)) ->
  In (h2, HCall callId) (mcpHandlers (run evs)) ->
  run_handler (HCall callId) message = Ok (Mine c w) ->
  In (h1, c) (settled (dispatch (run evs) message))
  /\ In (h2, c) (settled (dispatch (run evs) message))
  /\ map_has h1 (mcpHandlers (dispatch (run evs) message)) = false
  /\ map_has h2 (mcpHandlers (dispatch (run evs) message)) = false.
Proof.
  intros _ H1 H2 Hm.
  destruct (reply_settles_pending (run evs) h1 _ message c w
              (NoDup_handlers_run evs) H1 Hm) as [A1 B1].
  destruct (reply_settles_pending (run evs) h2 _ message c w
              (NoDup_handlers_run evs) H2 Hm) as [A2 B2].
  auto.
Qed.

Lemma colliding_calls_share_reply_witness :
  settled (@run sample_runtime
             (colliding_calls ++ [EvData (sample_reply_text ++ [10%N])]))
  = [(1%N, Resolved (Some (JObj []))); (0%N, Resolved (Some (JObj [])))]
  /\ In (0%N, Resolved (Some (JObj [])))
        (settled (dispatch (@run sample_runtime colliding_calls) sample_reply))
  /\ In (1%N, Resolved (Some (JObj [])))
        (settled (dispatch (@run sample_runtime colliding_calls) sample_reply)).
Proof.
  split; [vm_compute; reflexivity|].
  destruct (colliding_calls_share_reply sample_runtime colliding_calls 0 1 1000
              sample_reply (Resolved (Some (JObj []))) [])
    as [A [B _]].
  - discriminate.
  - left. reflexivity.
  - right. left. reflexivity.
  - reflexivity.
  - split; [exact A|exact B].
Defined.

(** ** The request dispatcher, again *)

Section Replies.

Context `{Runtime}.
Variable env : environment.
Variable backend : jsstring -> option json -> completion.

Lemma handleRequest_id (request : json) (s s' : server) (r : response) :
  handleRequest simplifySchema env backend request s = (Ok r, s') ->
  response_id r = field "id" request.
Proof.
  unfold handleRequest. destruct request; try discriminate;
    repeat match goal with
           | |- context [if ?b then _ else _] => destruct b
           | |- context [match tools_list ?f ?x with _ => _ end] =>
               destruct (tools_list f x)
           | |- context [match tools_call ?e ?b ?p ?x with _ => _ end] =>
               destruct (tools_call e b p x) as [[[? ?]|?] ?]
           end; intros [= <- _]; reflexivity.
Qed.

End Replies.

(** X12: the loop over the lines of standard input writes a reply for a line
    exactly when the line is not blank, parses, and is not the literal
    [null]; the reply then carries the [id] member of the request, absent
    when the request has none (a notification is answered too). *)
Theorem process_line_replies (R : Runtime) (env : environment)
  (backend : jsstring -> option json -> completion)
  (line : jsstring) (s : server) :
  (fst (process_line simplifySchema env backend line s) = None
   <-> trim line = [] \/ JSON_parse line = None \/ JSON_parse line = Some JNull)
  /\ (forall request r,
        JSON_parse line = Some request ->
        fst (process_line simplifySchema env backend line s) = Some r ->
        response_id r = field "id" request).
Proof.
  unfold process_line. destruct (trim line) as [|c t] eqn:T.
  { split; [split; auto|]. intros request r _. discriminate. }
  destruct (JSON_parse line) as [request|] eqn:P.
  2:{ split; [split; auto|]. intros request r. discriminate. }
  destruct (handleRequest simplifySchema env backend request s) as [[r|e] s'] eqn:Hr.
  - split.
    + split; [discriminate|]. intros [X|[X|X]]; try discriminate.
      injection X as ->. discriminate Hr.
    + intros request' r' [= <-] [= <-]. apply (handleRequest_id _ _ _ _ _ _ Hr).
  - assert (N : request = JNull).
    { assert (D : request = JNull \/ request <> JNull)
        by (destruct request; [left; reflexivity|right; discriminate..]).
      destruct D as [D|D]; [exact D|].
      destruct (handleRequest_replies simplifySchema env backend request s D)
        as [r [s'' X]]. congruence. }
    split; [split; [intros _; right; right; now rewrite N|reflexivity]|].
    intros request' r' _. discriminate.
Qed.

(** X13: a [tools/call] request without usable parameters ([params] missing
    or [null], or a [name] that is not a string) is answered with the error
    -32603 carrying the TypeError; nothing is called and the state of the
    server does not change. *)
Theorem malformed_call_is_internal_error (R : Runtime) (env : environment)
  (backend : jsstring -> option json -> completion)
  (request : json) (s : server) :
  field "method" request = Some (JStr (str "tools/call")) ->
  (forall toolName,
      opt_member "name" (field "params" request) <> Some (JStr toolName)) ->
  handleRequest simplifySchema env backend request s
  = (Ok (Failure (field "id" request) (-32603) (MessageOf TypeError)), s).
Proof.
  intros Hm Hn. destruct request; try discriminate.
  unfold handleRequest. rewrite Hm. simpl is_method. cbv iota.
  unfold tools_call.
  destruct (field "params" (JObj fields)) as [p|]; [|reflexivity].
  simpl in Hn.
  destruct p; try reflexivity;
    try (destruct (field "name" _) as [[]|] eqn:F; try reflexivity;
         now destruct (Hn s0)).
Qed.

Lemma malformed_call_is_internal_error_witness :
  @handleRequest simplifySchema sample_runtime sample_env backend_rejects
    (JObj [(str "id", JNum 3); (str "method", JStr (str "tools/call"))])
    sample_server
  = (Ok (Failure (Some (JNum 3)) (-32603) (MessageOf TypeError)), sample_server).
Proof.
  refine (malformed_call_is_internal_error sample_runtime sample_env
            backend_rejects
            (JObj [(str "id", JNum 3); (str "method", JStr (str "tools/call"))])
            sample_server eq_refl _).
  intros toolName. discriminate.
Defined.

(** ** The runtime of the examples: reading back what was written *)

Section Codec.

Lemma firstn_length_app {A : Type} (l r : list A) :
  firstn (N.to_nat (N.of_nat (length l))) (l ++ r) = l.
Proof.
  rewrite Nat2N.id, firstn_app, Nat.sub_diag, firstn_all. simpl.
  apply app_nil_r.
Qed.

Lemma skipn_length_app {A : Type} (l r : list A) :
  skipn (N.to_nat (N.of_nat (length l))) (l ++ r) = r.
Proof.
  rewrite Nat2N.id, skipn_app, Nat.sub_diag, skipn_all. reflexivity.
Qed.

Lemma decode_encode (fuel : nat) :
  forall (j : json) (r : jsstring),
    depth j < fuel -> decode fuel (encode j ++ r) = Some (j, r).
Proof.
  induction fuel as [|fuel IH]; intros j r Hd; [lia|].
  destruct j as [|b|n|s|items|fields]; simpl.
  - reflexivity.
  - destruct b; reflexivity.
  - destruct (Z.ltb_spec n 0); simpl; f_equal; f_equal; f_equal;
      rewrite N2Z.inj_abs_N; lia.
  - now rewrite firstn_length_app, skipn_length_app.
  - rewrite Nat2N.id.
    assert (E : decode_items (decode fuel) (length items)
                  (flat_map encode items ++ r) = Some (items, r)).
    { assert (B : forall x, In x items -> depth x < fuel).
      { intros x Hx. apply depth_In_arr in Hx. lia. }
      clear Hd. induction items as [|x items IHi]; simpl; [reflexivity|].
      rewrite <- app_assoc, IH by (apply B; now left).
      rewrite IHi; [reflexivity|]. intros y Hy. apply B. now right. }
    now rewrite E.
  - rewrite Nat2N.id.
    assert (E : decode_fields (decode fuel) (length fields)
                  (flat_map (fun e => N.of_nat (length (fst e))
                                        :: fst e ++ encode (snd e)) fields ++ r)
                = Some (fields, r)).
    { assert (B : forall k x, In (k, x) fields -> depth x < fuel).
      { intros k x Hx. apply depth_In_obj in Hx. lia. }
      clear Hd. induction fields as [|[k x] fields IHf]; simpl; [reflexivity|].
      rewrite <- !app_assoc, skipn_length_app, firstn_length_app.
      rewrite IH by (apply (B k); now left).
      rewrite IHf; [reflexivity|]. intros k' y Hy. apply (B k'). now right. }
    now rewrite E.
Qed.

Lemma codec_round_trip (j : json) :
  @JSON_parse codec_runtime (@JSON_stringify codec_runtime j) = Some j.
Proof.
  change (codec_parse (codec_stringify j) = Some j).
  unfold codec_parse, codec_stringify. rewrite Nat2N.id.
  pose proof (decode_encode (S (depth j)) j [] (Nat.lt_succ_diag_r _)) as E.
  rewrite app_nil_r in E. now rewrite E.
Qed.

End Codec.

(** ** The registry document, again *)

Section Document.

Context `{Runtime}.

Lemma path_eqb_refl (p : path) : path_eqb p p = true.
Proof. now apply path_eqb_eq. Qed.

Lemma path_eqb_neq (p q : path) : path_eqb p q = false <-> p <> q.
Proof.
  unfold path_eqb.
  destruct (list_eq_dec (list_eq_dec N.eq_dec) p q); split; congruence.
Qed.

Lemma lookup_filter_other (p q : path) (fs : fsys) :
  q <> p ->
  fs_lookup (filter (fun e => negb (path_eqb (fst e) p)) fs) q = fs_lookup fs q.
Proof.
  intros Hne. induction fs as [|[a n] fs IH]; simpl; [reflexivity|].
  destruct (path_eqb a p) eqn:E; simpl.
  - apply path_eqb_eq in E. subst a.
    apply not_eq_sym, path_eqb_neq in Hne. now rewrite Hne.
  - now rewrite IH.
Qed.

(** What [fs.writeFileSync] changes. *)
Lemma writeFileSync_spec (p : path) (data : jsstring) (fs fs' : fsys) :
  writeFileSync p data fs = Ok fs' ->
  fs_lookup fs' p = Some (File data)
  /\ forall q, q <> p -> fs_lookup fs' q = fs_lookup fs q.
Proof.
  unfold writeFileSync.
  assert (W : Ok ((p, File data)
                  :: filter (fun e => negb (path_eqb (fst e) p)) fs) = Ok fs' ->
              fs_lookup fs' p = Some (File data)
              /\ forall q, q <> p -> fs_lookup fs' q = fs_lookup fs q).
  { intros [= <-]. simpl. rewrite path_eqb_refl. split; [reflexivity|].
    intros q Hq. apply not_eq_sym, path_eqb_neq in Hq as Hq'. rewrite Hq'.
    now apply lookup_filter_other. }
  destruct (fs_lookup fs p) as [[]|];
    destruct (fs_lookup fs (removelast p)) as [[]|]; try discriminate; exact W.
Qed.

Lemma saveMetadata_spec (metadata : json) (m m' : manager) :
  saveMetadata metadata m = (Ok tt, m') ->
  pluginDir m' = pluginDir m
  /\ loadedPlugins m' = loadedPlugins m
  /\ fs_lookup (disk m') (metadataFile m) = Some (File (JSON_stringify metadata))
  /\ forall q, q <> metadataFile m -> fs_lookup (disk m') q = fs_lookup (disk m) q.
Proof.
  unfold saveMetadata, set_disk.
  destruct (writeFileSync _ _ _) as [fs|] eqn:W; [|discriminate].
  intros [= <-]. simpl. apply writeFileSync_spec in W. tauto.
Qed.

Lemma loadMetadata_saved (metadata : json) (m m' : manager) :
  saveMetadata metadata m = (Ok tt, m') ->
  JSON_parse (JSON_stringify metadata) = Some metadata ->
  loadMetadata m' = metadata.
Proof.
  intros S P. destruct (saveMetadata_spec _ _ _ S) as [D [_ [F _]]].
  unfold loadMetadata, readFileSync, metadataFile. rewrite D.
  fold (metadataFile m). now rewrite F, P.
Qed.

End Document.

(** X14: saveMetadata and loadMetadata are inverse to each other as far as
    [JSON.parse] inverts [JSON.stringify] on the document: what was saved is
    what is loaded next. Saving writes the registry document and nothing
    else: every other path of the disk, the plugin directory and the loaded
    plugins are as before. *)
Theorem save_then_load (R : Runtime) (metadata : json) (m m' : manager) :
  saveMetadata metadata m = (Ok tt, m') ->
  JSON_parse (JSON_stringify metadata) = Some metadata ->
  loadMetadata m' = metadata
  /\ pluginDir m' = pluginDir m
  /\ loadedPlugins m' = loadedPlugins m
  /\ forall q, q <> metadataFile m -> fs_lookup (disk m') q = fs_lookup (disk m) q.
Proof.
  intros S P. split; [now apply (loadMetadata_saved metadata m)|].
  destruct (saveMetadata_spec _ _ _ S) as [D [L [_ F]]]. auto.
Qed.

Lemma save_then_load_witness :
  @loadMetadata codec_runtime
    (snd (@saveMetadata codec_runtime sample_store bare_manager))
  = sample_store.
Proof.
  refine (proj1 (save_then_load codec_runtime sample_store bare_manager _ _
                   (codec_round_trip sample_store))).
  vm_compute. reflexivity.
Defined.

Section Records.

Context `{Runtime}.

(** A record found as an own member: the document has a [plugins] object. *)
Lemma lookup_record_own (metadata : json) (key : jsstring) (v : json) :
  lookup_record metadata key = Ok (Own v) ->
  exists mfs pfs,
    metadata = JObj mfs
    /\ assoc (str "plugins") mfs = Some (JObj pfs)
    /\ assoc key pfs = Some v.
Proof.
  unfold lookup_record, member, bind.
  destruct metadata as [| | | | |mfs]; try discriminate;
    try (simpl; discriminate).
  simpl field. unfold get_property.
  destruct (assoc (str "plugins") mfs) as [plugins|] eqn:P; [|discriminate].
  destruct plugins as [| | | | |pfs]; try discriminate;
    try (destruct (existsb _ _); discriminate).
  destruct (assoc key pfs) as [v'|] eqn:A;
    [|destruct (existsb _ _); discriminate].
  intros [= <-]. eauto.
Qed.

Lemma lookup_record_update (f : list (jsstring * json) -> list (jsstring * json))
  (mfs pfs : list (jsstring * json)) (key : jsstring) :
  assoc (str "plugins") mfs = Some (JObj pfs) ->
  lookup_record (update_plugins f (JObj mfs)) key
  = get_property (Some (JObj (f pfs))) key.
Proof.
  intros P. unfold update_plugins. rewrite P.
  unfold lookup_record, member, bind. simpl field.
  now rewrite assoc_set_field.
Qed.

Lemma lookup_record_object (mfs pfs : list (jsstring * json)) (key : jsstring) :
  assoc (str "plugins") mfs = Some (JObj pfs) ->
  lookup_record (JObj mfs) key = get_property (Some (JObj pfs)) key.
Proof.
  intros P. unfold lookup_record, member, bind. simpl field. now rewrite P.
Qed.

Lemma assoc_delete_field (k : jsstring) (fs : list (jsstring * json)) :
  assoc k (delete_field k fs) = None.
Proof.
  unfold delete_field. induction fs as [|[k' v] fs IH]; simpl; [reflexivity|].
  destruct (jsstring_eqb k k') eqn:E; simpl; [exact IH|].
  now rewrite E.
Qed.

Lemma assoc_delete_field_other (k k' : jsstring) (fs : list (jsstring * json)) :
  k' <> k -> assoc k' (delete_field k fs) = assoc k' fs.
Proof.
  intros Hne. unfold delete_field.
  induction fs as [|[k0 v] fs IH]; simpl; [reflexivity|].
  destruct (jsstring_eqb k k0) eqn:E; simpl.
  - apply jsstring_eqb_eq in E. subst k0.
    apply jsstring_eqb_neq in Hne. now rewrite Hne.
  - now rewrite IH.
Qed.

(** What a successful [toggle] saved. *)
Lemma toggle_saved (flag : bool) (name : option json) (m m' : manager) (r : json) :
  toggle flag name m = (Ok r, m') ->
  exists found metadata',
    lookup_record (loadMetadata m) (js_to_string name) = Ok found
    /\ lookup_truthy found = true
    /\ set_enabled flag (js_to_string name) found (loadMetadata m) = Ok metadata'
    /\ saveMetadata metadata' m = (Ok tt, m').
Proof.
  unfold toggle, bindM, lift, throw, ret.
  destruct (lookup_record _ _) as [found|] eqn:L; [|discriminate].
  destruct (lookup_truthy found) eqn:T; simpl; [|discriminate].
  destruct (set_enabled _ _ _ _) as [metadata'|] eqn:S; [|discriminate].
  destruct (saveMetadata metadata' m) as [[[]|] m1] eqn:V; [|discriminate].
  intros [= _ <-]. exists found, metadata'. auto.
Qed.

(** What a successful uninstallPlugin did. *)
Lemma uninstall_saved (name : option json) (m m' : manager) (r : json) :
  uninstallPlugin name m = (Ok r, m') ->
  exists pluginPath m1,
    join_name (pluginDir m) name = Ok pluginPath
    /\ rm_if_exists pluginPath m = (Ok tt, m1)
    /\ saveMetadata
         (update_plugins (delete_field (js_to_string name)) (loadMetadata m)) m1
       = (Ok tt, m').
Proof.
  unfold uninstallPlugin, bindM, lift, throw, ret.
  destruct (lookup_record _ _) as [found|] eqn:L; [|discriminate].
  destruct (lookup_truthy found) eqn:T; simpl; [|discriminate].
  destruct (join_name _ _) as [pluginPath|] eqn:J; [|discriminate].
  destruct (rm_if_exists pluginPath m) as [[[]|] m1] eqn:Rm; [|discriminate].
  destruct (saveMetadata _ m1) as [[[]|] m2] eqn:V; [|discriminate].
  intros [= _ <-]. exists pluginPath, m1. auto.
Qed.

End Records.

(** X15: enablePlugin and disablePlugin change the [enabled] member of the
    named record and nothing else: provided the document written parses
    back, the record is afterwards the old one with [enabled] set to the
    flag, every other record is as before, and the plugins loaded in memory
    are not touched. *)
Theorem toggle_sets_flag (R : Runtime) (flag : bool) (key : jsstring)
  (record : list (jsstring * json)) (m m' : manager) (r : json) :
  toggle flag (Some (JStr key)) m = (Ok r, m') ->
  lookup_record (loadMetadata m) key = Ok (Own (JObj record)) ->
  (let metadata' :=
     update_plugins
       (set_field key (JObj (set_field (str "enabled") (JBool flag) record)))
       (loadMetadata m) in
   JSON_parse (JSON_stringify metadata') = Some metadata') ->
  lookup_record (loadMetadata m') key
  = Ok (Own (JObj (set_field (str "enabled") (JBool flag) record)))
  /\ (forall other, other <> key ->
        lookup_record (loadMetadata m') other
        = lookup_record (loadMetadata m) other)
  /\ loadedPlugins m' = loadedPlugins m.
Proof.
  intros T L P. cbv zeta in P.
  destruct (toggle_saved _ _ _ _ _ T) as [found [metadata' [L' [_ [S V]]]]].
  simpl js_to_string in L', S. rewrite L in L'. injection L' as <-.
  simpl in S. injection S as <-.
  rewrite (loadMetadata_saved _ _ _ V P).
  destruct (lookup_record_own _ _ _ L) as [mfs [pfs [E [Pl A]]]].
  rewrite E. split; [|split].
  - rewrite (lookup_record_update _ _ _ _ Pl). unfold get_property.
    now rewrite assoc_set_field.
  - intros other Ho.
    rewrite (lookup_record_update _ _ _ _ Pl), (lookup_record_object _ _ _ Pl).
    unfold get_property. now rewrite (assoc_set_field_other _ _ _ _ Ho).
  - apply (saveMetadata_spec _ _ _ V).
Qed.

Lemma toggle_sets_flag_witness :
  lookup_record
    (@loadMetadata sample_runtime
       (snd (@disablePlugin sample_runtime (Some (JStr (str "acme-tools")))
               store_manager)))
    (str "acme-tools")
  = Ok (Own (JObj [(str "enabled", JBool false)])).
Proof.
  refine (proj1 (toggle_sets_flag sample_runtime false (str "acme-tools")
                   [(str "enabled", JBool true)] store_manager _
                   (JObj [(str "success", JBool true);
                          (str "name", JStr (str "acme-tools"));
                          (str "enabled", JBool false)]) _ _ _)).
  - vm_compute. reflexivity.
  - vm_compute. reflexivity.
  - vm_compute. reflexivity.
Defined.

(** X16: uninstallPlugin removes the record and the directory of the plugin:
    after it succeeded there is nothing left at the path of the plugin
    (unless the name designates the registry document itself, which is
    written again), and, provided the document written parses back, the name
    has no own record any more while every other record is as before. *)
Theorem uninstall_removes_plugin (R : Runtime) (key : jsstring)
  (m m' : manager) (r : json) :
  uninstallPlugin (Some (JStr key)) m = (Ok r, m') ->
  (let metadata' := update_plugins (delete_field key) (loadMetadata m) in
   JSON_parse (JSON_stringify metadata') = Some metadata') ->
  (path_join (pluginDir m) key <> metadataFile m ->
   existsSync (disk m') (path_join (pluginDir m) key) = false)
  /\ (forall v, lookup_record (loadMetadata m') key <> Ok (Own v))
  /\ (forall other, other <> key ->
        lookup_record (loadMetadata m') other
        = lookup_record (loadMetadata m) other).
Proof.
  intros U P. cbv zeta in P.
  destruct (uninstall_saved _ _ _ _ U) as [pluginPath [m1 [J [Rm V]]]].
  simpl in J. injection J as <-. simpl js_to_string in V.
  destruct (rm_if_exists_spec (path_join (pluginDir m) key) m)
    as [m1' [Rm' [D1 [_ [Gone _]]]]].
  rewrite Rm in Rm'. injection Rm' as <-.
  destruct (saveMetadata_spec _ _ _ V) as [_ [_ [_ Fr]]].
  split.
  { intros Hne. unfold existsSync. rewrite Fr.
    - exact Gone.
    - unfold metadataFile. rewrite D1. exact Hne. }
  rewrite (loadMetadata_saved _ _ _ V P).
  destruct (loadMetadata m) as [| | | | |mfs] eqn:E;
    try (split; [intros v X; apply lookup_record_own in X as [? [? [X _]]];
                 discriminate X|reflexivity]).
  destruct (assoc (str "plugins") mfs) as [plugins|] eqn:Pl.
  2:{ unfold update_plugins. rewrite Pl. split; [|reflexivity].
      intros v X. apply lookup_record_own in X as [? [? [X [Y _]]]].
      injection X as <-. congruence. }
  destruct plugins as [| | | | |pfs];
    try (unfold update_plugins; rewrite Pl; split; [|reflexivity];
         intros v X; apply lookup_record_own in X as [? [? [X [Y _]]]];
         injection X as <-; congruence).
  split.
  - intros v. rewrite (lookup_record_update _ _ _ _ Pl). unfold get_property.
    rewrite assoc_delete_field. destruct (existsb _ _); discriminate.
  - intros other Ho.
    rewrite (lookup_record_update _ _ _ _ Pl), (lookup_record_object _ _ _ Pl).
    unfold get_property. now rewrite (assoc_delete_field_other _ _ _ Ho).
Qed.

Lemma uninstall_removes_plugin_witness :
  existsSync (disk codec_store_manager) (plugins_home ++ [str "acme-tools"]) = true
  /\ existsSync
       (disk (snd (@uninstallPlugin codec_runtime
                     (Some (JStr (str "acme-tools"))) codec_store_manager)))
       (plugins_home ++ [str "acme-tools"]) = false
  /\ forall v,
       lookup_record
         (@loadMetadata codec_runtime
            (snd (@uninstallPlugin codec_runtime
                    (Some (JStr (str "acme-tools"))) codec_store_manager)))
         (str "acme-tools") <> Ok (Own v).
Proof.
  split; [reflexivity|].
  destruct (uninstall_removes_plugin codec_runtime (str "acme-tools")
              codec_store_manager
              (snd (@uninstallPlugin codec_runtime
                      (Some (JStr (str "acme-tools"))) codec_store_manager))
              (JObj [(str "success", JBool true);
                     (str "name", JStr (str "acme-tools"))]))
    as [A [B _]].
  - vm_compute. reflexivity.
  - apply codec_round_trip.
  - split; [|exact B]. apply A. vm_compute. discriminate.
Defined.

(** ** The install specification *)

Section Spec.

Lemma until_slash_app (a b : jsstring) :
  ~ In 47%N a -> until_slash (a ++ 47%N :: b) = (a, 47%N :: b).
Proof.
  induction a as [|c a IH]; simpl; intros Hn; [reflexivity|].
  destruct (N.eqb_spec c 47) as [E|E]; [tauto|].
  rewrite IH by tauto. reflexivity.
Qed.

Lemma until_slash_all (a : jsstring) :
  ~ In 47%N a -> until_slash a = (a, []).
Proof.
  induction a as [|c a IH]; simpl; intros Hn; [reflexivity|].
  destruct (N.eqb_spec c 47) as [E|E]; [tauto|].
  rewrite IH by tauto. reflexivity.
Qed.

Lemma until_slash_split (s a b : jsstring) :
  until_slash s = (a, b) ->
  s = a ++ b /\ ~ In 47%N a /\ (b = [] \/ exists b', b = 47%N :: b').
Proof.
  revert a b. induction s as [|c s IH]; simpl; intros a b.
  - intros [= <- <-]. auto.
  - destruct (N.eqb_spec c 47) as [E|E].
    + intros [= <- <-]. subst c. split; [reflexivity|]. split; [tauto|].
      right. eauto.
    + destruct (until_slash s) as [a' b'] eqn:U. intros [= <- <-].
      destruct (IH a' b' eq_refl) as [-> [Hn Hb]].
      split; [reflexivity|]. split; [|exact Hb].
      intros [X|X]; [congruence|tauto].
Qed.

End Spec.

(** X17: the pattern of installPlugin reads a specification back into its
    parts: a text is accepted with owner, repository and subpath exactly
    when it is [@owner/repo] or [@owner/repo/subpath] for a non-empty owner
    and repository without ['/'] and, if there is one, a non-empty subpath
    without line terminator. *)
Theorem match_spec_round_trip (spec owner repo : jsstring)
  (subpath : option jsstring) :
  match_spec spec = Some (owner, repo, subpath)
  <-> spec = spec_text owner repo subpath
      /\ owner <> [] /\ repo <> []
      /\ ~ In 47%N owner /\ ~ In 47%N repo
      /\ match subpath with
         | Some sp => sp <> [] /\ forallb (fun x => negb (is_line_terminator x)) sp = true
         | None => True
         end.
Proof.
  split.
  - unfold match_spec. destruct spec as [|c r]; [discriminate|].
    destruct (N.eqb_spec c 64) as [->|E]; simpl negb; cbv iota; [|discriminate].
    destruct (until_slash r) as [o r1] eqn:U1.
    apply until_slash_split in U1 as [-> [Ho Hr1]].
    destruct o as [|o0 o]; [discriminate|].
    destruct r1 as [|s1 r2]; [discriminate|].
    destruct Hr1 as [X|[b' X]]; [discriminate|]. injection X as -> ->.
    destruct (until_slash b') as [rp r3] eqn:U2.
    apply until_slash_split in U2 as [-> [Hr Hr3]].
    destruct rp as [|p0 rp]; [discriminate|].
    destruct r3 as [|s3 sp].
    + intros [= <- <- <-]. unfold spec_text. rewrite app_nil_r.
      repeat split; try discriminate; assumption.
    + destruct Hr3 as [X|[b'' X]]; [discriminate|]. injection X as -> ->.
      destruct b'' as [|x sp]; [discriminate|].
      destruct (forallb _ (x :: sp)) eqn:F; [|discriminate].
      intros [= <- <- <-]. unfold spec_text.
      repeat split; try discriminate; assumption.
  - intros [-> [No [Nr [Ho [Hr Hs]]]]]. unfold match_spec, spec_text.
    simpl negb. cbv iota.
    rewrite (until_slash_app owner _ Ho).
    destruct owner as [|o0 owner]; [contradiction|].
    destruct subpath as [sp|].
    + destruct Hs as [Ns F]. rewrite (until_slash_app repo _ Hr).
      destruct repo as [|p0 repo]; [contradiction|].
      destruct sp as [|x sp]; [contradiction|]. now rewrite F.
    + rewrite app_nil_r, (until_slash_all repo Hr).
      destruct repo as [|p0 repo]; [contradiction|]. reflexivity.
Qed.

(** X18: whatever the specification accepted, the directory of the plugin and
    the temporary directory of the clone are direct children of the plugin
    directory, named after the plugin (a name without ['/'] that holds a
    ['-']) and after the clock; neither is the registry document. The
    subpath, which may climb with [..], plays no part in them. *)
Theorem install_paths_are_children (env : environment) (spec owner repo : jsstring)
  (subpath : option jsstring) (m : manager) :
  match_spec spec = Some (owner, repo, subpath) ->
  let pluginName := plugin_name_of owner repo subpath in
  plugin_path m pluginName = pluginDir m ++ [pluginName]
  /\ ~ In 47%N pluginName
  /\ temp_dir env m = pluginDir m ++ [str "_temp_" ++ decimal (env_now env)]
  /\ plugin_path m pluginName <> metadataFile m
  /\ temp_dir env m <> metadataFile m.
Proof.
  intros Ms pluginName.
  destruct (match_spec_no_slash _ _ _ _ Ms) as [Ho Hr].
  destruct (plugin_name_plain owner repo subpath Ho Hr) as [Ps Ph].
  fold pluginName in Ps, Ph.
  assert (Ef : metadataFile m = pluginDir m ++ [str "plugins.json"]) by reflexivity.
  assert (Et : temp_dir env m
               = pluginDir m ++ [str "_temp_" ++ decimal (env_now env)]).
  { apply (path_join_name _ _ 95%N); [|now left|discriminate].
    intros [X|[X|[X|[X|[X|[X|X]]]]]]; try discriminate X.
    exact (decimal_no_slash _ X). }
  assert (Ep : plugin_path m pluginName = pluginDir m ++ [pluginName]).
  { apply (path_join_name _ _ 45%N); [exact Ps|exact Ph|discriminate]. }
  split; [exact Ep|]. split; [exact Ps|]. split; [exact Et|].
  rewrite Ep, Et, Ef. split; intros X; apply app_inv_head in X.
  - injection X as X. rewrite X in Ph. simpl in Ph. intuition discriminate.
  - discriminate X.
Qed.

Lemma install_paths_are_children_witness :
  plugin_path store_manager (str "o-r-..-plugins.json")
  = plugins_home ++ [str "o-r-..-plugins.json"]
  /\ temp_dir clone_env store_manager
     = plugins_home ++ [str "_temp_1700000000000"].
Proof.
  destruct (install_paths_are_children clone_env (str "@o/r/../plugins.json")
              (str "o") (str "r") (Some (str "../plugins.json")) store_manager
              eq_refl) as [A [_ [B _]]].
  split; [exact A|exact B].
Defined.

(** ** Installation, again *)

Section InstallMore.

Context `{Runtime}.
Variable env : environment.

(** What a successful run of the [try] block of installPlugin did last. *)
Lemma install_steps_saved (spec owner repo : jsstring) (subpath : option jsstring)
  (pluginName : jsstring) (pluginPath tempDir : path) (metadata : json)
  (m m' : manager) (r : json) :
  install_steps env spec owner repo subpath pluginName pluginPath tempDir
                metadata m = (Ok r, m') ->
  exists manifest metadata' m1,
    assign_record pluginName (install_record env spec manifest) metadata
    = Ok metadata'
    /\ saveMetadata metadata' m1 = (Ok tt, m')
    /\ field "name" r = Some (JStr pluginName).
Proof.
  unfold install_steps, bindM.
  destruct (git_clone env owner repo tempDir m) as [[[]|] m1]; [|discriminate].
  unfold get_disk at 1.
  destruct (negb (existsSync (disk m1) _)); [discriminate|].
  destruct (rename _ pluginPath m1) as [[[]|] m2]; [|discriminate].
  destruct (rm_if_exists tempDir m2) as [[[]|] m3]; [|discriminate].
  unfold get_disk.
  destruct (negb (existsSync (disk m3) _)); [discriminate|].
  unfold lift at 1.
  destruct (readFileSync (disk m3) _) as [data|]; [|discriminate].
  unfold lift at 1.
  destruct (parse_json data) as [manifest|]; [|discriminate].
  destruct (when _ (npm_install env pluginPath) m3) as [[[]|] m4];
    [|discriminate].
  unfold lift at 1.
  destruct (member "version" manifest) as [version|] eqn:V; [|discriminate].
  assert (version = field "version" manifest)
    by (destruct manifest; simpl in V |- *; congruence).
  subst version. unfold lift.
  destruct (assign_record _ _ metadata) as [metadata'|] eqn:A; [|discriminate].
  destruct (saveMetadata metadata' m4) as [[[]|] m5] eqn:S; [|discriminate].
  unfold ret. intros [= <- <-].
  exists manifest, metadata', m4. split; [exact A|]. split; [exact S|].
  reflexivity.
Qed.

(** installPlugin fails before its [try] block, leaving everything as it
    is, or inside it. *)
Lemma installPlugin_throws (spec owner repo : jsstring) (subpath : option jsstring)
  (m m' : manager) (e : js_error) :
  match_spec spec = Some (owner, repo, subpath) ->
  installPlugin env (Some (JStr spec)) m = (Throw e, m') ->
  let pluginName := plugin_name_of owner repo subpath in
  (m' = m /\ (forall found, lookup_record (loadMetadata m) pluginName = Ok found ->
                            lookup_truthy found = true))
  \/ (existsSync (disk m') (plugin_path m pluginName) = false
      /\ existsSync (disk m') (temp_dir env m) = false).
Proof.
  intros Ms. unfold installPlugin. rewrite Ms.
  destruct (lookup_record _ _) as [found|e0].
  2:{ intros [= _ <-]. left. split; [reflexivity|]. discriminate. }
  destruct (lookup_truthy found) eqn:T.
  { intros [= _ <-]. left. split; [reflexivity|]. now intros ? [= <-]. }
  intros E. right.
  destruct (install_steps env spec owner repo subpath
              (plugin_name_of owner repo subpath)
              (plugin_path m (plugin_name_of owner repo subpath))
              (temp_dir env m) (loadMetadata m) m) as [[a|e0] m0] eqn:St.
  { unfold try_catch in E. rewrite St in E. discriminate. }
  destruct (install_rollback_removes_directories _ env _ _ _ m m' e0 _ E)
    as [_ X]; [now rewrite St|exact X].
Qed.

End InstallMore.

(** X19: a failed installation cleans up: unless installPlugin refused the
    request before doing anything (a name already in the registry), there is
    afterwards nothing at the path of the plugin nor at the temporary
    directory of the clone, even when a directory of that name was there
    before. *)
Theorem failed_install_cleans_up (R : Runtime) (env : environment)
  (spec owner repo : jsstring) (subpath : option jsstring)
  (m m' : manager) (e : js_error) :
  match_spec spec = Some (owner, repo, subpath) ->
  lookup_record (loadMetadata m) (plugin_name_of owner repo subpath) = Ok Missing ->
  installPlugin env (Some (JStr spec)) m = (Throw e, m') ->
  existsSync (disk m') (plugin_path m (plugin_name_of owner repo subpath)) = false
  /\ existsSync (disk m') (temp_dir env m) = false.
Proof.
  intros Ms L E.
  destruct (installPlugin_throws env _ _ _ _ _ _ _ Ms E) as [[_ X]|X];
    [|exact X].
  specialize (X _ L). discriminate.
Qed.

Lemma failed_install_cleans_up_witness :
  existsSync
    (disk (snd (@installPlugin sample_runtime clone_env
                  (Some (JStr (str "@acme/tools"))) bare_manager)))
    (plugins_home ++ [str "acme-tools"]) = false
  /\ fst (@installPlugin sample_runtime clone_env
            (Some (JStr (str "@acme/tools"))) bare_manager)
     = Throw (Err (JStr (str "Plugin manifest (plugin.json) not found"))).
Proof.
  split; [|vm_compute; reflexivity].
  refine (proj1 (failed_install_cleans_up sample_runtime clone_env
                   (str "@acme/tools") (str "acme") (str "tools") None
                   bare_manager _
                   (Err (JStr (str "Plugin manifest (plugin.json) not found")))
                   eq_refl _ _)).
  - vm_compute. reflexivity.
  - vm_compute. reflexivity.
Defined.



(** X21: a successful installation is recorded. Where [JSON.parse] inverts
    [JSON.stringify] and the document has a [plugins] object, installPlugin
    returns the name of the plugin, the name has afterwards the record built
    from the manifest (enabled), every other record is as before, and
    installing the same specification again is refused as already installed
    and changes nothing. *)
Theorem installed_plugin_is_recorded (R : Runtime) (env : environment)
  (spec owner repo : jsstring) (subpath : option jsstring)
  (pfs : list (jsstring * json)) (m m' : manager) (r : json) :
  (forall j, JSON_parse (JSON_stringify j) = Some j) ->
  match_spec spec = Some (owner, repo, subpath) ->
  field "plugins" (loadMetadata m) = Some (JObj pfs) ->
  installPlugin env (Some (JStr spec)) m = (Ok r, m') ->
  let pluginName := plugin_name_of owner repo subpath in
  field "name" r = Some (JStr pluginName)
  /\ (exists manifest,
        lookup_record (loadMetadata m') pluginName
        = Ok (Own (install_record env spec manifest))
        /\ field "enabled" (install_record env spec manifest) = Some (JBool true))
  /\ (forall other, other <> pluginName ->
        lookup_record (loadMetadata m') other
        = lookup_record (loadMetadata m) other)
  /\ installPlugin env (Some (JStr spec)) m'
     = (Throw (already_installed pluginName), m').
Proof.
  intros Rt Ms P E pluginName.
  assert (St : install_steps env spec owner repo subpath pluginName
                 (plugin_path m pluginName) (temp_dir env m) (loadMetadata m) m
               = (Ok r, m')).
  { revert E. unfold installPlugin. rewrite Ms. fold pluginName.
    destruct (lookup_record _ _) as [found|]; [|discriminate].
    destruct (lookup_truthy found); [discriminate|].
    unfold try_catch.
    destruct (install_steps _ _ _ _ _ _ _ _ _ m) as [[a|e0] m0]; [tauto|].
    unfold bindM.
    destruct (rm_if_exists _ m0) as [[[]|] m1]; [|discriminate].
    destruct (rm_if_exists _ m1) as [[[]|] m2]; discriminate. }
  destruct (install_steps_saved env _ _ _ _ _ _ _ _ _ _ _ St)
    as [manifest [metadata' [m1 [A [S N]]]]].
  split; [exact N|].
  unfold assign_record in A. rewrite P in A. injection A as <-.
  pose proof (loadMetadata_saved _ _ _ S (Rt _)) as Lm.
  destruct (loadMetadata m) as [| | | | |mfs] eqn:Em; try discriminate.
  simpl in P.
  assert (Lr : lookup_record (loadMetadata m') pluginName
               = Ok (Own (install_record env spec manifest))).
  { rewrite Lm, (lookup_record_update _ _ _ _ P). unfold get_property.
    now rewrite assoc_set_field. }
  split; [|split].
  - exists manifest. split; [exact Lr|].
    unfold install_record. simpl. destruct (js_or _ _); reflexivity.
  - intros other Ho.
    rewrite Lm, (lookup_record_update _ _ _ _ P), (lookup_record_object _ _ _ P).
    unfold get_property. now rewrite (assoc_set_field_other _ _ _ _ Ho).
  - unfold installPlugin. rewrite Ms. fold pluginName. rewrite Lr. reflexivity.
Qed.

Lemma installed_plugin_is_recorded_witness :
  let m' := snd (@installPlugin codec_runtime plugin_env
                   (Some (JStr (str "@acme/tools"))) bare_manager) in
  fst (@listPlugins codec_runtime bare_manager) = Ok []
  /\ @installPlugin codec_runtime plugin_env (Some (JStr (str "@acme/tools"))) m'
     = (Throw (already_installed (str "acme-tools")), m').
Proof.
  intros m'. split; [reflexivity|].
  refine (proj2 (proj2 (proj2
            (installed_plugin_is_recorded codec_runtime plugin_env
               (str "@acme/tools") (str "acme") (str "tools") None []
               bare_manager m'
               (JObj [(str "success", JBool true);
                      (str "name", JStr (str "acme-tools"));
                      (str "version", JStr (str "1.0.0"));
                      (str "description", JStr (str "No description"))])
               codec_round_trip eq_refl eq_refl _)))).
  vm_compute. reflexivity.
Defined.

(** ** The load pass and the enumeration of tools, again *)

Section LoadMore.

Context `{Runtime}.
Variable env : environment.




Lemma enabled_entries_filter (entries enabled : list (jsstring * json)) :
  enabled_entries entries = Ok enabled ->
  enabled = filter (fun e => truthy (field "enabled" (snd e))) entries.
Proof.
  revert enabled. induction entries as [|[name info] entries IH]; simpl;
    intros enabled.
  - now intros [= <-].
  - destruct (member "enabled" info) as [en|] eqn:M; [|discriminate]. simpl.
    destruct (enabled_entries entries) as [tail|]; [|discriminate]. simpl.
    intros [= <-]. rewrite <- (IH tail eq_refl).
    assert (en = field "enabled" info)
      by (destruct info; simpl in M |- *; congruence).
    subst en. reflexivity.
Qed.

End LoadMore.



Section Enumeration.



Lemma push_tools_extends (manifest : option json) (name : jsstring)
  (pluginTools acc : list json) :
  exists added, push_tools manifest name pluginTools acc = acc ++ added.
Proof.
  revert acc. induction pluginTools as [|tool rest IH]; intros acc; simpl.
  - exists []. now rewrite app_nil_r.
  - destruct (qualify manifest name tool) as [t|].
    + destruct (IH (acc ++ [t])) as [added E]. exists (t :: added).
      now rewrite E, <- app_assoc.
    + exists []. now rewrite app_nil_r.
Qed.


Lemma collect_tools_nullish (loaded : list (jsstring * loaded_plugin))
  (acc : list json) (name : jsstring) (lp : loaded_plugin) :
  In (name, lp) loaded -> lp_module lp = ModNullish ->
  collect_tools loaded acc = Throw TypeError.
Proof.
  revert acc. induction loaded as [|[k lp0] rest IH]; intros acc; simpl;
    [intros []|].
  intros [E|Hin] Hn.
  - injection E as -> ->. now rewrite Hn.
  - destruct (lp_module lp0) as [|md]; [reflexivity|].
    destruct (mod_getTools md) as [[pluginTools|]|]; now apply IH.
Qed.

Lemma collect_tools_total (loaded : list (jsstring * loaded_plugin))
  (acc : list json) :
  Forall (fun e => lp_module (snd e) <> ModNullish) loaded ->
  exists tools, collect_tools loaded acc = Ok tools.
Proof.
  intros F. revert acc. induction F as [|[k lp] rest Hk F IH]; intros acc; simpl.
  - eauto.
  - simpl in Hk. destruct (lp_module lp) as [|md]; [contradiction|].
    destruct (mod_getTools md) as [[pluginTools|]|]; apply IH.
Qed.

Lemma collect_tools_skips (l1 l2 : list (jsstring * loaded_plugin))
  (name : jsstring) (lp : loaded_plugin) (md : plugin_module) (acc : list json) :
  lp_module lp = ModObject md ->
  (forall pluginTools, mod_getTools md <> Some (Ok pluginTools)) ->
  collect_tools (l1 ++ (name, lp) :: l2) acc = collect_tools (l1 ++ l2) acc.
Proof.
  intros Lm G. revert acc. induction l1 as [|[k lp0] l1 IH]; intros acc; simpl.
  - rewrite Lm. destruct (mod_getTools md) as [[pluginTools|]|];
      [now destruct (G pluginTools)|reflexivity|reflexivity].
  - destruct (lp_module lp0) as [|md0]; [reflexivity|].
    destruct (mod_getTools md0) as [[pluginTools|]|]; apply IH.
Qed.

End Enumeration.



(** X24: a loaded module that is [null] or [undefined] (an [index.js] that
    exports nothing usable) breaks the enumeration: getPluginTools succeeds
    exactly when no loaded module is [null] or [undefined], and throws a
    TypeError otherwise; [tools/list] then answers the error -32603 instead
    of any list. *)
Theorem null_module_breaks_enumeration (R : Runtime) (env : environment)
  (backend : jsstring -> option json -> completion) (m : manager) :
  ((exists tools, getPluginTools m = Ok tools)
   <-> Forall (fun e => lp_module (snd e) <> ModNullish) (loadedPlugins m))
  /\ (forall name lp,
        In (name, lp) (loadedPlugins m) -> lp_module lp = ModNullish ->
        getPluginTools m = Throw TypeError
        /\ forall request tools,
             field "method" request = Some (JStr (str "tools/list")) ->
             exists e,
               handleRequest simplifySchema env backend request
                 {| githubTools := tools; pluginManager := m |}
               = (Ok (Failure (field "id" request) (-32603) (MessageOf e)),
                  {| githubTools := tools; pluginManager := m |})).
Proof.
  split.
  - split.
    + intros [tools G]. apply Forall_forall. intros [name lp] Hin Hn.
      unfold getPluginTools in G.
      now rewrite (collect_tools_nullish _ _ _ _ Hin Hn) in G.
    + apply collect_tools_total.
  - intros name lp Hin Hn.
    pose proof (collect_tools_nullish _ [] _ _ Hin Hn) as G.
    split; [exact G|]. intros request tools Hm.
    destruct request; try discriminate.
    unfold handleRequest. rewrite Hm. simpl is_method. cbv iota.
    unfold tools_list. simpl githubTools. simpl pluginManager.
    destruct (optimizeTools simplifySchema tools) as [backendTools|e]; simpl.
    + unfold getPluginTools. rewrite G. simpl. eauto.
    + eauto.
Qed.

(** X25: a plugin whose [getTools] throws, or is not a function, is passed
    over by getPluginTools: the list is the one that the other loaded
    plugins give, in their order. *)
Theorem failing_getTools_is_skipped (m m0 : manager)
  (l1 l2 : list (jsstring * loaded_plugin)) (name : jsstring)
  (lp : loaded_plugin) (md : plugin_module) :
  loadedPlugins m = l1 ++ (name, lp) :: l2 ->
  loadedPlugins m0 = l1 ++ l2 ->
  lp_module lp = ModObject md ->
  (forall pluginTools, mod_getTools md <> Some (Ok pluginTools)) ->
  getPluginTools m = getPluginTools m0.
Proof.
  intros E E0 Lm G. unfold getPluginTools. rewrite E, E0.
  now apply (collect_tools_skips l1 l2 name lp md).
Qed.

Lemma failing_getTools_is_skipped_witness :
  getPluginTools
    {| pluginDir := plugins_home; disk := bare_disk;
       loadedPlugins := [throwing_plugin; readme_plugin] |}
  = Ok [JObj [(str "name", JStr (str "myplugin_my_tool"));
              (str "description", JStr (str "Does something cool"));
              (str "pluginName", JStr (str "acme-tools"))]].
Proof.
  refine (eq_trans
            (failing_getTools_is_skipped
               {| pluginDir := plugins_home; disk := bare_disk;
                  loadedPlugins := [throwing_plugin; readme_plugin] |}
               readme_manager [] [readme_plugin] (fst throwing_plugin)
               (snd throwing_plugin) throwing_module eq_refl eq_refl eq_refl _)
            _).
  - intros pluginTools. discriminate.
  - reflexivity.
Defined.

(** ** Invocation of a plugin tool *)

(** X26: executePluginTool hands the call to the first loaded plugin, in the
    order of loading, that claims the name (the name of the tool starts with
    the name of the plugin, or with the namespace that the module itself
    exports in [manifest]) and has an [executeTool] function; the plugins
    before it are passed over. When every loaded plugin is passed over, the
    call fails with "No plugin found to handle tool". *)
Theorem executePluginTool_first_claim (m : manager) (toolName : jsstring)
  (args : option json) (l1 : list (jsstring * loaded_plugin)) :
  Forall (passed_over toolName) l1 ->
  (loadedPlugins m = l1 ->
   executePluginTool toolName args m
   = Throw (Err (JStr (str "No plugin found to handle tool: " ++ toolName))))
  /\ (forall name lp md exec l2,
        loadedPlugins m = l1 ++ (name, lp) :: l2 ->
        lp_module lp = ModObject md ->
        claims_tool name md toolName = true ->
        mod_executeTool md = Some exec ->
        executePluginTool toolName args m = exec toolName args).
Proof.
  intros F. unfold executePluginTool. split.
  - intros ->. induction F as [|[k lp0] l1 [md0 [Lm0 P0]] F IH]; simpl;
      [reflexivity|].
    simpl in Lm0, P0. rewrite Lm0. unfold claims_tool in P0.
    destruct P0 as [P0|P0]; rewrite P0; [exact IH|].
    destruct (_ || _); exact IH.
  - intros name lp md exec l2 -> Lm C Ex.
    induction F as [|[k lp0] l1 [md0 [Lm0 P0]] F IH]; simpl.
    + rewrite Lm. unfold claims_tool in C. now rewrite C, Ex.
    + simpl in Lm0, P0. rewrite Lm0. unfold claims_tool in P0.
      destruct P0 as [P0|P0]; rewrite P0; [exact IH|].
      destruct (_ || _); exact IH.
Qed.

Lemma executePluginTool_first_claim_witness :
  executePluginTool (str "a-b-c_run") None prefix_manager
  = Ok (text_content (str "first"))
  /\ executePluginTool (str "myplugin_my_tool") None readme_manager
     = Throw (Err (JStr (str "No plugin found to handle tool: myplugin_my_tool"))).
Proof.
  split.
  - refine (proj2 (executePluginTool_first_claim prefix_manager (str "a-b-c_run")
                     None [] (Forall_nil _))
              (str "a-b") _ (answering "first") _ _ eq_refl eq_refl eq_refl eq_refl).
  - refine (proj1 (executePluginTool_first_claim readme_manager
                     (str "myplugin_my_tool") None [readme_plugin] _) eq_refl).
    constructor; [|constructor].
    exists readme_module. split; [reflexivity|]. left. reflexivity.
Defined.

(** ** The constructor *)

Section Constructor.

Context `{Runtime}.

Lemma mkdir_p_keeps (rest prefix : path) (fs : fsys) (p : path) (n : node) :
  fs_lookup fs p = Some n -> fs_lookup (mkdir_p prefix rest fs) p = Some n.
Proof.
  revert prefix fs. induction rest as [|seg rest IH]; intros prefix fs L; simpl.
  - unfold existsSync. destruct (fs_lookup fs prefix) eqn:E; [exact L|].
    simpl. destruct (path_eqb prefix p) eqn:Q; [|exact L].
    apply path_eqb_eq in Q. congruence.
  - apply IH. unfold existsSync.
    destruct (fs_lookup fs prefix) eqn:E; [exact L|].
    simpl. destruct (path_eqb prefix p) eqn:Q; [|exact L].
    apply path_eqb_eq in Q. congruence.
Qed.

End Constructor.

(** X27: the constructor of the plugin manager creates what is missing and
    touches nothing else: when it returns, the registry document exists, no
    plugin is loaded, and every entry that the disk had is still there,
    unchanged. *)
Theorem constructor_creates_store (R : Runtime) (dir : path) (fs : fsys)
  (m : manager) :
  new_PluginManager dir fs = Ok m ->
  pluginDir m = dir
  /\ loadedPlugins m = []
  /\ existsSync (disk m) (metadataFile m) = true
  /\ forall p n, fs_lookup fs p = Some n -> fs_lookup (disk m) p = Some n.
Proof.
  unfold new_PluginManager.
  set (fs1 := if existsSync fs dir then fs else mkdir_p [] dir fs).
  assert (K : forall p n, fs_lookup fs p = Some n -> fs_lookup fs1 p = Some n).
  { intros p n L. unfold fs1. destruct (existsSync fs dir); [exact L|].
    now apply mkdir_p_keeps. }
  set (m0 := {| pluginDir := dir; disk := fs1; loadedPlugins := [] |}).
  destruct (existsSync fs1 (metadataFile m0)) eqn:E.
  - intros [= <-]. simpl. auto.
  - destruct (saveMetadata empty_metadata m0) as [[[]|e] m1] eqn:S;
      [|discriminate].
    intros [= <-]. destruct (saveMetadata_spec _ _ _ S) as [D [L [F Fr]]].
    split; [exact D|]. split; [exact L|]. split.
    + unfold existsSync, metadataFile. rewrite D.
      fold (metadataFile m0). now rewrite F.
    + intros p n Lp. rewrite Fr; [now apply K|].
      intros ->. unfold existsSync in E. simpl in E.
      now rewrite (K _ _ Lp) in E.
Qed.

Lemma constructor_creates_store_witness :
  exists m,
    @new_PluginManager codec_runtime plugins_home [([], Dir)] = Ok m
    /\ existsSync (disk m) (plugins_home ++ [str "plugins.json"]) = true
    /\ fst (@listPlugins codec_runtime m) = Ok [].
Proof.
  eexists. split; [vm_compute; reflexivity|].
  split; [|vm_compute; reflexivity].
  refine (proj1 (proj2 (proj2
            (constructor_creates_store codec_runtime plugins_home [([], Dir)]
               _ _)))).
  vm_compute. reflexivity.
Defined.

(** ** The management tools, again *)

Section Handlers.

Context `{Runtime}.
Variable env : environment.

Lemma uninstall_frame (name : option json) (m m' : manager) (r : json) :
  uninstallPlugin name m = (Ok r, m') ->
  loadedPlugins m' = loadedPlugins m.
Proof.
  intros U. destruct (uninstall_saved _ _ _ _ U) as [pluginPath [m1 [_ [Rm V]]]].
  destruct (rm_if_exists_spec pluginPath m) as [m1' [Rm' [_ [L _]]]].
  rewrite Rm in Rm'. injection Rm' as <-.
  destruct (saveMetadata_spec _ _ _ V) as [_ [L' _]]. congruence.
Qed.

Lemma assoc_filter_key {A : Type} (k : jsstring) (l : list (jsstring * A)) :
  assoc k (filter (fun e => negb (jsstring_eqb k (fst e))) l) = None.
Proof.
  induction l as [|[k' v] l IH]; simpl; [reflexivity|].
  destruct (jsstring_eqb k k') eqn:E; simpl; [exact IH|]. now rewrite E.
Qed.

Lemma assoc_filter_other {A : Type} (k k' : jsstring) (l : list (jsstring * A)) :
  k' <> k ->
  assoc k' (filter (fun e => negb (jsstring_eqb k (fst e))) l) = assoc k' l.
Proof.
  intros Hne. induction l as [|[k0 v] l IH]; simpl; [reflexivity|].
  destruct (jsstring_eqb k k0) eqn:E; simpl.
  - apply jsstring_eqb_eq in E. subst k0.
    apply jsstring_eqb_neq in Hne. now rewrite Hne.
  - now rewrite IH.
Qed.

End Handlers.

(** X28: the management tool [plugin_uninstall] also unloads the plugin: after
    it succeeded the plugin is no longer among the loaded ones, no tool that
    getPluginTools lists belongs to it, and the other loaded plugins are the
    same. *)
Theorem uninstall_handler_unloads (R : Runtime) (env : environment)
  (args : option json) (name : jsstring) (m m' : manager) (r : json) :
  arg "name" args = Ok (Some (JStr name)) ->
  handlePluginTool env (str "plugin_uninstall") args m = (Ok r, m') ->
  assoc name (loadedPlugins m') = None
  /\ (forall other, other <> name ->
        assoc other (loadedPlugins m') = assoc other (loadedPlugins m))
  /\ (forall tools t, getPluginTools m' = Ok tools -> In t tools ->
                      tool_owner t <> Some (JStr name)).
Proof.
  intros A.
  change (handlePluginTool env (str "plugin_uninstall") args)
    with (name <~ lift (arg "name" args) ;;
          uninstallPlugin name ;;;
          unload name ;;;
          ret (text_content (check_mark ++ str "Uninstalled plugin: "
                             ++ js_to_string name))).
  unfold bindM, lift. rewrite A.
  destruct (uninstallPlugin (Some (JStr name)) m) as [[x|e] m1] eqn:U;
    [|discriminate].
  apply uninstall_frame in U.
  unfold unload, set_loaded, ret. simpl. intros [= _ <-]. simpl. rewrite U.
  split; [exact (assoc_filter_key name (loadedPlugins m))|].
  split; [intros other Ho; exact (assoc_filter_other name other _ Ho)|].
  intros tools t C I. unfold getPluginTools in C. simpl in C.
  destruct (collect_tools_owner _ _ _ t C I) as [[]|[k [K O]]].
  rewrite O. intros X. injection X as ->.
  apply in_map_iff in K. destruct K as [[k lp] [<- K]].
  apply filter_In in K. simpl in K. destruct K as [_ K].
  now rewrite jsstring_eqb_refl in K.
Qed.

Lemma uninstall_handler_unloads_witness :
  assoc (str "acme-tools")
    (loadedPlugins
       (snd (@handlePluginTool codec_runtime sample_env (str "plugin_uninstall")
               (Some (JObj [(str "name", JStr (str "acme-tools"))]))
               {| pluginDir := plugins_home;
                  disk := disk codec_store_manager;
                  loadedPlugins := [readme_plugin] |})))
  = None.
Proof.
  refine (proj1 (uninstall_handler_unloads codec_runtime sample_env
                   (Some (JObj [(str "name", JStr (str "acme-tools"))]))
                   (str "acme-tools")
                   {| pluginDir := plugins_home;
                      disk := disk codec_store_manager;
                      loadedPlugins := [readme_plugin] |}
                   _ (text_content (check_mark ++ str "Uninstalled plugin: acme-tools"))
                   eq_refl _)).
  vm_compute. reflexivity.
Defined.

Lemma set_field_has (k : jsstring) (v : json) (fs : list (jsstring * json)) :
  In (k, v) (set_field k v fs).
Proof.
  induction fs as [|[k' v'] fs IH]; simpl; [now left|].
  destruct (jsstring_eqb k k'); [now left|now right].
Qed.

(** X29: the management tool [plugin_enable] makes the plugin available at
    once: when it succeeded on a recorded plugin, the document written
    parses back, and the [index.js] of the plugin is there and can be
    required, the plugin is among the loaded ones. *)
Theorem enable_handler_loads (R : Runtime) (env : environment)
  (args : option json) (key : jsstring) (record : list (jsstring * json))
  (m m' : manager) (r : json) (plugin : module_value) :
  arg "name" args = Ok (Some (JStr key)) ->
  lookup_record (loadMetadata m) key = Ok (Own (JObj record)) ->
  (let metadata' :=
     update_plugins
       (set_field key (JObj (set_field (str "enabled") (JBool true) record)))
       (loadMetadata m) in
   JSON_parse (JSON_stringify metadata') = Some metadata') ->
  handlePluginTool env (str "plugin_enable") args m = (Ok r, m') ->
  existsSync (disk m') (index_path m' key) = true ->
  env_require env (disk m') (index_path m' key) = Ok plugin ->
  In key (map fst (loadedPlugins m')).
Proof.
  intros A L P. cbv zeta in P.
  change (handlePluginTool env (str "plugin_enable") args)
    with (name <~ lift (arg "name" args) ;;
          enablePlugin name ;;;
          loadPlugins env ;;;
          ret (text_content (check_mark ++ str "Enabled plugin: "
                             ++ js_to_string name))).
  unfold bindM, lift. rewrite A. unfold enablePlugin.
  destruct (toggle true (Some (JStr key)) m) as [[x|e] m1] eqn:T;
    [|discriminate].
  destruct (toggle_saved _ _ _ _ _ T) as [found [metadata' [L' [_ [S V]]]]].
  simpl js_to_string in L', S. rewrite L in L'. injection L' as <-.
  simpl in S. injection S as <-.
  pose proof (loadMetadata_saved _ _ _ V P) as Lm.
  destruct (lookup_record_own _ _ _ L) as [mfs [pfs [E [Pl _]]]].
  unfold loadPlugins, enabledPlugins. rewrite Lm, E.
  unfold update_plugins. rewrite Pl. simpl member.
  rewrite assoc_set_field. simpl bind.
  destruct (enabled_entries _) as [enabled|] eqn:En; [|discriminate].
  unfold ret. intros [= _ <-] Ex Rq.
  destruct (load_all_frame env enabled m1) as [D [F _]].
  unfold index_path in Ex, Rq. rewrite D, F in Ex, Rq.
  apply (load_all_adds env enabled m1 key
           (JObj (set_field (str "enabled") (JBool true) record)) plugin);
    [|exact Ex|exact Rq].
  rewrite (enabled_entries_filter _ _ En). apply filter_In.
  split; [apply set_field_has|]. simpl. now rewrite assoc_set_field.
Qed.

Lemma enable_handler_loads_witness :
  In (str "acme-tools")
    (map fst
       (loadedPlugins
          (snd (@handlePluginTool codec_runtime sample_env (str "plugin_enable")
                  (Some (JObj [(str "name", JStr (str "acme-tools"))]))
                  {| pluginDir := plugins_home;
                     disk := disk codec_disabled_manager;
                     loadedPlugins := [] |})))).
Proof.
  refine (enable_handler_loads codec_runtime sample_env
            (Some (JObj [(str "name", JStr (str "acme-tools"))]))
            (str "acme-tools") [(str "enabled", JBool false)]
            {| pluginDir := plugins_home;
               disk := disk codec_disabled_manager;
               loadedPlugins := [] |}
            _ (text_content (check_mark ++ str "Enabled plugin: acme-tools"))
            (ModObject readme_module) eq_refl _ _ _ _ _).
  - vm_compute. reflexivity.
  - apply codec_round_trip.
  - vm_compute. reflexivity.
  - vm_compute. reflexivity.
  - vm_compute. reflexivity.
Defined.

(** ** Listing and describing the plugins *)

Lemma merge_fields_keeps (k : jsstring) (extra base : list (jsstring * json)) :
  assoc k extra = None ->
  assoc k (merge_fields base extra) = assoc k base.
Proof.
  unfold merge_fields. revert base.
  induction extra as [|[k' v] extra IH]; intros base; simpl; [reflexivity|].
  destruct (jsstring_eqb k k') eqn:E; [discriminate|].
  intros A. rewrite (IH _ A). apply assoc_set_field_other.
  now apply jsstring_eqb_neq.
Qed.

(** X30: getPluginInfo and listPlugins agree: for a name whose record is an
    object, getPluginInfo succeeds, changes nothing, and returns one of the
    entries that listPlugins lists; unless the record has a [name] member of
    its own, which then shows instead, the entry carries the name of the
    plugin as [name]. *)
Theorem info_agrees_with_list (R : Runtime) (key : jsstring)
  (record : list (jsstring * json)) (m : manager) :
  lookup_record (loadMetadata m) key = Ok (Own (JObj record)) ->
  exists o entries,
    getPluginInfo (Some (JStr key)) m = (Ok o, m)
    /\ listPlugins m = (Ok entries, m)
    /\ In o entries
    /\ (assoc (str "name") record = None -> field "name" o = Some (JStr key)).
Proof.
  intros L.
  destruct (lookup_record_own _ _ _ L) as [mfs [pfs [E [Pl A]]]].
  exists (JObj (merge_fields [(str "name", JStr key)] record)).
  exists (map (fun e => JObj (merge_fields [(str "name", JStr (fst e))]
                                           (spread (Some (snd e))))) pfs).
  split; [|split; [|split]].
  - unfold getPluginInfo, bindM, lift, ret. simpl js_to_string. now rewrite L.
  - unfold listPlugins. rewrite E. simpl. now rewrite Pl.
  - apply in_map_iff. exists (key, JObj record). split; [reflexivity|].
    now apply assoc_In.
  - intros N. simpl. rewrite (merge_fields_keeps _ _ _ N). reflexivity.
Qed.

Lemma info_agrees_with_list_witness :
  exists o entries,
    @getPluginInfo sample_runtime (Some (JStr (str "acme-tools"))) store_manager
    = (Ok o, store_manager)
    /\ @listPlugins sample_runtime store_manager = (Ok entries, store_manager)
    /\ In o entries
    /\ (assoc (str "name") [(str "enabled", JBool true)] = None ->
        field "name" o = Some (JStr (str "acme-tools"))).
Proof.
  refine (info_agrees_with_list sample_runtime (str "acme-tools")
            [(str "enabled", JBool true)] store_manager _).
  vm_compute. reflexivity.
Defined.
